(** * test-autorag: crawl monitor, result persister and R2 uploader

    A shallow embedding of [crawler.py] and [upload_data.py], with the
    parts of [settings.py] and [logger.py] they rest on.  Python
    values coming back from the Firecrawl SDK are JSON-like values; the
    file system, the UUID generator, the remote crawl service and the
    object store are the environment: their answers are read from an
    explicit [env], their effects are recorded in the state. *)

From stdpp Require Import gmap strings list fin_maps pretty.
From Stdlib Require Import ZArith Lia.

(** ** Python values *)

(** What [json] decoding (and hence the Firecrawl SDK) hands back. *)
#[warnings="-register-all"]
Inductive pyval : Type :=
| PNone
| PBool (b : bool)
| PInt (n : Z)
| PStr (s : string)
| PList (l : list pyval)
| PDict (d : gmap string pyval).

(** Python truth value testing: [not v] is [negb (truthy v)]. *)
Definition truthy (v : pyval) : bool :=
  match v with
  | PNone => false
  | PBool b => b
  | PInt n => negb (n =? 0)%Z
  | PStr s => negb (String.eqb s "")
  | PList l => match l with [] => false | _ :: _ => true end
  | PDict d => negb (bool_decide (d = ∅))
  end.

(** [v == "lit"] for a string literal: only a [str] with the same text. *)
Definition py_eq_str (v : pyval) (lit : string) : bool :=
  match v with
  | PStr s => String.eqb s lit
  | _ => false
  end.

(** ** Exceptions *)

Inductive exn : Type :=
| AttributeError
| TypeError
| OSError
| FileNotFoundError
| FileExistsError
| NotADirectoryError
| IsADirectoryError
| PermissionError
| ClientError
| RuntimeError
| ValueError.

(** [IOError] is an alias of [OSError]; these are its subclasses here. *)
Definition is_OSError (e : exn) : bool :=
  match e with
  | OSError | FileNotFoundError | FileExistsError
  | NotADirectoryError | IsADirectoryError | PermissionError => true
  | _ => false
  end.

(** ** Paths and the file system *)

(** A path is its list of components; [p / name] is [p ++ [name]]. *)
Abbreviation path := (list string).

Inductive node : Type :=
| Dir
| File (content : string).

(** What can go wrong with the disk beyond what the tree itself decides:
    the open fails, or the open succeeds and the write fails having left
    [partial] in the file. *)
Inductive io_fault : Type :=
| OpenFault (e : exn)
| WriteFault (e : exn) (partial : string).

(** ** Log records and other observable effects *)

Inductive level : Type := DEBUG | INFO | WARNING | ERROR.

(** One constructor per logging call of the two scripts, carrying the
    values interpolated into the message. *)
Inductive message : Type :=
(* crawler.py *)
| FirecrawlAppInitialized
| StartingCrawl (start_url : string) (params : pyval)
| CrawlJobStarted (job_id : pyval)
| FailedToStartCrawlJobFor (start_url : string) (crawl_result : pyval)
| ErrorStartingCrawlJob (start_url : string) (e : exn)
| CheckingStatus (job_id : pyval)
| StatusForJob (job_id : pyval) (status : pyval)
| ErrorCheckingStatus (job_id : pyval) (e : exn)
| SavingCrawlResults (output_dir : path)
| NoHtmlContent (page : nat) (source_url : pyval)
| SavedHtml (source_url : pyval) (filepath : path)
| FailedToWriteFile (filepath : path) (source_url : pyval) (e : exn)
| UnexpectedErrorSaving (filepath : path) (e : exn)
| SuccessfullySaved (saved_count : nat) (total : nat)
| FailedToStartExiting
| MonitoringCrawlJob (job_id : pyval)
| FailedToGetStatus (job_id : pyval)
| JobStatus (job_id : pyval) (status completed_count total_count : pyval)
| CrawlJobCompleted (job_id : pyval)
| CompletedButNoData (job_id : pyval)
| CrawlJobFailed (job_id : pyval) (status_data : pyval)
| UnknownStatus (status : pyval) (job_id : pyval) (status_data : pyval)
(* upload_data.py *)
| MissingR2Configuration
| DirectoryNotFound (dir : path)
| ConnectingToR2 (bucket endpoint_url : string)
| CreatedR2Client
| FailedToCreateR2Client (e : exn)
| ScanningDirectory (dir : path)
| ErrorAccessingDirectory (dir : path) (e : exn)
| NoHtmlFilesFound (dir : path)
| FoundHtmlFiles (n : nat)
| AttemptingUpload (file_path : path) (bucket key : string)
| SuccessfullyUploaded (key : string)
| FailedToUpload (key : string) (e : exn)
| FileNotFoundDuringUpload (file_path : path)
| UnexpectedUploadError (key : string) (e : exn)
| UploadSummaryHeader
| SuccessfulUploads (success_count : nat)
| FailedUploads (failure_count : nat)
| UploadSummaryFooter.

Inductive event : Type :=
| Log (l : level) (m : message)
| Sleep (seconds : Z)
| CheckCrawlStatusCall (job_id : pyval)
| FileWritten (filepath : path) (content : string)
| UploadFile (filename : path) (bucket key content_type : string).

(** ** Environment and state *)

Record env : Type := {
  (** the [n]-th value returned by [uuid.uuid4()], as [str] renders it *)
  uuid4 : nat → string;
  (** whether creating this directory is refused by the system *)
  mkdir_fault : path → option exn;
  (** whether opening or writing this file is refused by the system *)
  disk_fault : path → option io_fault;
  (** the directory holding [upload_data.py] *)
  module_dir : path;
  (** whether [Path.is_dir] raises on this path: a [stat] error that
      the method does not take for "not a directory" *)
  stat_fault : path → option exn;
  (** whether [boto3.client] raises when given this endpoint URL *)
  client_fault : string → option exn;
  (** whether listing this directory raises *)
  glob_fault : path → option exn;
  (** whether [upload_file] raises for this local file *)
  upload_fault : path → option exn
}.

Record state : Type := {
  fs : gmap path node;
  uuids_drawn : nat;
  trace : list event
}.

(** ** A state-and-exception monad for the scripts *)

Inductive outcome (A : Type) : Type :=
| Ok (a : A)
| Raise (e : exn).
Arguments Ok {A} a.
Arguments Raise {A} e.

Definition M (A : Type) : Type := state → outcome A * state.

Definition ret {A} (a : A) : M A := λ σ, (Ok a, σ).

Definition raise {A} (e : exn) : M A := λ σ, (Raise e, σ).

Definition bind {A B} (m : M A) (k : A → M B) : M B :=
  λ σ, match m σ with
       | (Ok a, σ') => k a σ'
       | (Raise e, σ') => (Raise e, σ')
       end.

(** [try: body except Exception as e: handler e] *)
Definition try_except {A} (body : M A) (handler : exn → M A) : M A :=
  λ σ, match body σ with
       | (Ok a, σ') => (Ok a, σ')
       | (Raise e, σ') => handler e σ'
       end.

(** stdpp's monad notations: [x ← m; k] and [m;; k]. *)
#[global] Instance M_ret : MRet M := @ret.
#[global] Instance M_bind : MBind M := λ A B k m, bind m k.

Definition emit (ev : event) : M unit :=
  λ σ, (Ok tt, {| fs := fs σ; uuids_drawn := uuids_drawn σ;
                  trace := trace σ ++ [ev] |}).

Definition log (l : level) (m : message) : M unit := emit (Log l m).

Definition get_fs : M (gmap path node) := λ σ, (Ok (fs σ), σ).

Definition put_fs (f : gmap path node) : M unit :=
  λ σ, (Ok tt, {| fs := f; uuids_drawn := uuids_drawn σ; trace := trace σ |}).

Definition draw_uuid (E : env) : M string :=
  λ σ, (Ok (uuid4 E (uuids_drawn σ)),
        {| fs := fs σ; uuids_drawn := S (uuids_drawn σ); trace := trace σ |}).

(** ** Python built-ins used by the scripts *)

(** [v.get(key, default)]: only a mapping has the method. *)
Definition py_get (v : pyval) (key : string) (dflt : pyval) : M pyval :=
  match v with
  | PDict d => ret (default dflt (d !! key))
  | _ => raise AttributeError
  end.

(** The items a [for] loop (or [enumerate]) walks over. *)
Definition py_iter (v : pyval) : M (list pyval) :=
  match v with
  | PList l => ret l
  | PDict d => ret ((λ kv, PStr kv.1) <$> map_to_list d)
  | PStr s => ret ((λ c, PStr (String c "")) <$> String.list_ascii_of_string s)
  | _ => raise TypeError
  end.

(** ** File-system primitives *)

(** [p] and its non-empty proper prefixes, outermost first. *)
Fixpoint ancestors (p : path) : list path :=
  match p with
  | [] => []
  | c :: q => [c] :: (cons c <$> ancestors q)
  end.

Definition is_file (f : gmap path node) (p : path) : bool :=
  match f !! p with
  | Some (File _) => true
  | _ => false
  end.

(** What [Path.is_dir()] answers when [stat] does not fail; the empty
    path is the working directory. *)
Definition is_dir (f : gmap path node) (p : path) : bool :=
  match p with
  | [] => true
  | _ => match f !! p with
         | Some Dir => true
         | _ => false
         end
  end.

Definition make_dirs (f : gmap path node) (p : path) : gmap path node :=
  foldr (λ q acc, <[q := Dir]> acc) f (ancestors p).

(** [Path.mkdir(parents=True, exist_ok=True)]: fails when the system
    refuses, or when the path or one of its ancestors is a regular file;
    otherwise the path and all its ancestors are directories afterwards. *)
Definition mkdir_parents (E : env) (p : path) : M unit :=
  f ← get_fs;
  match mkdir_fault E p with
  | Some e => raise e
  | None =>
      if is_file f p then raise FileExistsError
      else if existsb (is_file f) (ancestors p) then raise NotADirectoryError
      else put_fs (make_dirs f p)
  end.

(** [with open(filepath, "w", encoding="utf-8") as f: f.write(content)] *)
Definition write_text (E : env) (filepath : path) (content : pyval) : M unit :=
  f ← get_fs;
  if negb (is_dir f (removelast filepath)) then
    raise (if is_file f (removelast filepath)
           then NotADirectoryError else FileNotFoundError)
  else if is_dir f filepath then raise IsADirectoryError
  else
    match disk_fault E filepath with
    | Some (OpenFault e) => raise e
    | fault =>
        (* opening for writing creates the file or truncates it *)
        put_fs (<[filepath := File ""]> f);;
        match content with
        | PStr s =>
            match fault with
            | Some (WriteFault e partial) =>
                put_fs (<[filepath := File partial]> f);;
                raise e
            | _ =>
                put_fs (<[filepath := File s]> f);;
                emit (FileWritten filepath s)
            end
        | _ => raise TypeError
        end
    end.

(** ** crawler.py: [Crawler.save_crawl_results] *)

Definition page_filename (u : string) : string := "page_" +:+ u +:+ ".html".

(** The body of [for i, page_data in enumerate(crawl_data)]: the value
    of [saved_count] after the iteration. *)
Definition save_page (E : env) (output_path : path) (i : nat)
    (page_data : pyval) (saved_count : nat) : M nat :=
  html_content ← py_get page_data "rawHtml" PNone;
  metadata ← py_get page_data "metadata" (PDict ∅);
  source_url ← py_get metadata "sourceURL"
                 (PStr ("unknown_url_" +:+ pretty i));
  if negb (truthy html_content) then
    log WARNING (NoHtmlContent (i + 1) source_url);;
    ret saved_count
  else
    u ← draw_uuid E;
    let filename := page_filename u in
    let filepath := output_path ++ [filename] in
    try_except
      (write_text E filepath html_content;;
       log DEBUG (SavedHtml source_url filepath);;
       ret (saved_count + 1))
      (λ e, if is_OSError e
            then (log ERROR (FailedToWriteFile filepath source_url e);;
                  ret saved_count)
            else (log ERROR (UnexpectedErrorSaving filepath e);;
                  ret saved_count)).

(** The loop itself, threading the index and [saved_count]. *)
Fixpoint save_pages (E : env) (output_path : path) (pages : list pyval)
    (i saved_count : nat) : M nat :=
  match pages with
  | [] => ret saved_count
  | page_data :: rest =>
      saved_count ← save_page E output_path i page_data saved_count;
      save_pages E output_path rest (S i) saved_count
  end.

Definition save_crawl_results (E : env) (crawl_data : pyval)
    (output_dir : path) : M nat :=
  let output_path := output_dir in
  mkdir_parents E output_path;;
  log INFO (SavingCrawlResults output_dir);;
  pages ← py_iter crawl_data;
  saved_count ← save_pages E output_path pages 0 0;
  log INFO (SuccessfullySaved saved_count (length pages));;
  ret saved_count.

(** ** crawler.py: the Firecrawl client *)

(** What a call to the remote service does: hand back a decoded body or
    raise. *)
Inductive response : Type :=
| Returns (v : pyval)
| Throws (e : exn).

Definition answer (r : response) : M pyval :=
  match r with
  | Returns v => ret v
  | Throws e => raise e
  end.

(** [FirecrawlScrapeOptions().model_dump(exclude_none=True, by_alias=True)] *)
Definition FirecrawlScrapeOptions : pyval :=
  PDict (<["formats" := PList [PStr "rawHtml"]]>
        (<["removeBase64Images" := PBool true]>
        (<["onlyMainContent" := PBool true]> ∅))).

(** [FirecrawlCrawlParams(limit=limit).model_dump(exclude_none=True,
    by_alias=True)] *)
Definition FirecrawlCrawlParams (limit : Z) : pyval :=
  PDict (<["limit" := PInt limit]>
        (<["maxDepth" := PInt 5]>
        (<["scrapeOptions" := FirecrawlScrapeOptions]> ∅))).

(** [Crawler.start_crawl]; [r] is what [async_crawl_url] does. *)
Definition start_crawl (start_url : string) (params : pyval) (r : response)
    : M pyval :=
  log INFO (StartingCrawl start_url params);;
  try_except
    (crawl_result ← answer r;
     job_id ← py_get crawl_result "id" PNone;
     if truthy job_id then
       log INFO (CrawlJobStarted job_id);;
       ret job_id
     else
       log ERROR (FailedToStartCrawlJobFor start_url crawl_result);;
       ret PNone)
    (λ e, log ERROR (ErrorStartingCrawlJob start_url e);;
          ret PNone).

(** [Crawler.check_crawl_status]; [r] is what the SDK's
    [check_crawl_status] does for this call. *)
Definition check_crawl_status (job_id : pyval) (r : response) : M pyval :=
  log DEBUG (CheckingStatus job_id);;
  try_except
    (emit (CheckCrawlStatusCall job_id);;
     status_data ← answer r;
     status ← py_get status_data "status" PNone;
     log DEBUG (StatusForJob job_id status);;
     ret status_data)
    (λ e, log ERROR (ErrorCheckingStatus job_id e);;
          ret PNone).

(** ** crawler.py: the monitor loop of [main] *)

(** Which [break] left the loop. *)
Inductive break_reason : Type :=
| FetchFailed
| JobCompleted
| JobFailed.

Inductive control : Type :=
| Break (why : break_reason)
| Continue.

(** One pass through the body of [while True]. *)
Definition poll_once (E : env) (job_id : pyval) (output_dir : path)
    (r : response) : M control :=
  status_data ← check_crawl_status job_id r;
  if negb (truthy status_data) then
    log ERROR (FailedToGetStatus job_id);;
    ret (Break FetchFailed)
  else
    status ← py_get status_data "status" PNone;
    completed_count ← py_get status_data "completed" (PInt 0);
    total_count ← py_get status_data "total" (PInt 0);
    log INFO (JobStatus job_id status completed_count total_count);;
    if py_eq_str status "completed" then
      log INFO (CrawlJobCompleted job_id);;
      crawl_results ← py_get status_data "data" (PList []);
      (if truthy crawl_results then
         save_crawl_results E crawl_results output_dir;;
         ret tt
       else
         log WARNING (CompletedButNoData job_id));;
      ret (Break JobCompleted)
    else if py_eq_str status "failed" then
      log ERROR (CrawlJobFailed job_id status_data);;
      ret (Break JobFailed)
    else if py_eq_str status "scraping" then
      emit (Sleep 10);;
      ret Continue
    else
      log WARNING (UnknownStatus status job_id status_data);;
      emit (Sleep 10);;
      ret Continue.

(** How a run of the loop over a finite script of remote answers ends:
    by a [break], by an exception that leaves [main], or still waiting
    for the next answer when the script is used up. *)
Inductive loop_exit : Type :=
| Stopped (why : break_reason)
| Raised (e : exn)
| AwaitingStatus.

Record loop_result : Type := {
  iterations : nat;
  exit : loop_exit;
  unread : list response
}.

(** [while True: ...], one remote answer consumed per iteration;
    [done] counts the iterations already completed. *)
Fixpoint monitor (E : env) (job_id : pyval) (output_dir : path)
    (responses : list response) (done : nat) (σ : state)
    : loop_result * state :=
  match responses with
  | [] => ({| iterations := done; exit := AwaitingStatus; unread := [] |}, σ)
  | r :: rest =>
      match poll_once E job_id output_dir r σ with
      | (Ok Continue, σ') => monitor E job_id output_dir rest (S done) σ'
      | (Ok (Break why), σ') =>
          ({| iterations := S done; exit := Stopped why; unread := rest |}, σ')
      | (Raise e, σ') =>
          ({| iterations := S done; exit := Raised e; unread := rest |}, σ')
      end
  end.

(** [main]: [started] is the service's answer to the crawl request,
    [responses] its answers to the successive status requests.  [None]
    when the job could not be started. *)
Definition main (E : env) (start_url : string) (output_dir : path)
    (limit : Z) (started : response) (responses : list response) (σ : state)
    : option loop_result * state :=
  let crawl_params := FirecrawlCrawlParams limit in
  match (log INFO FirecrawlAppInitialized;;
         start_crawl start_url crawl_params started) σ with
  | (Ok job_id, σ1) =>
      if negb (truthy job_id) then
        (None, (log ERROR FailedToStartExiting σ1).2)
      else
        let σ2 := (log INFO (MonitoringCrawlJob job_id) σ1).2 in
        let '(res, σ3) := monitor E job_id output_dir responses 0 σ2 in
        (Some res, σ3)
  | (Raise e, σ1) => (None, σ1)
  end.

(** ** settings.py *)

(** The fields of [Settings] that the uploader reads; pydantic has
    validated each as a [str]. *)
Record Settings : Type := {
  r2_access_key_id : string;
  r2_secret_access_key : string;
  r2_bucket_name : string;
  r2_account_id : string
}.

(** ** upload_data.py *)

Definition CRAWL_OUTPUT_DIR (E : env) : path := module_dir E ++ ["crawled_html"].

(** [not s] for a [str]. *)
Definition str_falsy (s : string) : bool := negb (truthy (PStr s)).

(** [fnmatch(name, "*" + suffix)] *)
Definition ends_with (suffix name : string) : bool :=
  let n := String.length name in
  let k := String.length suffix in
  (k <=? n) && String.eqb (String.substring (n - k) k name) suffix.

(** [Path.name]: the final component. *)
Definition name (p : path) : string := List.last p "".

(** [list(dir.glob("*.html"))]: the entries directly under [dir] whose
    name matches. *)
Definition glob_html (f : gmap path node) (dir : path) : list path :=
  filter (λ p, p ≠ [] ∧ removelast p = dir ∧ ends_with ".html" (name p) = true)
         (map_to_list f).*1.

(** [Path.is_dir()] as a call: the answer is read off the file system,
    a missing entry or a file on the way being a plain "no"; any other
    failure of [stat] (no permission to search a parent, say) is raised
    to the caller. *)
Definition path_is_dir (E : env) (p : path) : M bool :=
  f ← get_fs;
  match stat_fault E p with
  | Some e => raise e
  | None => ret (is_dir f p)
  end.

(** [s3_client.upload_file(Filename=..., Bucket=..., Key=...,
    ExtraArgs={"ContentType": ...})] *)
Definition upload_file (E : env) (filename : path)
    (bucket key content_type : string) : M unit :=
  emit (UploadFile filename bucket key content_type);;
  match upload_fault E filename with
  | Some e => raise e
  | None => ret tt
  end.

(** The body of [for file_path in files_to_upload]: the two counters
    after the iteration. *)
Definition upload_one (E : env) (settings : Settings) (file_path : path)
    (success_count failure_count : nat) : M (nat * nat) :=
  let object_key := name file_path in
  log DEBUG (AttemptingUpload file_path (r2_bucket_name settings)
               object_key);;
  try_except
    (upload_file E file_path (r2_bucket_name settings) object_key
       "text/html";;
     log INFO (SuccessfullyUploaded object_key);;
     ret (success_count + 1, failure_count))
    (λ e, match e with
          | ClientError =>
              log ERROR (FailedToUpload object_key e);;
              ret (success_count, failure_count + 1)
          | FileNotFoundError =>
              log ERROR (FileNotFoundDuringUpload file_path);;
              ret (success_count, failure_count + 1)
          | _ =>
              log ERROR (UnexpectedUploadError object_key e);;
              ret (success_count, failure_count + 1)
          end).

(** The loop itself, threading the two counters. *)
Fixpoint upload_each (E : env) (settings : Settings) (files : list path)
    (success_count failure_count : nat) : M (nat * nat) :=
  match files with
  | [] => ret (success_count, failure_count)
  | file_path :: rest =>
      counts ← upload_one E settings file_path success_count failure_count;
      upload_each E settings rest counts.1 counts.2
  end.

Definition upload_files_to_r2 (E : env) (settings : Settings) : M unit :=
  let endpoint_url :=
    "https://" +:+ r2_account_id settings +:+ ".r2.cloudflarestorage.com" in
  if str_falsy endpoint_url
     || str_falsy (r2_bucket_name settings)
     || str_falsy (r2_access_key_id settings)
     || str_falsy (r2_secret_access_key settings)
  then log ERROR MissingR2Configuration
  else
    (* outside any [try]: what [is_dir] raises leaves the function *)
    found ← path_is_dir E (CRAWL_OUTPUT_DIR E);
    if negb found then
      log ERROR (DirectoryNotFound (CRAWL_OUTPUT_DIR E))
    else
      log INFO (ConnectingToR2 (r2_bucket_name settings) endpoint_url);;
      (* [boto3.client("s3", endpoint_url=endpoint_url, ...)] inside
         [try ... except Exception] *)
      match client_fault E endpoint_url with
      | Some e => log ERROR (FailedToCreateR2Client e)
      | None =>
          log INFO CreatedR2Client;;
          log INFO (ScanningDirectory (CRAWL_OUTPUT_DIR E));;
          match glob_fault E (CRAWL_OUTPUT_DIR E) with
          | Some e =>
              if is_OSError e
              then log ERROR (ErrorAccessingDirectory (CRAWL_OUTPUT_DIR E) e)
              else raise e
          | None =>
              f ← get_fs;
              let files_to_upload := glob_html f (CRAWL_OUTPUT_DIR E) in
              match files_to_upload with
              | [] => log WARNING (NoHtmlFilesFound (CRAWL_OUTPUT_DIR E))
              | _ :: _ =>
                  log INFO (FoundHtmlFiles (length files_to_upload));;
                  counts ← upload_each E settings files_to_upload 0 0;
                  log INFO UploadSummaryHeader;;
                  log INFO (SuccessfulUploads counts.1);;
                  log INFO (FailedUploads counts.2);;
                  log INFO UploadSummaryFooter
              end
          end
      end.

(** ** Vocabulary for the statements *)

(** The state after some more events have been observed. *)
Definition add_events (σ : state) (evs : list event) : state :=
  {| fs := fs σ; uuids_drawn := uuids_drawn σ; trace := trace σ ++ evs |}.

Definition is_fetch_call (ev : event) : bool :=
  match ev with
  | CheckCrawlStatusCall _ => true
  | _ => false
  end.

(** How many status requests were sent to the remote service. *)
Definition fetches (t : list event) : nat := length (List.filter is_fetch_call t).

Definition level_eqb (a b : level) : bool :=
  match a, b with
  | DEBUG, DEBUG | INFO, INFO | WARNING, WARNING | ERROR, ERROR => true
  | _, _ => false
  end.

(** The messages logged at a given level, in order. *)
Definition logged (l : level) (t : list event) : list message :=
  omap (λ ev, match ev with
              | Log l' m => if level_eqb l l' then Some m else None
              | _ => None
              end) t.

(** The durations slept, in order. *)
Definition sleeps (t : list event) : list Z :=
  omap (λ ev, match ev with Sleep n => Some n | _ => None end) t.

(** The files whose write completed, in order. *)
Definition written (t : list event) : list (path * string) :=
  omap (λ ev, match ev with FileWritten p s => Some (p, s) | _ => None end) t.

(** The upload attempts, in order. *)
Definition uploads (t : list event) : list event :=
  List.filter (λ ev, match ev with UploadFile _ _ _ _ => true | _ => false end) t.

(** *** Status snapshots *)

Definition status_of (d : gmap string pyval) : pyval :=
  default PNone (d !! "status").

Definition has_status (d : gmap string pyval) (s : string) : Prop :=
  d !! "status" = Some (PStr s).

(** A snapshot whose status is a string other than the two terminal
    ones: [scraping], [pending] or anything unrecognized. *)
Definition non_terminal (d : gmap string pyval) : Prop :=
  ∃ s, has_status d s ∧ s ≠ "completed" ∧ s ≠ "failed".

Definition terminal (d : gmap string pyval) : Prop :=
  has_status d "completed" ∨ has_status d "failed".

(** What one iteration on a fetched snapshot logs before it dispatches
    on the status. *)
Definition fetched_events (job_id : pyval) (d : gmap string pyval)
    : list event :=
  [Log DEBUG (CheckingStatus job_id);
   CheckCrawlStatusCall job_id;
   Log DEBUG (StatusForJob job_id (status_of d));
   Log INFO (JobStatus job_id (status_of d)
               (default (PInt 0) (d !! "completed"))
               (default (PInt 0) (d !! "total")))].

(** What one iteration that goes round again leaves in the trace. *)
Definition waiting_events (job_id : pyval) (d : gmap string pyval)
    : list event :=
  fetched_events job_id d
  ++ (if py_eq_str (status_of d) "scraping" then []
      else [Log WARNING (UnknownStatus (status_of d) job_id (PDict d))])
  ++ [Sleep 10].

(** What the iteration on a failed status fetch leaves in the trace. *)
Definition fetch_failure_events (job_id : pyval) (e : exn) : list event :=
  [Log DEBUG (CheckingStatus job_id);
   CheckCrawlStatusCall job_id;
   Log ERROR (ErrorCheckingStatus job_id e);
   Log ERROR (FailedToGetStatus job_id)].

(** *** Page records *)

Definition html_of (r : pyval) : pyval :=
  match r with
  | PDict d => default PNone (d !! "rawHtml")
  | _ => PNone
  end.

(** A record of the status response's [data]: a mapping whose
    [metadata], when present, is a mapping too.  The content and the
    source URL may be anything, or missing. *)
Definition page_record (r : pyval) : Prop :=
  ∃ d, r = PDict d
       ∧ (d !! "metadata" = None ∨ ∃ m, d !! "metadata" = Some (PDict m)).

(** Absent or empty content: what [not html_content] accepts. *)
Definition lacks_content (r : pyval) : bool := negb (truthy (html_of r)).

(** Valid content: a non-empty text. *)
Definition text_of (r : pyval) : option string :=
  match html_of r with
  | PStr s => if String.eqb s "" then None else Some s
  | _ => None
  end.

(** Every record either lacks content or carries a valid text. *)
Definition valid_or_empty (r : pyval) : Prop :=
  lacks_content r = true ∨ is_Some (text_of r).

(** The URL reported in the log lines for the [i]-th record. *)
Definition source_url_of (r : pyval) (i : nat) : pyval :=
  match r with
  | PDict d =>
      match default (PDict ∅) (d !! "metadata") with
      | PDict m => default (PStr ("unknown_url_" +:+ pretty i)) (m !! "sourceURL")
      | _ => PNone
      end
  | _ => PNone
  end.

(** The files the persister creates for the given texts when the
    generator has already been drawn from [k] times. *)
Definition new_files (E : env) (dir : path) (k : nat) (texts : list string)
    : list (path * string) :=
  zip_with (λ u s, (dir ++ [page_filename u], s))
           (uuid4 E <$> seq k (length texts)) texts.

Definition write_all (f : gmap path node) (files : list (path * string))
    : gmap path node :=
  foldl (λ acc ps, <[ps.1 := File ps.2]> acc) f files.

(** Every write into [dir] is accepted: no fault, and no directory sits
    where a file is to be created. *)
Definition disk_ok (E : env) (f : gmap path node) (dir : path) : Prop :=
  ∀ file : string,
    disk_fault E (dir ++ [file]) = None ∧ is_dir f (dir ++ [file]) = false.

(** From [σ] to [σ'] only events other than status requests were added
    and only entries directly under [dir] were touched. *)
Definition within (dir : path) (σ σ' : state) : Prop :=
  (∃ evs, trace σ' = trace σ ++ evs ∧ fetches evs = 0)
  ∧ (∀ q, (∀ file : string, q ≠ dir ++ [file]) → fs σ' !! q = fs σ !! q).

(** *** Uploads *)

Definition upload_fails (E : env) (file_path : path) : bool :=
  match upload_fault E file_path with
  | Some _ => true
  | None => false
  end.

(** The attempt the uploader is expected to make for a file. *)
Definition upload_of (settings : Settings) (file_path : path) : event :=
  UploadFile file_path (r2_bucket_name settings) (name file_path) "text/html".

(** How a run that reached the upload loop closes its log. *)
Definition upload_summary (success_count failure_count : nat) : list event :=
  [Log INFO UploadSummaryHeader;
   Log INFO (SuccessfulUploads success_count);
   Log INFO (FailedUploads failure_count);
   Log INFO UploadSummaryFooter].

(** The upload loop is reached when the three checked settings are
    non-empty, the directory can be examined and exists, the client can
    be created for the endpoint and the directory can be listed.  Of
    the account id this asks only that the storage library accepts the
    endpoint built around it. *)
Definition ready (E : env) (settings : Settings) (σ : state) : Prop :=
  r2_bucket_name settings ≠ ""
  ∧ r2_access_key_id settings ≠ ""
  ∧ r2_secret_access_key settings ≠ ""
  ∧ stat_fault E (CRAWL_OUTPUT_DIR E) = None
  ∧ is_dir (fs σ) (CRAWL_OUTPUT_DIR E) = true
  ∧ client_fault E ("https://" +:+ r2_account_id settings
                    +:+ ".r2.cloudflarestorage.com") = None
  ∧ glob_fault E (CRAWL_OUTPUT_DIR E) = None.

(** What a run that got as far as listing the directory has logged. *)
Definition upload_preamble (E : env) (settings : Settings) : list event :=
  [Log INFO (ConnectingToR2 (r2_bucket_name settings)
               ("https://" +:+ r2_account_id settings
                +:+ ".r2.cloudflarestorage.com"));
   Log INFO CreatedR2Client;
   Log INFO (ScanningDirectory (CRAWL_OUTPUT_DIR E))].

(** *** Sample inputs *)

Definition sample_env : env := {|
  uuid4 := λ n, "0000-" +:+ pretty n;
  mkdir_fault := λ _, None;
  disk_fault := λ _, None;
  module_dir := ["srv"];
  stat_fault := λ _, None;
  client_fault := λ _, None;
  glob_fault := λ _, None;
  upload_fault := λ _, None
|}.

Definition empty_state : state := {| fs := ∅; uuids_drawn := 0; trace := [] |}.

Definition sample_job : pyval := PStr "abc123".

Definition snapshot (s : string) : gmap string pyval := {["status" := PStr s]}.

Definition page (html : pyval) (url : string) : pyval :=
  PDict (<["rawHtml" := html]>
        {["metadata" := PDict {["sourceURL" := PStr url]}]}).

Definition sample_records : list pyval :=
  [page (PStr "<p>hi</p>") "https://example.com/docs/a";
   page (PStr "") "https://example.com/docs/a";
   PDict ∅].

Definition duplicate_url_records : list pyval :=
  [page (PStr "<p>one</p>") "https://example.com/docs/a";
   page (PStr "<p>two</p>") "https://example.com/docs/a"].

Definition empty_records : list pyval :=
  [page (PStr "") "https://example.com/docs/b"; PDict ∅].

Definition sample_settings : Settings := {|
  r2_access_key_id := "AKIA";
  r2_secret_access_key := "s3cr3t";
  r2_bucket_name := "test-bucket";
  r2_account_id := "acc0"
|}.

(** The same settings with [R2_ACCOUNT_ID] set to the empty string. *)
Definition no_account_settings : Settings := {|
  r2_access_key_id := "AKIA";
  r2_secret_access_key := "s3cr3t";
  r2_bucket_name := "test-bucket";
  r2_account_id := ""
|}.

(** [crawled_html] exists next to the script and is empty. *)
Definition empty_dir_state : state := {|
  fs := {[ ["srv"] := Dir; ["srv"; "crawled_html"] := Dir ]};
  uuids_drawn := 0;
  trace := []
|}.

(** [crawled_html] holds two pages and a file that is not one. *)
Definition two_pages_state : state := {|
  fs := {[ ["srv"] := Dir;
           ["srv"; "crawled_html"] := Dir;
           ["srv"; "crawled_html"; "a.html"] := File "<p>a</p>";
           ["srv"; "crawled_html"; "b.html"] := File "<p>b</p>";
           ["srv"; "crawled_html"; "notes.txt"] := File "todo" ]};
  uuids_drawn := 0;
  trace := []
|}.

(** An object store that refuses [b.html]. *)
Definition flaky_store_env : env := {|
  uuid4 := uuid4 sample_env;
  mkdir_fault := λ _, None;
  disk_fault := λ _, None;
  module_dir := ["srv"];
  stat_fault := λ _, None;
  client_fault := λ _, None;
  glob_fault := λ _, None;
  upload_fault := λ p,
    if bool_decide (p = ["srv"; "crawled_html"; "b.html"])
    then Some ClientError else None
|}.

(** A record whose [metadata] is [null], followed by a good one. *)
Definition null_metadata_records : list pyval :=
  [PDict (<["rawHtml" := PStr "<p>x</p>"]> {["metadata" := PNone]});
   page (PStr "<p>hi</p>") "https://example.com/docs/a"].

(** *** Writes that may be refused *)

(** The target directory exists and no directory sits where a page file
    would go. *)
Definition tidy (f : gmap path node) (dir : path) : Prop :=
  is_dir f dir = true ∧ ∀ file : string, is_dir f (dir ++ [file]) = false.

(** Whether the system lets this file be opened and written. *)
Definition accepted (E : env) (ps : path * string) : bool :=
  match disk_fault E ps.1 with
  | None => true
  | Some _ => false
  end.

(** A disk that refuses the second page file. *)
Definition full_disk_env : env := {|
  uuid4 := uuid4 sample_env;
  mkdir_fault := λ _, None;
  disk_fault := λ p,
    if bool_decide (p = ["crawled_html"; "page_0000-1.html"])
    then Some (WriteFault OSError "<p>t") else None;
  module_dir := ["srv"];
  stat_fault := λ _, None;
  client_fault := λ _, None;
  glob_fault := λ _, None;
  upload_fault := λ _, None
|}.

Definition three_text_records : list pyval :=
  [page (PStr "<p>one</p>") "https://example.com/docs/a";
   page (PStr "<p>two</p>") "https://example.com/docs/b";
   page (PStr "<p>three</p>") "https://example.com/docs/c"].

(** A record whose content is a number. *)
Definition number_record : pyval := page (PInt 5) "https://example.com/docs/n".

(** *** Starting a job *)

(** The job identifier carried by the service's answer to the crawl
    request, [None] when there is none to read. *)
Definition job_id_of (r : response) : pyval :=
  match r with
  | Returns (PDict d) => default PNone (d !! "id")
  | _ => PNone
  end.

(** The answer to a crawl request that was accepted. *)
Definition started_abc123 : response :=
  Returns (PDict {["id" := PStr "abc123"]}).

(** A completed snapshot carrying [sample_records]. *)
Definition completed_snapshot : gmap string pyval :=
  <["data" := PList sample_records]> (snapshot "completed").

(** A completed snapshot whose [data] holds a string instead of
    records. *)
Definition bad_data_snapshot : gmap string pyval :=
  <["data" := PList [PStr "oops"]]> (snapshot "completed").

(** *** The upload loop's trace *)

(** How an iteration of the upload loop reports what became of the
    file. *)
Definition upload_report (E : env) (file_path : path) : event :=
  match upload_fault E file_path with
  | None => Log INFO (SuccessfullyUploaded (name file_path))
  | Some ClientError => Log ERROR (FailedToUpload (name file_path) ClientError)
  | Some FileNotFoundError => Log ERROR (FileNotFoundDuringUpload file_path)
  | Some e => Log ERROR (UnexpectedUploadError (name file_path) e)
  end.

(** What one iteration of the upload loop leaves in the trace. *)
Definition upload_events (E : env) (settings : Settings) (file_path : path)
    : list event :=
  [Log DEBUG (AttemptingUpload file_path (r2_bucket_name settings)
                (name file_path));
   upload_of settings file_path;
   upload_report E file_path].

(** What a run adds to the trace once the directory has been listed. *)
Definition listed_events (E : env) (settings : Settings) (files : list path)
    : list event :=
  match files with
  | [] => [Log WARNING (NoHtmlFilesFound (CRAWL_OUTPUT_DIR E))]
  | _ :: _ =>
      [Log INFO (FoundHtmlFiles (length files))]
      ++ (files ≫= upload_events E settings)
      ++ upload_summary
           (length files - length (List.filter (upload_fails E) files))
           (length (List.filter (upload_fails E) files))
  end.

(** One of the three settings the guard really tests is empty. *)
Definition setting_missing (settings : Settings) : Prop :=
  r2_bucket_name settings = ""
  ∨ r2_access_key_id settings = ""
  ∨ r2_secret_access_key settings = "".

(** An entry of the file system directly under [dir] whose name ends in
    [.html], whatever kind of entry it is. *)
Definition html_entry (f : gmap path node) (dir : path) (p : path) : Prop :=
  ∃ file : string,
    p = dir ++ [file] ∧ is_Some (f !! p) ∧ ends_with ".html" file = true.

(** A machine on which the storage client cannot be created. *)
Definition no_client_env : env := {|
  uuid4 := uuid4 sample_env;
  mkdir_fault := λ _, None;
  disk_fault := λ _, None;
  module_dir := ["srv"];
  stat_fault := λ _, None;
  client_fault := λ _, Some RuntimeError;
  glob_fault := λ _, None;
  upload_fault := λ _, None
|}.

(** A machine on which listing a directory breaks with something that
    is not an [OSError]. *)
Definition broken_listing_env : env := {|
  uuid4 := uuid4 sample_env;
  mkdir_fault := λ _, None;
  disk_fault := λ _, None;
  module_dir := ["srv"];
  stat_fault := λ _, None;
  client_fault := λ _, None;
  glob_fault := λ _, Some RuntimeError;
  upload_fault := λ _, None
|}.

(** [crawled_html] holds a page, a directory named like a page, a page
    one level further down and a file that is not a page. *)
Definition nested_state : state := {|
  fs := {[ ["srv"] := Dir;
           ["srv"; "crawled_html"] := Dir;
           ["srv"; "crawled_html"; "a.html"] := File "<p>a</p>";
           ["srv"; "crawled_html"; "old.html"] := Dir;
           ["srv"; "crawled_html"; "old.html"; "c.html"] := File "<p>c</p>";
           ["srv"; "crawled_html"; "notes.txt"] := File "todo" ]};
  uuids_drawn := 0;
  trace := []
|}.

(** ** settings.py: what the logger reads *)

Inductive Environment : Type :=
| LOCAL
| STAGING
| PRODUCTION.

(** [a == b] on members of the enumeration. *)
Definition Environment_eqb (a b : Environment) : bool :=
  match a, b with
  | LOCAL, LOCAL | STAGING, STAGING | PRODUCTION, PRODUCTION => true
  | _, _ => false
  end.

(** The fields [app_name], [environment] and [debug] of [Settings];
    [debug] is [bool | None]. *)
Record AppSettings : Type := {
  app_name : string;
  environment : Environment;
  debug : option bool
}.

(** [Settings.set_debug], run by pydantic after the fields are set. *)
Definition set_debug (self : AppSettings) : AppSettings :=
  match debug self with
  | None =>
      {| app_name := app_name self;
         environment := environment self;
         debug := Some (Environment_eqb (environment self) LOCAL) |}
  | Some _ => self
  end.

(** ** logger.py *)

(** *** The state of the [logging] module *)

Inductive stream : Type := Stdout | Stderr.

Record formatter : Type := {
  fmt : string;
  datefmt : string
}.

Inductive handler_kind : Type :=
| StreamHandler (s : stream)
| NullHandler.

(** A handler object; [handler_id] stands for its identity, which is
    what [in] and [list.remove] compare.  A level of [None] is
    [NOTSET]. *)
Record handler : Type := {
  handler_id : nat;
  kind : handler_kind;
  handler_level : option level;
  handler_formatter : option formatter
}.

Record logger : Type := {
  logger_level : option level;
  handlers : list handler
}.

(** The loggers created so far, by name, and the number of handler
    objects created so far. *)
Record logging : Type := {
  loggers : gmap string logger;
  handlers_created : nat
}.

(** [getLogger("")] and [getLogger("root")] are the root logger. *)
Definition canonical (name : string) : string :=
  if String.eqb name "" then "root" else name.

(** A logger as it is on first use: the root logger at [WARNING], any
    other at [NOTSET], none with a handler. *)
Definition initial_logger (name : string) : logger :=
  {| logger_level := if String.eqb name "root" then Some WARNING else None;
     handlers := [] |}.

(** [logging.getLogger(name)], read: the logger's current content. *)
Definition getLogger (L : logging) (name : string) : logger :=
  default (initial_logger (canonical name)) (loggers L !! canonical name).

Definition update_logger (L : logging) (name : string) (f : logger → logger)
    : logging :=
  {| loggers := <[canonical name := f (getLogger L name)]> (loggers L);
     handlers_created := handlers_created L |}.

(** [logging.getLogger(name).setLevel(lvl)] *)
Definition setLevel (L : logging) (name : string) (lvl : level) : logging :=
  update_logger L name
    (λ l, {| logger_level := Some lvl; handlers := handlers l |}).

(** [list.remove]: the first occurrence goes. *)
Fixpoint remove_first (id : nat) (hs : list handler) : list handler :=
  match hs with
  | [] => []
  | h :: rest =>
      if Nat.eqb (handler_id h) id then rest else h :: remove_first id rest
  end.

(** [Logger.removeHandler]: [if hdlr in self.handlers:
    self.handlers.remove(hdlr)] *)
Definition removeHandler (L : logging) (name : string) (hdlr : handler)
    : logging :=
  update_logger L name
    (λ l, {| logger_level := logger_level l;
             handlers := remove_first (handler_id hdlr) (handlers l) |}).

(** [Logger.addHandler]: [if not (hdlr in self.handlers):
    self.handlers.append(hdlr)] *)
Definition addHandler (L : logging) (name : string) (hdlr : handler)
    : logging :=
  update_logger L name
    (λ l, if existsb (λ h, Nat.eqb (handler_id h) (handler_id hdlr))
               (handlers l)
          then l
          else {| logger_level := logger_level l;
                  handlers := handlers l ++ [hdlr] |}).

(** A new handler object of the given kind, level and formatter. *)
Definition new_handler (L : logging) (k : handler_kind)
    (lvl : option level) (f : option formatter) : handler * logging :=
  ({| handler_id := handlers_created L; kind := k;
      handler_level := lvl; handler_formatter := f |},
   {| loggers := loggers L; handlers_created := S (handlers_created L) |}).

(** *** The module's functions *)

(** [ConsoleFormatter()] *)
Definition ConsoleFormatter : formatter :=
  {| fmt := "%(asctime)s - %(levelname)s - %(module)s:%(lineno)d - %(message)s";
     datefmt := "%Y-%m-%d %H:%M:%S" |}.

(** [logging.DEBUG if settings.debug else logging.INFO] *)
Definition log_level (settings : AppSettings) : level :=
  match debug settings with
  | Some true => DEBUG
  | _ => INFO
  end.

Definition configure_logging (settings : AppSettings) (L : logging)
    : logging :=
  let app_logger := app_name settings in
  let L := setLevel L app_logger (log_level settings) in
  (* for handler in app_logger.handlers[:] *)
  let L := foldl (λ L handler, removeHandler L app_logger handler) L
                 (handlers (getLogger L app_logger)) in
  let '(console_handler, L) :=
    new_handler L (StreamHandler Stdout) (Some (log_level settings))
      (Some ConsoleFormatter) in
  let L := addHandler L app_logger console_handler in
  let L := setLevel L "urllib3.connectionpool" WARNING in
  let L := setLevel L "uvicorn.access" WARNING in
  let L := setLevel L "httpx" ERROR in
  let L := setLevel L "httpx._client" ERROR in
  let L := setLevel L "httpx._trace" ERROR in
  setLevel L "logfire" ERROR.

(** [get_logger]: the name of the logger handed back, and the module's
    state afterwards. *)
Definition get_logger (settings : AppSettings) (name : string) (L : logging)
    : string * logging :=
  let name := app_name settings +:+ "." +:+ name in
  if match handlers (getLogger L name) with [] => true | _ => false end
     && match handlers (getLogger L "root") with [] => true | _ => false end
  then
    let '(null_handler, L) := new_handler L NullHandler None None in
    (name, addHandler L name null_handler)
  else (name, L).

(** *** Vocabulary for the logger *)

(** The level [configure_logging] forces on a third-party logger. *)
Definition silenced (name : string) : option level :=
  if String.eqb name "urllib3.connectionpool" then Some WARNING
  else if String.eqb name "uvicorn.access" then Some WARNING
  else if String.eqb name "httpx" then Some ERROR
  else if String.eqb name "httpx._client" then Some ERROR
  else if String.eqb name "httpx._trace" then Some ERROR
  else if String.eqb name "logfire" then Some ERROR
  else None.

(** The console handler [configure_logging] installs when [n] handler
    objects exist already. *)
Definition console_handler (settings : AppSettings) (n : nat) : handler :=
  {| handler_id := n; kind := StreamHandler Stdout;
     handler_level := Some (log_level settings);
     handler_formatter := Some ConsoleFormatter |}.

(** The module's state when the console handler has just been added:
    the application logger holds its level and that handler alone, the
    other loggers are as they were. *)
Definition with_console (settings : AppSettings) (L : logging) : logging :=
  addHandler
    (new_handler
       (foldl (λ L h, removeHandler L (app_name settings) h)
          (setLevel L (app_name settings) (log_level settings))
          (handlers
             (getLogger (setLevel L (app_name settings) (log_level settings))
                (app_name settings))))
       (StreamHandler Stdout) (Some (log_level settings))
       (Some ConsoleFormatter)).2
    (app_name settings)
    (console_handler settings (handlers_created L)).

(** Whether debug mode is on once the settings are validated. *)
Definition debug_mode (settings : AppSettings) : bool :=
  match debug settings with
  | Some b => b
  | None => Environment_eqb (environment settings) LOCAL
  end.

(** A fresh interpreter: no logger touched, no handler created. *)
Definition fresh_logging : logging :=
  {| loggers := ∅; handlers_created := 0 |}.

(** The settings of a deployment that sets nothing but [ENVIRONMENT]. *)
Definition staging_settings : AppSettings :=
  {| app_name := "autorag-test"; environment := STAGING; debug := None |}.

(** The default settings. *)
Definition default_settings : AppSettings :=
  {| app_name := "autorag-test"; environment := LOCAL; debug := None |}.

(** An application logger that already carries two handlers, one of
    them twice. *)
Definition crowded_logging : logging :=
  {| loggers :=
       {[ "autorag-test" :=
            {| logger_level := Some ERROR;
               handlers :=
                 [ {| handler_id := 0; kind := StreamHandler Stderr;
                      handler_level := None; handler_formatter := None |};
                   {| handler_id := 1; kind := NullHandler;
                      handler_level := None; handler_formatter := None |};
                   {| handler_id := 0; kind := StreamHandler Stderr;
                      handler_level := None; handler_formatter := None |} ] |} ]};
     handlers_created := 2 |}.

(** *** What a run leaves of the file system *)

(** Every entry of [f] is still an entry of [f']. *)
Definition keeps_entries (f f' : gmap path node) : Prop :=
  ∀ q, is_Some (f !! q) → is_Some (f' !! q).


(** A storage library that, like botocore, refuses an endpoint whose
    host name starts with an empty label. *)
Definition strict_client_env : env := {|
  uuid4 := uuid4 sample_env;
  mkdir_fault := λ _, None;
  disk_fault := λ _, None;
  module_dir := ["srv"];
  stat_fault := λ _, None;
  client_fault := λ endpoint_url,
    if String.prefix "https://." endpoint_url
    then Some ValueError else None;
  glob_fault := λ _, None;
  upload_fault := λ _, None
|}.

(** A machine on which the script's directory may not be searched. *)
Definition locked_dir_env : env := {|
  uuid4 := uuid4 sample_env;
  mkdir_fault := λ _, None;
  disk_fault := λ _, None;
  module_dir := ["srv"];
  stat_fault := λ _, Some PermissionError;
  client_fault := λ _, None;
  glob_fault := λ _, None;
  upload_fault := λ _, None
|}.

(** * Properties *)

(** ** Stepping through the monad *)

Ltac mstep :=
  repeat (unfold mbind, mret, M_bind, M_ret, bind, ret, raise, try_except,
            log, emit, answer, py_get, get_fs, put_fs, draw_uuid;
          cbn beta iota delta [fst snd fs uuids_drawn trace]).

Ltac mstep_in H :=
  repeat (unfold mbind, mret, M_bind, M_ret, bind, ret, raise, try_except,
            log, emit, answer, py_get, get_fs, put_fs, draw_uuid in H;
          cbn beta iota delta [fst snd fs uuids_drawn trace] in H).

(** An event is not in an explicit list of events of other shapes. *)
Ltac not_in_events :=
  let H := fresh in
  intros H; cbn [app] in H;
  repeat (apply elem_of_cons in H as [H|H]; [discriminate H|]);
  by apply elem_of_nil in H.

Lemma add_events_nil σ : add_events σ [] = σ.
Proof. destruct σ; unfold add_events; simpl. by rewrite app_nil_r. Qed.

Lemma add_events_app σ evs1 evs2 :
  add_events (add_events σ evs1) evs2 = add_events σ (evs1 ++ evs2).
Proof. unfold add_events; simpl. by rewrite <- app_assoc. Qed.

Lemma fetches_app t1 t2 : fetches (t1 ++ t2) = fetches t1 + fetches t2.
Proof. unfold fetches. by rewrite List.filter_app, length_app. Qed.

(** ** File-system facts *)

Lemma ancestors_length p q : q ∈ ancestors p → length q ≤ length p.
Proof.
  revert q. induction p as [|c p IH]; intros q; simpl.
  - by intros ?%elem_of_nil.
  - intros [->|Hq]%elem_of_cons; [simpl; lia|].
    apply list_elem_of_fmap in Hq as (q' & -> & Hq'). apply IH in Hq'. simpl. lia.
Qed.

Lemma ancestors_self p : p ≠ [] → p ∈ ancestors p.
Proof.
  induction p as [|c p IH]; [done|]. intros _. simpl.
  destruct p as [|c' p]; [left|].
  right. apply list_elem_of_fmap. eexists; split; [done|]. by apply IH.
Qed.

Lemma child_not_ancestor dir (file : string) : dir ++ [file] ∉ ancestors dir.
Proof. intros H%ancestors_length. rewrite length_app in H. simpl in H. lia. Qed.

Lemma lookup_make_dirs_in f p q :
  q ∈ ancestors p → make_dirs f p !! q = Some Dir.
Proof.
  unfold make_dirs. induction (ancestors p) as [|a l IH]; simpl.
  - by intros ?%elem_of_nil.
  - intros Hq. destruct (decide (a = q)) as [->|Hne].
    + by rewrite lookup_insert_eq.
    + rewrite lookup_insert_ne by done. apply IH.
      apply elem_of_cons in Hq as [->|]; done.
Qed.

Lemma lookup_make_dirs_out f p q :
  q ∉ ancestors p → make_dirs f p !! q = f !! q.
Proof.
  unfold make_dirs. induction (ancestors p) as [|a l IH]; simpl; [done|].
  intros Hq. apply not_elem_of_cons in Hq as [Hne Hq].
  rewrite lookup_insert_ne by done. by apply IH.
Qed.

Lemma is_dir_make_dirs f p : is_dir (make_dirs f p) p = true.
Proof.
  destruct p as [|c p]; [done|]. unfold is_dir.
  by rewrite lookup_make_dirs_in by by apply ancestors_self.
Qed.

Lemma child_neq (dir : path) (file : string) : dir ++ [file] ≠ dir.
Proof.
  intros H. apply (f_equal length) in H. rewrite length_app in H.
  simpl in H. lia.
Qed.

Lemma is_dir_child_nonempty f (dir : path) (file : string) :
  is_dir f (dir ++ [file]) = match f !! (dir ++ [file]) with Some Dir => true | _ => false end.
Proof. unfold is_dir. by destruct dir. Qed.

Lemma disk_ok_make_dirs E f dir : disk_ok E f dir → disk_ok E (make_dirs f dir) dir.
Proof.
  intros H file. destruct (H file) as [H1 H2]. split; [done|].
  rewrite is_dir_child_nonempty in *.
  by rewrite lookup_make_dirs_out by apply child_not_ancestor.
Qed.

Lemma mkdir_parents_ok E dir σ :
  (mkdir_parents E dir σ).1 = Ok tt →
  mkdir_parents E dir σ
  = (Ok tt, {| fs := make_dirs (fs σ) dir; uuids_drawn := uuids_drawn σ;
               trace := trace σ |}).
Proof.
  unfold mkdir_parents. mstep.
  destruct (mkdir_fault E dir); [done|].
  destruct (is_file (fs σ) dir); [done|].
  by destruct (existsb (is_file (fs σ)) (ancestors dir)).
Qed.

Lemma mkdir_parents_raise E dir σ e σ' :
  mkdir_parents E dir σ = (Raise e, σ') → σ' = σ.
Proof.
  unfold mkdir_parents. mstep.
  destruct (mkdir_fault E dir); [by intros [= _ <-]|].
  destruct (is_file (fs σ) dir); [by intros [= _ <-]|].
  destruct (existsb (is_file (fs σ)) (ancestors dir)); [by intros [= _ <-]|done].
Qed.

(** ** The persister *)

Lemma lacks_content_no_text r : lacks_content r = true → text_of r = None.
Proof.
  unfold lacks_content, text_of. destruct (html_of r); try done.
  simpl. by destruct (String.eqb s "").
Qed.

Lemma text_of_truthy r s :
  text_of r = Some s → html_of r = PStr s ∧ truthy (html_of r) = true.
Proof.
  unfold text_of. destruct (html_of r) as [| | |s'| |]; try done.
  simpl. destruct (String.eqb s' ""); [done|]. by intros [= ->].
Qed.

Section persister.
Context (E : env) (output_dir : path).

(** A record without content costs one warning and nothing else. *)
Lemma save_page_skip i r c σ :
  page_record r → lacks_content r = true →
  save_page E output_dir i r c σ
  = (Ok c, add_events σ [Log WARNING (NoHtmlContent (i + 1) (source_url_of r i))]).
Proof.
  intros (d & -> & Hm) Hl. unfold save_page. mstep.
  unfold lacks_content in Hl. simpl in Hl.
  unfold source_url_of.
  destruct Hm as [-> | (m & ->)]; simpl; mstep; rewrite Hl; by mstep.
Qed.

(** A record with a text, on a disk that accepts the write, becomes
    one new file named after the next UUID. *)
Lemma save_page_write i r c σ s :
  let filepath := output_dir ++ [page_filename (uuid4 E (uuids_drawn σ))] in
  page_record r → text_of r = Some s →
  is_dir (fs σ) output_dir = true →
  disk_fault E filepath = None → is_dir (fs σ) filepath = false →
  save_page E output_dir i r c σ
  = (Ok (c + 1),
     {| fs := <[filepath := File s]> (fs σ);
        uuids_drawn := S (uuids_drawn σ);
        trace := trace σ ++ [FileWritten filepath s;
                             Log DEBUG (SavedHtml (source_url_of r i) filepath)] |}).
Proof.
  intros filepath (d & -> & Hm) [Hs Ht]%text_of_truthy Hdir Hfault Hnd.
  unfold save_page. mstep. simpl in Hs, Ht. unfold source_url_of.
  destruct Hm as [-> | (m & ->)]; simpl; mstep; rewrite Ht; mstep; simpl;
    unfold write_text; mstep; fold filepath;
    unfold filepath at 1; rewrite removelast_last, Hdir; simpl;
    rewrite Hnd, Hfault, Hs; mstep; simpl;
    by rewrite <- !app_assoc.
Qed.
End persister.

Lemma new_files_cons E dir k s texts :
  new_files E dir k (s :: texts)
  = (dir ++ [page_filename (uuid4 E k)], s) :: new_files E dir (S k) texts.
Proof. done. Qed.

Lemma written_app t1 t2 : written (t1 ++ t2) = written t1 ++ written t2.
Proof. apply omap_app. Qed.

Lemma logged_app l t1 t2 : logged l (t1 ++ t2) = logged l t1 ++ logged l t2.
Proof. apply omap_app. Qed.

Lemma disk_ok_insert_file E f dir p s :
  disk_ok E f dir → disk_ok E (<[p := File s]> f) dir.
Proof.
  intros H file. destruct (H file) as [H1 H2]. split; [done|].
  rewrite is_dir_child_nonempty in *.
  destruct (decide (p = dir ++ [file])) as [->|Hne].
  - by rewrite lookup_insert_eq.
  - by rewrite lookup_insert_ne.
Qed.

Lemma is_dir_insert_child f (dir : path) (file : string) s :
  is_dir (<[dir ++ [file] := File s]> f) dir = is_dir f dir.
Proof.
  unfold is_dir. destruct dir as [|c dir]; [done|].
  rewrite lookup_insert_ne; [done|]. apply child_neq.
Qed.

Section persister_run.
Context (E : env) (output_dir : path).

(** The loop on well-formed records and a willing disk: the texts
    become files, in order; the other records become warnings. *)
Lemma save_pages_good pages i c σ :
  Forall page_record pages → Forall valid_or_empty pages →
  is_dir (fs σ) output_dir = true → disk_ok E (fs σ) output_dir →
  let texts := omap text_of pages in
  let files := new_files E output_dir (uuids_drawn σ) texts in
  ∃ evs,
    save_pages E output_dir pages i c σ
    = (Ok (c + length texts),
       {| fs := write_all (fs σ) files;
          uuids_drawn := uuids_drawn σ + length texts;
          trace := trace σ ++ evs |})
    ∧ written evs = files
    ∧ length (logged WARNING evs) = length (List.filter lacks_content pages)
    ∧ logged ERROR evs = []
    ∧ fetches evs = 0.
Proof.
  intros Hrec Hve. revert i c σ.
  induction pages as [|r pages IH]; intros i c σ Hdir Hok; simpl.
  - exists []. rewrite app_nil_r, !Nat.add_0_r. by destruct σ.
  - apply Forall_cons in Hrec as [Hr Hrec].
    apply Forall_cons in Hve as [[Hl | [s Hs]] Hve].
    + (* skipped *)
      rewrite (lacks_content_no_text _ Hl), Hl. mstep.
      rewrite (save_page_skip _ _ _ _ _ _ Hr Hl).
      destruct (IH Hrec Hve (S i) c (add_events σ [Log WARNING (NoHtmlContent (i + 1) (source_url_of r i))]) Hdir Hok)
        as (evs & Hrun & Hw & Hwarn & Herr & Hf).
      eexists (_ :: evs). split; [|split; [|split; [|split]]].
      * fold (save_pages E output_dir). rewrite Hrun. simpl.
        by rewrite <- app_assoc.
      * done.
      * simpl. by rewrite Hwarn.
      * done.
      * done.
    + (* written *)
      rewrite Hs. destruct (text_of_truthy _ _ Hs) as [_ Ht].
      unfold lacks_content. rewrite Ht. simpl negb. cbn iota.
      destruct (Hok (page_filename (uuid4 E (uuids_drawn σ)))) as [Hfault Hnd].
      mstep. rewrite (save_page_write _ _ _ _ _ _ s Hr Hs Hdir Hfault Hnd).
      fold (save_pages E output_dir).
      match goal with |- context [save_pages _ _ _ _ _ ?σ1] =>
        destruct (IH Hrec Hve (S i) (c + 1) σ1) as (evs & Hrun & Hw & Hwarn & Herr & Hf)
      end.
      { simpl. by rewrite is_dir_insert_child. }
      { simpl. by apply disk_ok_insert_file. }
      eexists (_ :: _ :: evs). split; [|split; [|split; [|split]]].
      * rewrite Hrun. cbn [fs uuids_drawn trace length].
        rewrite new_files_cons. unfold write_all. cbn [foldl fst snd].
        change (list_omap pyval string text_of pages)
          with (omap text_of pages).
        f_equal; [f_equal; lia|].
        f_equal; [lia | by rewrite <- app_assoc].
      * simpl. rewrite Hw. by rewrite new_files_cons.
      * done.
      * done.
      * done.
Qed.
End persister_run.

Lemma within_refl dir σ : within dir σ σ.
Proof. split; [|done]. exists []. by rewrite app_nil_r. Qed.

Lemma within_trans dir σ1 σ2 σ3 :
  within dir σ1 σ2 → within dir σ2 σ3 → within dir σ1 σ3.
Proof.
  intros [(e1 & Ht1 & Hf1) Hfs1] [(e2 & Ht2 & Hf2) Hfs2]. split.
  - exists (e1 ++ e2). rewrite Ht2, Ht1, <- app_assoc, fetches_app. split; [done|lia].
  - intros q Hq. rewrite Hfs2, Hfs1; done.
Qed.

Lemma within_is_dir dir σ σ' :
  within dir σ σ' → is_dir (fs σ') dir = is_dir (fs σ) dir.
Proof.
  intros [_ H]. unfold is_dir. destruct dir as [|c dir]; [done|].
  rewrite H; [done|]. intros file Heq. by apply (child_neq (c :: dir) file).
Qed.

Section persister_frame.
Context (E : env) (output_dir : path).

Ltac frame_goal :=
  split;
  [ eexists; split;
    [ cbn [trace]; rewrite <- ?app_assoc; first [reflexivity | symmetry; apply app_nil_r]
    | reflexivity ]
  | intros q Hq; cbn [fs]; rewrite ?lookup_insert_ne by (intros <-; by eapply Hq); reflexivity ].

Lemma save_page_frame i r c σ o σ' :
  save_page E output_dir i r c σ = (o, σ') → within output_dir σ σ'.
Proof.
  unfold save_page, write_text. mstep. intros H.
  repeat (case_match; mstep_in H; simplify_eq); try frame_goal.
Qed.
End persister_frame.

(** ** File names *)

Lemma string_length_app (s1 s2 : string) :
  String.length (s1 +:+ s2) = String.length s1 + String.length s2.
Proof. induction s1 as [|a s1 IH]; simpl; [done|]. by rewrite IH. Qed.

Lemma string_app_inj_r (s1 s2 suffix : string) :
  s1 +:+ suffix = s2 +:+ suffix → s1 = s2.
Proof.
  revert s2. induction s1 as [|a s1 IH]; intros [|b s2] H; simpl in H.
  - done.
  - apply (f_equal String.length) in H. simpl in H.
    rewrite !string_length_app in H. simpl in H. lia.
  - apply (f_equal String.length) in H. simpl in H.
    rewrite !string_length_app in H. simpl in H. lia.
  - injection H as -> H. f_equal. by apply IH.
Qed.

Lemma page_filename_inj : Inj (=) (=) page_filename.
Proof.
  intros u v H. unfold page_filename in H.
  apply String.app_inj in H. by apply string_app_inj_r in H.
Qed.

Lemma child_inj (dir : path) : Inj (=) (=) (λ file : string, dir ++ [file]).
Proof. intros a b H. apply app_inv_head in H. by injection H. Qed.

Lemma new_files_length E dir k texts :
  length (new_files E dir k texts) = length texts.
Proof.
  unfold new_files. rewrite length_zip_with, length_fmap, length_seq. lia.
Qed.

Lemma new_files_paths E dir k texts :
  (new_files E dir k texts).*1
  = (λ file, dir ++ [file]) <$> (page_filename ∘ uuid4 E <$> seq k (length texts)).
Proof.
  unfold new_files. revert k. induction texts as [|s texts IH]; intros k; [done|].
  simpl. f_equal. apply IH.
Qed.

Lemma new_files_texts E dir k texts : (new_files E dir k texts).*2 = texts.
Proof.
  unfold new_files. revert k. induction texts as [|s texts IH]; intros k; [done|].
  simpl. f_equal. apply IH.
Qed.

Lemma lookup_write_all_out f files p :
  p ∉ files.*1 → write_all f files !! p = f !! p.
Proof.
  unfold write_all. revert f. induction files as [|[q s] files IH]; intros f; [done|].
  simpl. intros [Hne Hp]%not_elem_of_cons. rewrite IH by done.
  by rewrite lookup_insert_ne.
Qed.

Lemma lookup_write_all_in f files p s :
  NoDup files.*1 → (p, s) ∈ files → write_all f files !! p = Some (File s).
Proof.
  unfold write_all. revert f. induction files as [|[q t] files IH]; intros f.
  - by intros _ ?%elem_of_nil.
  - simpl. intros [Hq Hnd]%NoDup_cons [[= -> ->]|Hin]%elem_of_cons.
    + fold (write_all (<[q:=File t]> f) files).
      rewrite lookup_write_all_out by done. by rewrite lookup_insert_eq.
    + by apply IH.
Qed.

Lemma texts_length pages :
  Forall valid_or_empty pages →
  length (omap text_of pages) = length pages - length (List.filter lacks_content pages).
Proof.
  induction 1 as [|r pages [Hl|[s Hs]] _ IH]; [done| |]; simpl.
  - rewrite (lacks_content_no_text _ Hl), Hl. simpl.
    change (list_omap pyval string text_of pages) with (omap text_of pages). lia.
  - rewrite Hs. destruct (text_of_truthy _ _ Hs) as [_ Ht].
    unfold lacks_content at 1. rewrite Ht. simpl.
    change (list_omap pyval string text_of pages) with (omap text_of pages).
    rewrite IH.
    pose proof (List.filter_length_le lacks_content pages). lia.
Qed.

Lemma texts_all pages :
  Forall (λ r, is_Some (text_of r)) pages → length (omap text_of pages) = length pages.
Proof.
  induction 1 as [|r pages [s Hs] _ IH]; [done|]. simpl. rewrite Hs. simpl.
  by f_equal.
Qed.

Lemma texts_none pages :
  Forall (λ r, lacks_content r = true) pages →
  omap text_of pages = [] ∧ List.filter lacks_content pages = pages.
Proof.
  induction 1 as [|r pages Hl _ [IH1 IH2]]; [done|]. simpl.
  rewrite (lacks_content_no_text _ Hl), Hl. split; [done|]. by f_equal.
Qed.

Section persister_whole.
Context (E : env) (output_dir : path).

Lemma save_pages_frame pages i c σ o σ' :
  save_pages E output_dir pages i c σ = (o, σ') → within output_dir σ σ'.
Proof.
  revert i c σ. induction pages as [|r pages IH]; intros i c σ; simpl.
  - intros [= <- <-]. apply within_refl.
  - mstep. destruct (save_page E output_dir i r c σ) as [[c'|e] σ1] eqn:Hp.
    + intros H. eapply within_trans; [by eapply save_page_frame|by eapply IH].
    + intros [= <- <-]. by eapply save_page_frame.
Qed.

(** Whatever the input, a call only adds events that are not status
    requests; once [mkdir] has succeeded the directory and its parents
    stay. *)
Lemma save_crawl_results_frame crawl_data σ o σ' :
  save_crawl_results E crawl_data output_dir σ = (o, σ') →
  (∃ evs, trace σ' = trace σ ++ evs ∧ fetches evs = 0)
  ∧ ((mkdir_parents E output_dir σ).1 = Ok tt →
     is_dir (fs σ') output_dir = true
     ∧ ∀ q, q ∈ ancestors output_dir → fs σ' !! q = Some Dir).
Proof.
  unfold save_crawl_results. mstep.
  destruct (mkdir_parents E output_dir σ) as [[[]|e] σ1] eqn:Hmk.
  - assert (Hok : (mkdir_parents E output_dir σ).1 = Ok tt) by by rewrite Hmk.
    rewrite (mkdir_parents_ok _ _ _ Hok) in Hmk. injection Hmk as <-.
    cbn [fs uuids_drawn trace].
    set (σ2 := {| fs := make_dirs (fs σ) output_dir |}).
    assert (Hσ2 : within output_dir σ2 σ' →
              (∃ evs, trace σ' = trace σ ++ evs ∧ fetches evs = 0)
              ∧ ((Ok tt : outcome unit) = Ok tt →
                 is_dir (fs σ') output_dir = true
                 ∧ ∀ q, q ∈ ancestors output_dir → fs σ' !! q = Some Dir)).
    { intros Hw. split.
      - destruct Hw as [(evs & Ht & Hf) _].
        exists (Log INFO (SavingCrawlResults output_dir) :: evs).
        split; [|done]. rewrite Ht. simpl. by rewrite <- app_assoc.
      - intros _. split.
        + rewrite (within_is_dir _ _ _ Hw). apply is_dir_make_dirs.
        + intros q Hq. destruct Hw as [_ Hfs]. rewrite Hfs.
          * by apply lookup_make_dirs_in.
          * intros file ->. by apply child_not_ancestor in Hq. }
    destruct crawl_data as [| | |s|l|d]; unfold py_iter; mstep;
      try (intros [= <- <-]; apply Hσ2, within_refl).
    all: match goal with |- context [save_pages _ _ ?l _ _ ?σ0] =>
           destruct (save_pages E output_dir l 0 0 σ0) as [[c|e] σ3] eqn:Hsp
         end; intros [= <- <-]; apply save_pages_frame in Hsp.
    all: apply Hσ2; try done.
    all: eapply within_trans; [done|].
    all: split; [eexists; split; [reflexivity|reflexivity]|done].
  - intros [= <- <-]. apply mkdir_parents_raise in Hmk as ->. split.
    + exists []. by rewrite app_nil_r.
    + done.
Qed.
End persister_whole.

(** ** The persister as a whole *)

Section persister_claims.
Context (E : env) (output_dir : path).

(** A whole call on well-formed records and a willing disk. *)
Lemma save_crawl_results_good records σ :
  Forall page_record records → Forall valid_or_empty records →
  (mkdir_parents E output_dir σ).1 = Ok tt →
  disk_ok E (fs σ) output_dir →
  ∃ evs,
    save_crawl_results E (PList records) output_dir σ
    = (Ok (length (omap text_of records)),
       {| fs := write_all (make_dirs (fs σ) output_dir)
                  (new_files E output_dir (uuids_drawn σ)
                     (omap text_of records));
          uuids_drawn := uuids_drawn σ + length (omap text_of records);
          trace := trace σ ++ evs |})
    ∧ written evs
      = new_files E output_dir (uuids_drawn σ) (omap text_of records)
    ∧ length (logged WARNING evs)
      = length (List.filter lacks_content records)
    ∧ logged ERROR evs = []
    ∧ last evs
      = Some (Log INFO (SuccessfullySaved (length (omap text_of records))
                          (length records))).
Proof.
  intros Hrec Hve Hmk Hok.
  unfold save_crawl_results, py_iter. mstep.
  rewrite (mkdir_parents_ok _ _ _ Hmk). cbn [fs uuids_drawn trace].
  match goal with |- context [save_pages _ _ _ _ _ ?σ0] =>
    destruct (save_pages_good E output_dir records 0 0 σ0 Hrec Hve)
      as (evs & Hrun & Hw & Hwarn & Herr & _)
  end.
  { apply is_dir_make_dirs. }
  { by apply disk_ok_make_dirs. }
  cbn [fs uuids_drawn trace] in Hrun, Hw. rewrite Hrun. cbn [fs uuids_drawn trace].
  exists ([Log INFO (SavingCrawlResults output_dir)] ++ evs
          ++ [Log INFO (SuccessfullySaved (length (omap text_of records))
                          (length records))]).
  split; [|split; [|split; [|split]]].
  - by rewrite <- !app_assoc.
  - rewrite !written_app, Hw. simpl. by rewrite app_nil_r.
  - rewrite !logged_app, !length_app, Hwarn. simpl. lia.
  - rewrite !logged_app, Herr. done.
  - by rewrite app_assoc, last_snoc.
Qed.
End persister_claims.

(** C6. Of [N] page records, [K] without content and the others with a
    valid text, saved on a disk that accepts every write: the call
    returns [N - K] without raising, exactly [N - K] files are written
    (the texts, in order, each under a fresh UUID name), every skipped
    record costs one warning and is counted nowhere, no error is logged,
    and the closing summary reports [N - K] out of [N]. *)
Theorem persist_partial_failure_isolation (E : env) (output_dir : path)
    (records : list pyval) (σ : state) :
  Forall page_record records →
  Forall valid_or_empty records →
  (mkdir_parents E output_dir σ).1 = Ok tt →
  disk_ok E (fs σ) output_dir →
  ∃ σ' evs,
    save_crawl_results E (PList records) output_dir σ
    = (Ok (length records - length (List.filter lacks_content records)), σ')
    ∧ trace σ' = trace σ ++ evs
    ∧ length (written evs)
      = length records - length (List.filter lacks_content records)
    ∧ written evs
      = new_files E output_dir (uuids_drawn σ) (omap text_of records)
    ∧ fs σ' = write_all (make_dirs (fs σ) output_dir) (written evs)
    ∧ length (logged WARNING evs)
      = length (List.filter lacks_content records)
    ∧ logged ERROR evs = []
    ∧ last evs
      = Some (Log INFO
                (SuccessfullySaved
                   (length records
                    - length (List.filter lacks_content records))
                   (length records))).
Proof.
  intros Hrec Hve Hmk Hok.
  destruct (save_crawl_results_good E output_dir records σ Hrec Hve Hmk Hok)
    as (evs & Hrun & Hw & Hwarn & Herr & Hlast).
  rewrite (texts_length _ Hve) in Hrun, Hlast.
  eexists _, evs. split; [exact Hrun|]. cbn [fs trace].
  split; [done|]. split.
  { by rewrite Hw, new_files_length, texts_length. }
  split; [done|]. split; [by rewrite Hw|]. done.
Qed.

Lemma disk_ok_sample dir : disk_ok sample_env ∅ dir.
Proof.
  intros file. split; [done|].
  rewrite is_dir_child_nonempty. by rewrite lookup_empty.
Qed.

Lemma page_record_page html url : page_record (page html url).
Proof.
  eexists. split; [done|]. right. eexists.
  rewrite lookup_insert_ne by done. by rewrite lookup_singleton_eq.
Qed.

Lemma page_record_bare : page_record (PDict ∅).
Proof. eexists. split; [done|]. left. apply lookup_empty. Qed.

Lemma html_of_page html url : html_of (page html url) = html.
Proof. unfold html_of, page. by rewrite lookup_insert_eq. Qed.

(** Three records, one with a text, one with an empty text, one with no
    content at all: one file, count one. *)
Lemma persist_partial_failure_isolation_witness :
  (save_crawl_results sample_env (PList sample_records) ["crawled_html"]
     empty_state).1 = Ok 1.
Proof.
  destruct (persist_partial_failure_isolation sample_env ["crawled_html"]
              sample_records empty_state)
    as (σ' & evs & Hrun & _).
  - repeat constructor; first [apply page_record_page | apply page_record_bare].
  - constructor; [|constructor; [|constructor; [|constructor]]].
    + right. unfold text_of. rewrite html_of_page. by eexists.
    + left. unfold lacks_content. by rewrite html_of_page.
    + left. reflexivity.
  - reflexivity.
  - apply disk_ok_sample.
  - rewrite Hrun. reflexivity.
Defined.

Section persister_names.
Context (E : env) (output_dir : path).

(** With a text in every record the files are named after the next
    UUIDs, whatever else the records hold. *)
Lemma persist_names records σ :
  Forall page_record records →
  Forall (λ r, is_Some (text_of r)) records →
  (mkdir_parents E output_dir σ).1 = Ok tt →
  disk_ok E (fs σ) output_dir →
  ∃ σ' evs,
    save_crawl_results E (PList records) output_dir σ
    = (Ok (length records), σ')
    ∧ trace σ' = trace σ ++ evs
    ∧ written evs
      = new_files E output_dir (uuids_drawn σ) (omap text_of records)
    ∧ (written evs).*1
      = (λ file, output_dir ++ [file])
        <$> (page_filename ∘ uuid4 E
             <$> seq (uuids_drawn σ) (length records))
    ∧ fs σ' = write_all (make_dirs (fs σ) output_dir) (written evs).
Proof.
  intros Hrec Htext Hmk Hok.
  assert (Hve : Forall valid_or_empty records).
  { eapply Forall_impl; [exact Htext|]. intros r Hr. by right. }
  destruct (save_crawl_results_good E output_dir records σ Hrec Hve Hmk Hok)
    as (evs & Hrun & Hw & _).
  rewrite (texts_all _ Htext) in Hrun.
  eexists _, evs. split; [exact Hrun|]. cbn [fs trace].
  split; [done|]. split; [done|]. split; [|by rewrite Hw].
  by rewrite Hw, new_files_paths, (texts_all _ Htext).
Qed.
End persister_names.

(** Outside the record shape: a [metadata] that is present but not a
    mapping has no [get]; the lookup sits before the [try], so the
    exception leaves the call and the records after it are not
    processed. *)
Lemma null_metadata_aborts :
  (save_crawl_results sample_env (PList null_metadata_records)
     ["crawled_html"] empty_state).1 = Raise AttributeError
  ∧ written
      (trace (save_crawl_results sample_env (PList null_metadata_records)
                ["crawled_html"] empty_state).2) = [].
Proof. by vm_compute. Qed.

(** C8. [N] page records, each with a non-empty text, saved on a disk
    that accepts every write while the UUID generator does not repeat
    itself: the call writes exactly [N] files, their names are pairwise
    distinct, every file holds its record's text afterwards, and the
    names are [page_<uuid>.html] for the next [N] UUIDs: any other [N]
    records with texts, whatever their source URLs (duplicated, missing),
    get the very same names. *)
Theorem persist_unique_names (E : env) (output_dir : path)
    (records : list pyval) (σ : state) :
  Forall page_record records →
  Forall (λ r, is_Some (text_of r)) records →
  (mkdir_parents E output_dir σ).1 = Ok tt →
  disk_ok E (fs σ) output_dir →
  NoDup (uuid4 E <$> seq (uuids_drawn σ) (length records)) →
  ∃ σ' evs,
    save_crawl_results E (PList records) output_dir σ
    = (Ok (length records), σ')
    ∧ trace σ' = trace σ ++ evs
    ∧ length (written evs) = length records
    ∧ (written evs).*1
      = (λ file, output_dir ++ [file])
        <$> (page_filename ∘ uuid4 E
             <$> seq (uuids_drawn σ) (length records))
    ∧ NoDup (page_filename ∘ uuid4 E
             <$> seq (uuids_drawn σ) (length records))
    ∧ NoDup (written evs).*1
    ∧ (written evs).*2 = omap text_of records
    ∧ (∀ p s, (p, s) ∈ written evs → fs σ' !! p = Some (File s))
    ∧ (∀ records',
         length records' = length records →
         Forall page_record records' →
         Forall (λ r, is_Some (text_of r)) records' →
         ∃ σ'' evs',
           save_crawl_results E (PList records') output_dir σ
           = (Ok (length records), σ'')
           ∧ trace σ'' = trace σ ++ evs'
           ∧ (written evs').*1 = (written evs).*1).
Proof.
  intros Hrec Htext Hmk Hok Huuid.
  destruct (persist_names E output_dir records σ Hrec Htext Hmk Hok)
    as (σ' & evs & Hrun & Htr & Hw & Hpaths & Hfs).
  assert (Hnames : NoDup (page_filename ∘ uuid4 E
                          <$> seq (uuids_drawn σ) (length records))).
  { rewrite list_fmap_compose.
    apply (NoDup_fmap_2 (Inj0:=page_filename_inj) page_filename), Huuid. }
  assert (Hnd : NoDup (written evs).*1).
  { rewrite Hpaths.
    by apply (NoDup_fmap_2 (Inj0:=child_inj output_dir)
                (λ file : string, output_dir ++ [file])). }
  exists σ', evs. split; [done|]. split; [done|]. split.
  { by rewrite Hw, new_files_length, (texts_all _ Htext). }
  split; [done|]. split; [done|]. split; [done|]. split.
  { by rewrite Hw, new_files_texts. }
  split.
  { intros p s Hin. rewrite Hfs. by apply lookup_write_all_in. }
  intros records' Hlen Hrec' Htext'.
  destruct (persist_names E output_dir records' σ Hrec' Htext' Hmk Hok)
    as (σ'' & evs' & Hrun' & Htr' & _ & Hpaths' & _).
  exists σ'', evs'. rewrite Hlen in Hrun', Hpaths'.
  split; [done|]. split; [done|]. by rewrite Hpaths, Hpaths'.
Qed.

Lemma text_of_page s url : s ≠ "" → text_of (page (PStr s) url) = Some s.
Proof.
  intros Hs. unfold text_of. rewrite html_of_page.
  by apply String.eqb_neq in Hs as ->.
Qed.

(** Two records sharing one URL: two files, two names. *)
Lemma persist_unique_names_witness :
  ∃ σ' evs,
    save_crawl_results sample_env (PList duplicate_url_records)
      ["crawled_html"] empty_state
    = (Ok 2, σ')
    ∧ trace σ' = evs
    ∧ (written evs).*1 = [["crawled_html"; "page_0000-0.html"];
                          ["crawled_html"; "page_0000-1.html"]].
Proof.
  destruct (persist_unique_names sample_env ["crawled_html"]
              duplicate_url_records empty_state)
    as (σ' & evs & Hrun & Htr & _ & Hpaths & _).
  - constructor; [|constructor; [|constructor]]; apply page_record_page.
  - constructor; [|constructor; [|constructor]];
      rewrite text_of_page by done; by eexists.
  - reflexivity.
  - apply disk_ok_sample.
  - refine (bool_decide_unpack _ _). vm_compute. exact I.
  - exists σ', evs. split; [exact Hrun|]. split; [exact Htr|].
    rewrite Hpaths. reflexivity.
Defined.

Section persister_skips.
Context (E : env) (output_dir : path).

(** Records that are all skipped leave the count and the disk alone. *)
Lemma save_pages_skipped pages i c σ :
  Forall page_record pages →
  Forall (λ r, lacks_content r = true) pages →
  ∃ evs,
    save_pages E output_dir pages i c σ = (Ok c, add_events σ evs)
    ∧ written evs = []
    ∧ length (logged WARNING evs) = length pages.
Proof.
  intros Hrec Hl. revert i σ.
  induction pages as [|r pages IH]; intros i σ.
  - exists []. by rewrite add_events_nil.
  - apply Forall_cons in Hrec as [Hr Hrec].
    apply Forall_cons in Hl as [Hlr Hl].
    cbn [save_pages]. mstep. rewrite (save_page_skip _ _ _ _ _ _ Hr Hlr).
    destruct (IH Hrec Hl (S i)
                (add_events σ [Log WARNING
                                 (NoHtmlContent (i + 1) (source_url_of r i))]))
      as (evs & Hrun & Hw & Hn).
    fold (save_pages E output_dir). rewrite Hrun, add_events_app.
    eexists. split; [done|]. split; [done|]. simpl. by rewrite Hn.
Qed.
End persister_skips.

(** C10. The directory is created before any record is looked at: if
    [mkdir] raises, the call raises the same exception having done and
    logged nothing; if [mkdir] succeeds the directory and all its
    parents exist after the call for every input whatsoever, and for the
    empty sequence and for sequences whose records are all skipped for
    lack of content the call returns 0 and writes no file. *)
Theorem persist_creates_directory_first (E : env) (output_dir : path)
    (σ : state) :
  (∀ crawl_data e σ1,
     mkdir_parents E output_dir σ = (Raise e, σ1) →
     save_crawl_results E crawl_data output_dir σ = (Raise e, σ))
  ∧ ((mkdir_parents E output_dir σ).1 = Ok tt →
     (∀ crawl_data,
        is_dir (fs (save_crawl_results E crawl_data output_dir σ).2)
          output_dir = true
        ∧ ∀ q, q ∈ ancestors output_dir →
               fs (save_crawl_results E crawl_data output_dir σ).2 !! q
               = Some Dir)
     ∧ save_crawl_results E (PList []) output_dir σ
       = (Ok 0,
          {| fs := make_dirs (fs σ) output_dir;
             uuids_drawn := uuids_drawn σ;
             trace := trace σ ++ [Log INFO (SavingCrawlResults output_dir);
                                  Log INFO (SuccessfullySaved 0 0)] |})
     ∧ (∀ records,
          Forall page_record records →
          Forall (λ r, lacks_content r = true) records →
          ∃ evs,
            save_crawl_results E (PList records) output_dir σ
            = (Ok 0,
               {| fs := make_dirs (fs σ) output_dir;
                  uuids_drawn := uuids_drawn σ;
                  trace := trace σ ++ evs |})
            ∧ written evs = []
            ∧ length (logged WARNING evs) = length records)).
Proof.
  split.
  - intros crawl_data e σ1 Hmk. unfold save_crawl_results. mstep.
    rewrite Hmk. by apply mkdir_parents_raise in Hmk as ->.
  - intros Hmk. split; [|split].
    + intros crawl_data.
      destruct (save_crawl_results E crawl_data output_dir σ) as [o σ'] eqn:Hrun.
      apply save_crawl_results_frame in Hrun as [_ Hdir]. by apply Hdir.
    + unfold save_crawl_results, py_iter. mstep.
      rewrite (mkdir_parents_ok _ _ _ Hmk). cbn [fs uuids_drawn trace save_pages].
      mstep. simpl. by rewrite <- app_assoc.
    + intros records Hrec Hl.
      unfold save_crawl_results, py_iter. mstep.
      rewrite (mkdir_parents_ok _ _ _ Hmk). cbn [fs uuids_drawn trace].
      match goal with |- context [save_pages _ _ _ _ _ ?σ0] =>
        destruct (save_pages_skipped E output_dir records 0 0 σ0 Hrec Hl)
          as (evs & Hrun & Hw & Hn)
      end.
      rewrite Hrun. unfold add_events. cbn [fs uuids_drawn trace].
      exists ([Log INFO (SavingCrawlResults output_dir)] ++ evs
              ++ [Log INFO (SuccessfullySaved 0 (length records))]).
      split; [by rewrite <- !app_assoc|]. split.
      * rewrite !written_app, Hw. done.
      * rewrite !logged_app, !length_app, Hn. simpl. lia.
Qed.

(** A fresh disk, and two records without content. *)
Lemma persist_creates_directory_first_witness :
  is_dir (fs (save_crawl_results sample_env (PList empty_records)
                ["out"; "crawled_html"] empty_state).2)
    ["out"; "crawled_html"] = true
  ∧ (save_crawl_results sample_env (PList empty_records)
       ["out"; "crawled_html"] empty_state).1 = Ok 0.
Proof.
  destruct (persist_creates_directory_first sample_env
              ["out"; "crawled_html"] empty_state) as [_ H].
  destruct H as (Hdir & _ & Hskip); [reflexivity|].
  split; [apply Hdir|].
  destruct (Hskip empty_records) as (evs & Hrun & _).
  - constructor; [|constructor; [|constructor]];
      first [apply page_record_page | apply page_record_bare].
  - constructor; [|constructor; [|constructor]].
    + unfold lacks_content. by rewrite html_of_page.
    + reflexivity.
  - by rewrite Hrun.
Defined.

(** ** The monitor loop *)

Section monitor.
Context (E : env) (job_id : pyval) (output_dir : path).

Lemma has_status_nonempty d s : has_status d s → d ≠ ∅.
Proof. unfold has_status. intros H ->. by rewrite lookup_empty in H. Qed.

Lemma has_status_status_of d s : has_status d s → status_of d = PStr s.
Proof. unfold has_status, status_of. by intros ->. Qed.

(** An iteration on a non-empty snapshot that is neither [completed]
    nor [failed] sleeps and goes round again. *)
Lemma poll_once_waiting (d : gmap string pyval) σ :
  d ≠ ∅ →
  py_eq_str (status_of d) "completed" = false →
  py_eq_str (status_of d) "failed" = false →
  poll_once E job_id output_dir (Returns (PDict d)) σ
  = (Ok Continue, add_events σ (waiting_events job_id d)).
Proof.
  intros Hne Hc Hf.
  unfold poll_once, check_crawl_status. mstep.
  unfold truthy. rewrite bool_decide_eq_false_2 by done. mstep.
  fold (status_of d). rewrite Hc, Hf.
  unfold waiting_events, fetched_events, add_events.
  destruct (py_eq_str (status_of d) "scraping"); mstep; simpl;
    by rewrite <- !app_assoc.
Qed.

Lemma non_terminal_waiting d σ :
  non_terminal d →
  poll_once E job_id output_dir (Returns (PDict d)) σ
  = (Ok Continue, add_events σ (waiting_events job_id d)).
Proof.
  intros (s & Hs & Hc & Hf). apply poll_once_waiting.
  - by eapply has_status_nonempty.
  - rewrite (has_status_status_of _ _ Hs). simpl. by apply String.eqb_neq.
  - rewrite (has_status_status_of _ _ Hs). simpl. by apply String.eqb_neq.
Qed.

Lemma fetches_waiting_events d : fetches (waiting_events job_id d) = 1.
Proof.
  unfold waiting_events, fetched_events.
  by destruct (py_eq_str (status_of d) "scraping").
Qed.

(** The loop passes over any run of non-terminal snapshots, one
    iteration and one fetch each. *)
Lemma monitor_waiting (pre : list (gmap string pyval)) rs done σ :
  Forall non_terminal pre →
  monitor E job_id output_dir ((Returns ∘ PDict <$> pre) ++ rs) done σ
  = monitor E job_id output_dir rs (done + length pre)
      (add_events σ (concat (waiting_events job_id <$> pre))).
Proof.
  intros Hpre. revert done σ.
  induction Hpre as [|d pre Hd _ IH]; intros done σ.
  - simpl. by rewrite add_events_nil, Nat.add_0_r.
  - simpl. rewrite (non_terminal_waiting _ _ Hd), IH, add_events_app.
    f_equal. lia.
Qed.

Lemma fetches_waiting_run (pre : list (gmap string pyval)) :
  fetches (concat (waiting_events job_id <$> pre)) = length pre.
Proof.
  induction pre as [|d pre IH]; [done|].
  rewrite fmap_cons. cbn [concat length].
  by rewrite fetches_app, fetches_waiting_events, IH.
Qed.

(** The iteration on a [failed] snapshot. *)
Lemma poll_once_failed (d : gmap string pyval) σ :
  has_status d "failed" →
  poll_once E job_id output_dir (Returns (PDict d)) σ
  = (Ok (Break JobFailed),
     add_events σ (fetched_events job_id d
                   ++ [Log ERROR (CrawlJobFailed job_id (PDict d))])).
Proof.
  intros Hs.
  unfold poll_once, check_crawl_status. mstep.
  unfold truthy.
  rewrite bool_decide_eq_false_2 by by eapply has_status_nonempty.
  mstep. unfold fetched_events, add_events.
  fold (status_of d). rewrite (has_status_status_of _ _ Hs). simpl.
  mstep. by rewrite <- !app_assoc.
Qed.

End monitor.

Section monitor_exits.
Context (E : env) (job_id : pyval) (output_dir : path).

(** The iteration on a [completed] snapshot: it stops the loop, or the
    persister's exception leaves it; no further status request. *)
Lemma poll_once_completed (d : gmap string pyval) σ :
  has_status d "completed" →
  ∃ o σ' tail,
    poll_once E job_id output_dir (Returns (PDict d)) σ = (o, σ')
    ∧ trace σ' = trace σ ++ fetched_events job_id d ++ tail
    ∧ fetches tail = 0
    ∧ (o = Ok (Break JobCompleted) ∨ ∃ e, o = Raise e).
Proof.
  intros Hs.
  unfold poll_once, check_crawl_status. mstep.
  unfold truthy at 1.
  rewrite bool_decide_eq_false_2 by by eapply has_status_nonempty.
  mstep. fold (status_of d). rewrite (has_status_status_of _ _ Hs).
  cbn [py_eq_str String.eqb Ascii.eqb Bool.eqb negb]. cbn iota.
  match goal with |- context [truthy ?v] => destruct (truthy v) end.
  - match goal with |- context [save_crawl_results E ?cd ?dir ?σ0] =>
      destruct (save_crawl_results E cd dir σ0) as [[n|e] σ'] eqn:Hrun
    end;
    apply save_crawl_results_frame in Hrun as [(evs & Ht & Hf) _];
    cbn [trace] in Ht;
    eexists _, _, (Log INFO (CrawlJobCompleted job_id) :: evs);
    (split; [reflexivity|]); (split; [|split; [done|eauto]]);
    rewrite Ht; unfold fetched_events;
    rewrite (has_status_status_of _ _ Hs); by rewrite <- !app_assoc.
  - eexists _, _, [Log INFO (CrawlJobCompleted job_id);
                   Log WARNING (CompletedButNoData job_id)].
    split; [reflexivity|]. split; [|split; [done|eauto]].
    cbn [trace]. unfold fetched_events.
    rewrite (has_status_status_of _ _ Hs). by rewrite <- !app_assoc.
Qed.

(** The iteration on a status request that raised. *)
Lemma poll_once_fetch_failed (e : exn) σ :
  poll_once E job_id output_dir (Throws e) σ
  = (Ok (Break FetchFailed), add_events σ (fetch_failure_events job_id e)).
Proof.
  unfold poll_once, check_crawl_status. mstep. simpl.
  unfold add_events, fetch_failure_events. by rewrite <- !app_assoc.
Qed.

(** The iteration on an empty snapshot. *)
Lemma poll_once_empty σ :
  poll_once E job_id output_dir (Returns (PDict ∅)) σ
  = (Ok (Break FetchFailed),
     add_events σ [Log DEBUG (CheckingStatus job_id);
                   CheckCrawlStatusCall job_id;
                   Log DEBUG (StatusForJob job_id PNone);
                   Log ERROR (FailedToGetStatus job_id)]).
Proof.
  unfold poll_once, check_crawl_status. mstep.
  rewrite lookup_empty. unfold truthy.
  rewrite bool_decide_eq_true_2 by done. simpl.
  unfold add_events. by rewrite <- !app_assoc.
Qed.
End monitor_exits.

(** C1. Over a script of [n] non-terminal snapshots followed by a
    [completed] or [failed] one, the loop runs exactly [n + 1]
    iterations, sends exactly one status request in each, reads no
    answer beyond the terminal snapshot, and ends on it: by the
    [failed] break, or by the [completed] break (or the exception of the
    persister it called). *)
Theorem terminal_convergence (E : env) (job_id : pyval) (output_dir : path)
    (pre : list (gmap string pyval)) (last : gmap string pyval)
    (rest : list response) (σ : state) :
  Forall non_terminal pre →
  terminal last →
  ∃ res σ' tail,
    monitor E job_id output_dir
      ((Returns ∘ PDict <$> pre) ++ Returns (PDict last) :: rest) 0 σ
    = (res, σ')
    ∧ iterations res = length pre + 1
    ∧ unread res = rest
    ∧ exit res ≠ AwaitingStatus
    ∧ trace σ' = trace σ ++ concat (waiting_events job_id <$> pre)
                 ++ fetched_events job_id last ++ tail
    ∧ fetches tail = 0
    ∧ fetches (trace σ') = fetches (trace σ) + (length pre + 1)
    ∧ (has_status last "failed" → exit res = Stopped JobFailed)
    ∧ (has_status last "completed" →
       exit res = Stopped JobCompleted ∨ ∃ e, exit res = Raised e).
Proof.
  intros Hpre Hlast.
  rewrite (monitor_waiting E job_id output_dir pre _ 0 σ Hpre).
  cbn [monitor]. rewrite Nat.add_0_l.
  assert (Hcount : ∀ tail, fetches tail = 0 →
            fetches (trace σ ++ concat (waiting_events job_id <$> pre)
                     ++ fetched_events job_id last ++ tail)
            = fetches (trace σ) + (length pre + 1)).
  { intros tail Htail.
    rewrite !fetches_app, fetches_waiting_run, Htail. simpl. lia. }
  destruct Hlast as [Hc | Hf].
  - destruct (poll_once_completed E job_id output_dir last
                (add_events σ (concat (waiting_events job_id <$> pre))) Hc)
      as (o & σ' & tail & Hrun & Ht & Hfetch & Ho).
    rewrite Hrun. cbn [trace add_events] in Ht.
    rewrite <- app_assoc in Ht.
    destruct Ho as [-> | [e ->]].
    + eexists _, σ', tail. split; [reflexivity|]. cbn [iterations unread exit].
      split; [lia|]. split; [done|]. split; [done|]. split; [done|].
      split; [done|]. split; [rewrite Ht; by apply Hcount|].
      split; [|by left].
      intros Hf. unfold has_status in *. congruence.
    + eexists _, σ', tail. split; [reflexivity|]. cbn [iterations unread exit].
      split; [lia|]. split; [done|]. split; [done|]. split; [done|].
      split; [done|]. split; [rewrite Ht; by apply Hcount|].
      split; [|right; by eexists].
      intros Hf. unfold has_status in *. congruence.
  - rewrite (poll_once_failed E job_id output_dir last _ Hf).
    eexists _, _, [Log ERROR (CrawlJobFailed job_id (PDict last))].
    split; [reflexivity|]. cbn [iterations unread exit].
    split; [lia|]. split; [done|]. split; [done|].
    assert (Ht : trace (add_events
                          (add_events σ (concat (waiting_events job_id <$> pre)))
                          (fetched_events job_id last
                           ++ [Log ERROR (CrawlJobFailed job_id (PDict last))]))
                 = trace σ ++ concat (waiting_events job_id <$> pre)
                   ++ fetched_events job_id last
                   ++ [Log ERROR (CrawlJobFailed job_id (PDict last))]).
    { cbn [trace add_events]. by rewrite <- app_assoc. }
    split; [exact Ht|]. split; [done|]. split; [rewrite Ht; by apply Hcount|].
    split; [done|].
    intros Hc. unfold has_status in *. congruence.
Qed.

Lemma non_terminal_snapshot s :
  s ≠ "completed" → s ≠ "failed" → non_terminal (snapshot s).
Proof.
  intros Hc Hf. exists s. split; [|done].
  unfold has_status, snapshot. apply lookup_singleton_eq.
Qed.

(** [scraping], [pending], an unknown status, then [failed]: four
    iterations. *)
Lemma terminal_convergence_witness :
  iterations
    (monitor sample_env sample_job ["crawled_html"]
       [Returns (PDict (snapshot "scraping"));
        Returns (PDict (snapshot "pending"));
        Returns (PDict (snapshot "paused"));
        Returns (PDict (snapshot "failed"));
        Throws ClientError] 0 empty_state).1 = 4.
Proof.
  destruct (terminal_convergence sample_env sample_job ["crawled_html"]
              [snapshot "scraping"; snapshot "pending"; snapshot "paused"]
              (snapshot "failed") [Throws ClientError] empty_state)
    as (res & σ' & tail & Hrun & Hit & _).
  - constructor; [|constructor; [|constructor; [|constructor]]];
      by apply non_terminal_snapshot.
  - right. apply lookup_singleton_eq.
  - cbn [fmap list_fmap app compose] in Hrun. rewrite Hrun. exact Hit.
Defined.

(** C5. When the status request raises, the Job Client returns [None]
    and the loop stops in that very iteration: no further answer is
    read, nothing is persisted (the disk is untouched, no file written),
    and the run is reported by the [FailedToGetStatus] error.  A remote
    [failed] status stops the loop by another [break] and is reported by
    the [CrawlJobFailed] error instead: neither report appears in the
    other run. *)
Theorem fetch_failure_halts (E : env) (job_id : pyval) (output_dir : path)
    (e : exn) (rest : list response) (done : nat) (σ : state) :
  check_crawl_status job_id (Throws e) σ
  = (Ok PNone,
     add_events σ [Log DEBUG (CheckingStatus job_id);
                   CheckCrawlStatusCall job_id;
                   Log ERROR (ErrorCheckingStatus job_id e)])
  ∧ monitor E job_id output_dir (Throws e :: rest) done σ
    = ({| iterations := S done; exit := Stopped FetchFailed; unread := rest |},
       add_events σ (fetch_failure_events job_id e))
  ∧ fs (add_events σ (fetch_failure_events job_id e)) = fs σ
  ∧ written (fetch_failure_events job_id e) = []
  ∧ last (fetch_failure_events job_id e)
    = Some (Log ERROR (FailedToGetStatus job_id))
  ∧ (∀ d,
       has_status d "failed" →
       monitor E job_id output_dir (Returns (PDict d) :: rest) done σ
       = ({| iterations := S done; exit := Stopped JobFailed; unread := rest |},
          add_events σ (fetched_events job_id d
                        ++ [Log ERROR (CrawlJobFailed job_id (PDict d))]))
       ∧ (Log ERROR (FailedToGetStatus job_id)
          ∉ fetched_events job_id d
            ++ [Log ERROR (CrawlJobFailed job_id (PDict d))])
       ∧ (Log ERROR (CrawlJobFailed job_id (PDict d))
          ∉ fetch_failure_events job_id e)).
Proof.
  split; [|split; [|split; [|split; [|split]]]].
  - unfold check_crawl_status. mstep. simpl.
    unfold add_events. by rewrite <- !app_assoc.
  - cbn [monitor]. by rewrite poll_once_fetch_failed.
  - done.
  - done.
  - done.
  - intros d Hd. split; [|split].
    + cbn [monitor]. by rewrite (poll_once_failed _ _ _ _ _ Hd).
    + unfold fetched_events. not_in_events.
    + unfold fetch_failure_events. not_in_events.
Qed.

Lemma has_status_snapshot s : has_status (snapshot s) s.
Proof. apply lookup_singleton_eq. Qed.

(** A request that raises, and next to it a job that failed remotely. *)
Lemma fetch_failure_halts_witness :
  exit (monitor sample_env sample_job ["crawled_html"]
          [Throws ClientError] 0 empty_state).1 = Stopped FetchFailed
  ∧ exit (monitor sample_env sample_job ["crawled_html"]
            [Returns (PDict (snapshot "failed"))] 0 empty_state).1
    = Stopped JobFailed.
Proof.
  destruct (fetch_failure_halts sample_env sample_job ["crawled_html"]
              ClientError [] 0 empty_state)
    as (_ & Hfetch & _ & _ & _ & Hfailed).
  destruct (Hfailed (snapshot "failed") (has_status_snapshot "failed"))
    as (Hrun & _).
  split.
  - exact (f_equal (λ r, exit r.1) Hfetch).
  - exact (f_equal (λ r, exit r.1) Hrun).
Defined.

(** C9. A fetched but empty snapshot is falsy: although the Job Client
    returned it without error (it logged no [ErrorCheckingStatus]), the
    loop takes the fetch-failure branch, logs [FailedToGetStatus] and
    stops in that iteration, exactly as it does when the request
    raised. *)
Theorem empty_snapshot_halts_as_fetch_failure (E : env) (job_id : pyval)
    (output_dir : path) (rest : list response) (done : nat) (σ : state) :
  check_crawl_status job_id (Returns (PDict ∅)) σ
  = (Ok (PDict ∅),
     add_events σ [Log DEBUG (CheckingStatus job_id);
                   CheckCrawlStatusCall job_id;
                   Log DEBUG (StatusForJob job_id PNone)])
  ∧ monitor E job_id output_dir (Returns (PDict ∅) :: rest) done σ
    = ({| iterations := S done; exit := Stopped FetchFailed; unread := rest |},
       add_events σ [Log DEBUG (CheckingStatus job_id);
                     CheckCrawlStatusCall job_id;
                     Log DEBUG (StatusForJob job_id PNone);
                     Log ERROR (FailedToGetStatus job_id)])
  ∧ (∀ e,
       (monitor E job_id output_dir (Throws e :: rest) done σ).1
       = (monitor E job_id output_dir (Returns (PDict ∅) :: rest) done σ).1).
Proof.
  split; [|split].
  - unfold check_crawl_status. mstep. rewrite lookup_empty. simpl.
    unfold add_events. by rewrite <- !app_assoc.
  - cbn [monitor]. by rewrite poll_once_empty.
  - intros e. cbn [monitor].
    by rewrite poll_once_empty, poll_once_fetch_failed.
Qed.

(** C3, as the code has it.  [pending] is not among the statuses the
    loop knows: the iteration sleeps the same 10 seconds and polls
    again, but through the branch for unknown statuses, warning
    included. *)
Theorem pending_polls_again_with_warning (E : env) (job_id : pyval)
    (output_dir : path) (d : gmap string pyval) (rest : list response)
    (done : nat) (σ : state) :
  has_status d "pending" →
  poll_once E job_id output_dir (Returns (PDict d)) σ
  = (Ok Continue,
     add_events σ
       (fetched_events job_id d
        ++ [Log WARNING (UnknownStatus (PStr "pending") job_id (PDict d));
            Sleep 10]))
  ∧ monitor E job_id output_dir (Returns (PDict d) :: rest) done σ
    = monitor E job_id output_dir rest (S done)
        (add_events σ
           (fetched_events job_id d
            ++ [Log WARNING (UnknownStatus (PStr "pending") job_id (PDict d));
                Sleep 10])).
Proof.
  intros Hs.
  assert (Hrun : poll_once E job_id output_dir (Returns (PDict d)) σ
                 = (Ok Continue,
                    add_events σ
                      (fetched_events job_id d
                       ++ [Log WARNING
                             (UnknownStatus (PStr "pending") job_id (PDict d));
                           Sleep 10]))).
  { rewrite non_terminal_waiting.
    - unfold waiting_events. by rewrite (has_status_status_of _ _ Hs).
    - by exists "pending". }
  split; [done|]. cbn [monitor]. by rewrite Hrun.
Qed.

Lemma pending_polls_again_with_warning_witness :
  (poll_once sample_env sample_job ["crawled_html"]
     (Returns (PDict (snapshot "pending"))) empty_state).1 = Ok Continue.
Proof.
  destruct (pending_polls_again_with_warning sample_env sample_job
              ["crawled_html"] (snapshot "pending") [] 0 empty_state
              (has_status_snapshot "pending")) as [Hrun _].
  by rewrite Hrun.
Defined.

(** C3, as the claim has it, fails: on [pending] the warning for
    unknown statuses is logged, which it is not on [scraping]. *)
Lemma pending_is_warned_as_unknown :
  logged WARNING
    (trace (poll_once sample_env sample_job ["crawled_html"]
              (Returns (PDict (snapshot "pending"))) empty_state).2)
  = [UnknownStatus (PStr "pending") sample_job (PDict (snapshot "pending"))]
  ∧ logged WARNING
      (trace (poll_once sample_env sample_job ["crawled_html"]
                (Returns (PDict (snapshot "scraping"))) empty_state).2)
    = [].
Proof.
  rewrite !non_terminal_waiting by by apply non_terminal_snapshot.
  split; reflexivity.
Qed.

(** C7. A status string the loop does not know (anything but
    [completed], [failed] and [scraping]) never ends the loop: the
    iteration logs a warning, sleeps 10 seconds, the interval slept on
    [scraping] as well, and the loop goes on with the next answer. *)
Theorem unknown_status_keeps_polling (E : env) (job_id : pyval)
    (output_dir : path) (d : gmap string pyval) (s : string)
    (rest : list response) (done : nat) (σ : state) :
  has_status d s →
  s ≠ "completed" → s ≠ "failed" → s ≠ "scraping" →
  poll_once E job_id output_dir (Returns (PDict d)) σ
  = (Ok Continue,
     add_events σ
       (fetched_events job_id d
        ++ [Log WARNING (UnknownStatus (PStr s) job_id (PDict d));
            Sleep 10]))
  ∧ monitor E job_id output_dir (Returns (PDict d) :: rest) done σ
    = monitor E job_id output_dir rest (S done)
        (add_events σ
           (fetched_events job_id d
            ++ [Log WARNING (UnknownStatus (PStr s) job_id (PDict d));
                Sleep 10]))
  ∧ sleeps (fetched_events job_id d
            ++ [Log WARNING (UnknownStatus (PStr s) job_id (PDict d));
                Sleep 10]) = [10%Z]
  ∧ (∀ d',
       has_status d' "scraping" →
       poll_once E job_id output_dir (Returns (PDict d')) σ
       = (Ok Continue, add_events σ (fetched_events job_id d' ++ [Sleep 10]))
       ∧ sleeps (fetched_events job_id d' ++ [Sleep 10]) = [10%Z]).
Proof.
  intros Hs Hc Hf Hsc.
  assert (Hrun : poll_once E job_id output_dir (Returns (PDict d)) σ
                 = (Ok Continue,
                    add_events σ
                      (fetched_events job_id d
                       ++ [Log WARNING (UnknownStatus (PStr s) job_id (PDict d));
                           Sleep 10]))).
  { rewrite non_terminal_waiting by by exists s.
    unfold waiting_events. rewrite (has_status_status_of _ _ Hs).
    cbn [py_eq_str]. by apply String.eqb_neq in Hsc as ->. }
  split; [done|]. split; [cbn [monitor]; by rewrite Hrun|].
  split; [done|].
  intros d' Hd'. split; [|done].
  rewrite non_terminal_waiting by by exists "scraping".
  unfold waiting_events. by rewrite (has_status_status_of _ _ Hd').
Qed.

Lemma unknown_status_keeps_polling_witness :
  (poll_once sample_env sample_job ["crawled_html"]
     (Returns (PDict (snapshot "paused"))) empty_state).1 = Ok Continue.
Proof.
  destruct (unknown_status_keeps_polling sample_env sample_job
              ["crawled_html"] (snapshot "paused") "paused" [] 0 empty_state
              (has_status_snapshot "paused")) as [Hrun _]; [done..|].
  by rewrite Hrun.
Defined.

(** ** The uploader *)

Lemma uploads_app t1 t2 : uploads (t1 ++ t2) = uploads t1 ++ uploads t2.
Proof. apply List.filter_app. Qed.

Lemma str_falsy_nonempty s : s ≠ "" → str_falsy s = false.
Proof. intros Hs. unfold str_falsy, truthy. by apply String.eqb_neq in Hs as ->. Qed.

Lemma str_falsy_empty : str_falsy "" = true.
Proof. done. Qed.

(** The endpoint URL is never empty, whatever the account id. *)
Lemma endpoint_url_truthy account :
  str_falsy ("https://" +:+ account +:+ ".r2.cloudflarestorage.com") = false.
Proof. done. Qed.

(** The listing holds every matching entry once. *)
Lemma glob_html_NoDup f dir : NoDup (glob_html f dir).
Proof. unfold glob_html. apply NoDup_filter, NoDup_fst_map_to_list. Qed.

Section uploader.
Context (E : env) (settings : Settings).

(** One iteration: one attempt, and one of the two counters moves. *)
Lemma upload_one_run p s f σ :
  ∃ evs,
    upload_one E settings p s f σ
    = (Ok (if upload_fails E p then (s, f + 1) else (s + 1, f)),
       add_events σ evs)
    ∧ uploads evs = [upload_of settings p].
Proof.
  unfold upload_one, upload_file, upload_fails. mstep.
  destruct (upload_fault E p) as [e|]; [destruct e|];
    (eexists; split;
     [unfold add_events; cbn [fs uuids_drawn trace];
      rewrite <- !app_assoc; reflexivity
     |reflexivity]).
Qed.

(** The upload loop: one attempt per file, in order; every file ends
    in exactly one of the two counters. *)
Lemma upload_each_run files s f σ :
  ∃ evs,
    upload_each E settings files s f σ
    = (Ok (s + (length files - length (List.filter (upload_fails E) files)),
           f + length (List.filter (upload_fails E) files)),
       add_events σ evs)
    ∧ uploads evs = upload_of settings <$> files.
Proof.
  revert s f σ. induction files as [|p files IH]; intros s f σ.
  - exists []. rewrite add_events_nil. simpl. by rewrite !Nat.add_0_r.
  - pose proof (List.filter_length_le (upload_fails E) files) as Hle.
    cbn [upload_each List.filter]. mstep.
    destruct (upload_one_run p s f σ) as (ev1 & -> & Hu1).
    destruct (upload_fails E p); cbn [fst snd];
      match goal with |- context [upload_each _ _ _ ?s1 ?f1 ?σ1] =>
        destruct (IH s1 f1 σ1) as (evs & -> & Hu)
      end;
      exists (ev1 ++ evs); rewrite add_events_app, uploads_app, Hu1, Hu;
      (split; [|done]); apply (f_equal (λ c, (Ok c, _)));
      cbn [length]; apply pair_equal_spec; split; lia.
Qed.
End uploader.

Section uploader_claims.
Context (E : env) (settings : Settings).

(** A run that reaches the listing, whatever it finds. *)
Lemma upload_files_to_r2_ready σ :
  ready E settings σ →
  upload_files_to_r2 E settings σ
  = match glob_html (fs σ) (CRAWL_OUTPUT_DIR E) with
    | [] =>
        (Ok tt,
         add_events σ
           (upload_preamble E settings ++ [Log WARNING (NoHtmlFilesFound (CRAWL_OUTPUT_DIR E))]))
    | files =>
        match upload_each E settings files 0 0
                (add_events σ
                   (upload_preamble E settings ++ [Log INFO (FoundHtmlFiles (length files))]))
        with
        | (Ok counts, σ') =>
            (Ok tt, add_events σ' (upload_summary counts.1 counts.2))
        | (Raise e, σ') => (Raise e, σ')
        end
    end.
Proof.
  intros (Hb & Ha & Hs & Hst & Hdir & Hc & Hg).
  unfold upload_files_to_r2, path_is_dir. rewrite endpoint_url_truthy.
  rewrite !str_falsy_nonempty by done. cbn [orb]. mstep.
  rewrite Hst. mstep. rewrite Hdir. cbn [negb]. mstep.
  rewrite Hc. mstep. rewrite Hg. mstep.
  destruct (glob_html (fs σ) (CRAWL_OUTPUT_DIR E)) as [|p files] eqn:Hfiles.
  - mstep. unfold add_events, upload_preamble. cbn [fs uuids_drawn trace].
    by rewrite <- !app_assoc.
  - mstep. unfold add_events, upload_preamble.
    cbn [fs uuids_drawn trace]. rewrite <- !app_assoc. cbn [app].
    match goal with |- context [upload_each _ _ _ _ _ ?σ1] =>
      destruct (upload_each E settings (p :: files) 0 0 σ1) as [[c|e] σ']
    end; [|done].
    unfold upload_summary. by rewrite <- !app_assoc.
Qed.

(** Any of the three checked settings empty: a configuration error and
    nothing else. *)
Lemma upload_files_to_r2_missing_setting σ :
  r2_bucket_name settings = ""
  ∨ r2_access_key_id settings = ""
  ∨ r2_secret_access_key settings = "" →
  upload_files_to_r2 E settings σ
  = (Ok tt, add_events σ [Log ERROR MissingR2Configuration]).
Proof.
  intros H. unfold upload_files_to_r2. rewrite endpoint_url_truthy.
  assert (Hor : str_falsy (r2_bucket_name settings)
                || str_falsy (r2_access_key_id settings)
                || str_falsy (r2_secret_access_key settings) = true).
  { destruct H as [-> | [-> | ->]]; cbn [str_falsy truthy String.eqb negb];
      by rewrite ?orb_true_r. }
  cbn [orb]. by rewrite Hor.
Qed.

(** The settings present but no directory: a not-found error and
    nothing else. *)
Lemma upload_files_to_r2_missing_directory σ :
  r2_bucket_name settings ≠ "" →
  r2_access_key_id settings ≠ "" →
  r2_secret_access_key settings ≠ "" →
  stat_fault E (CRAWL_OUTPUT_DIR E) = None →
  is_dir (fs σ) (CRAWL_OUTPUT_DIR E) = false →
  upload_files_to_r2 E settings σ
  = (Ok tt, add_events σ [Log ERROR (DirectoryNotFound (CRAWL_OUTPUT_DIR E))]).
Proof.
  intros Hb Ha Hs Hst Hdir. unfold upload_files_to_r2, path_is_dir.
  rewrite endpoint_url_truthy, !str_falsy_nonempty by done.
  cbn [orb]. mstep. rewrite Hst. mstep. by rewrite Hdir.
Qed.

(** The settings present but the directory cannot be examined: the
    exception leaves the function, and nothing has been logged. *)
Lemma upload_files_to_r2_stat_fault σ e :
  r2_bucket_name settings ≠ "" →
  r2_access_key_id settings ≠ "" →
  r2_secret_access_key settings ≠ "" →
  stat_fault E (CRAWL_OUTPUT_DIR E) = Some e →
  upload_files_to_r2 E settings σ = (Raise e, σ).
Proof.
  intros Hb Ha Hs Hst. unfold upload_files_to_r2, path_is_dir.
  rewrite endpoint_url_truthy, !str_falsy_nonempty by done.
  cbn [orb]. mstep. by rewrite Hst.
Qed.
End uploader_claims.

(** C4, as the code has it.  In a run that reaches the listing, with
    [N >= 1] matching files of which [K] fail to upload: every file is
    attempted exactly once, in listing order, under its own name as key,
    and the log closes with the summary [N - K] successes, [K] failures.
    With no matching file the run stops on a warning: no attempt, and no
    summary either. *)
Theorem upload_partial_failure_isolation (E : env) (settings : Settings)
    (σ : state) :
  ready E settings σ →
  NoDup (glob_html (fs σ) (CRAWL_OUTPUT_DIR E))
  ∧ (glob_html (fs σ) (CRAWL_OUTPUT_DIR E) ≠ [] →
     ∃ evs,
       upload_files_to_r2 E settings σ
       = (Ok tt,
          add_events σ
            (evs ++ upload_summary
                      (length (glob_html (fs σ) (CRAWL_OUTPUT_DIR E))
                       - length (List.filter (upload_fails E)
                                   (glob_html (fs σ) (CRAWL_OUTPUT_DIR E))))
                      (length (List.filter (upload_fails E)
                                 (glob_html (fs σ) (CRAWL_OUTPUT_DIR E))))))
       ∧ uploads evs
         = upload_of settings <$> glob_html (fs σ) (CRAWL_OUTPUT_DIR E))
  ∧ (glob_html (fs σ) (CRAWL_OUTPUT_DIR E) = [] →
     ∃ evs,
       upload_files_to_r2 E settings σ = (Ok tt, add_events σ evs)
       ∧ uploads evs = []
       ∧ logged INFO evs
         = [ConnectingToR2 (r2_bucket_name settings)
              ("https://" +:+ r2_account_id settings
               +:+ ".r2.cloudflarestorage.com");
            CreatedR2Client;
            ScanningDirectory (CRAWL_OUTPUT_DIR E)]
       ∧ last evs
         = Some (Log WARNING (NoHtmlFilesFound (CRAWL_OUTPUT_DIR E)))).
Proof.
  intros Hready. split; [apply glob_html_NoDup|].
  rewrite (upload_files_to_r2_ready E settings σ Hready).
  split.
  - intros Hne.
    destruct (glob_html (fs σ) (CRAWL_OUTPUT_DIR E)) as [|p files]; [done|].
    cbn iota beta zeta.
    match goal with |- context [upload_each _ _ _ _ _ ?σ1] =>
      destruct (upload_each_run E settings (p :: files) 0 0 σ1)
        as (evs & -> & Hu)
    end.
    rewrite !add_events_app. cbn [fst snd]. rewrite !Nat.add_0_l.
    match goal with |- context [add_events σ (?pre ++ evs ++ _)] =>
      exists (pre ++ evs)
    end.
    split; [by rewrite <- app_assoc|].
    rewrite uploads_app, Hu. done.
  - intros ->. eexists. split; [reflexivity|]. done.
Qed.

(** Two pages, of which the store refuses one. *)
Lemma upload_partial_failure_isolation_witness :
  ∃ evs,
    upload_files_to_r2 flaky_store_env sample_settings two_pages_state
    = (Ok tt, add_events two_pages_state (evs ++ upload_summary 1 1))
    ∧ length (uploads evs) = 2.
Proof.
  destruct (upload_partial_failure_isolation flaky_store_env sample_settings
              two_pages_state) as (_ & Hsome & _).
  - repeat split; done.
  - destruct Hsome as (evs & Hrun & Hu); [by vm_compute|].
    exists evs. split; [exact Hrun|]. by rewrite Hu.
Defined.

(** C4, as the claim has it, fails at [N = 0]: on an existing but empty
    directory the run logs a warning and returns, and the summary lines
    are not among what it logged. *)
Lemma empty_directory_has_no_summary :
  glob_html (fs empty_dir_state) (CRAWL_OUTPUT_DIR sample_env) = []
  ∧ (upload_files_to_r2 sample_env sample_settings empty_dir_state).1 = Ok tt
  ∧ trace (upload_files_to_r2 sample_env sample_settings empty_dir_state).2
    = [Log INFO (ConnectingToR2 "test-bucket"
                   "https://acc0.r2.cloudflarestorage.com");
       Log INFO CreatedR2Client;
       Log INFO (ScanningDirectory ["srv"; "crawled_html"]);
       Log WARNING (NoHtmlFilesFound ["srv"; "crawled_html"])]
  ∧ (∀ s f,
       (Log INFO (SuccessfulUploads s)
        ∉ trace (upload_files_to_r2 sample_env sample_settings
                   empty_dir_state).2)
       ∧ (Log INFO (FailedUploads f)
          ∉ trace (upload_files_to_r2 sample_env sample_settings
                     empty_dir_state).2)).
Proof.
  assert (Hrun : upload_files_to_r2 sample_env sample_settings empty_dir_state
                 = (Ok tt,
                    {| fs := fs empty_dir_state; uuids_drawn := 0;
                       trace :=
                         [Log INFO (ConnectingToR2 "test-bucket"
                                      "https://acc0.r2.cloudflarestorage.com");
                          Log INFO CreatedR2Client;
                          Log INFO (ScanningDirectory ["srv"; "crawled_html"]);
                          Log WARNING (NoHtmlFilesFound ["srv"; "crawled_html"])]
                    |})).
  { by vm_compute. }
  rewrite Hrun. split; [by vm_compute|]. split; [done|]. split; [done|].
  intros s f. split; not_in_events.
Qed.

(** * Further properties *)

(** ** The persister under write failures *)

Lemma tidy_insert_file f dir (file : string) s :
  tidy f dir → tidy (<[dir ++ [file] := File s]> f) dir.
Proof.
  intros [Hdir Hch]. split.
  - by rewrite is_dir_insert_child.
  - intros file'. specialize (Hch file').
    rewrite is_dir_child_nonempty in *.
    destruct (decide (dir ++ [file] = dir ++ [file'])) as [->|Hne].
    + by rewrite lookup_insert_eq.
    + by rewrite lookup_insert_ne.
Qed.

Lemma tidy_make_dirs f dir :
  (∀ file : string, is_dir f (dir ++ [file]) = false) →
  tidy (make_dirs f dir) dir.
Proof.
  intros Hch. split; [apply is_dir_make_dirs|].
  intros file. specialize (Hch file). rewrite is_dir_child_nonempty in *.
  by rewrite lookup_make_dirs_out by apply child_not_ancestor.
Qed.

Section persister_faults.
Context (E : env) (output_dir : path).

(** A record with a text, whatever the disk does with it: one UUID is
    drawn, the count moves only if the write went through, a refused
    write costs one error line and the loop body still returns. *)
Lemma save_page_text i r c σ s :
  page_record r → text_of r = Some s → tidy (fs σ) output_dir →
  ∃ σ' evs,
    save_page E output_dir i r c σ
    = (Ok (if accepted E
                (output_dir ++ [page_filename (uuid4 E (uuids_drawn σ))], s)
           then c + 1 else c), σ')
    ∧ trace σ' = trace σ ++ evs
    ∧ uuids_drawn σ' = S (uuids_drawn σ)
    ∧ tidy (fs σ') output_dir
    ∧ written evs
      = (if accepted E
              (output_dir ++ [page_filename (uuid4 E (uuids_drawn σ))], s)
         then [(output_dir ++ [page_filename (uuid4 E (uuids_drawn σ))], s)]
         else [])
    ∧ length (logged ERROR evs)
      = (if accepted E
              (output_dir ++ [page_filename (uuid4 E (uuids_drawn σ))], s)
         then 0 else 1)
    ∧ logged WARNING evs = [].
Proof.
  intros (d & -> & Hm) [Hs Ht]%text_of_truthy Htidy.
  pose proof Htidy as [Hdir Hch].
  specialize (Hch (page_filename (uuid4 E (uuids_drawn σ)))).
  unfold save_page, accepted. mstep. simpl in Hs, Ht.
  destruct Hm as [-> | (m & ->)]; cbn [from_option id]; mstep;
    rewrite Ht; cbn [negb]; cbn iota beta;
    unfold write_text; mstep; rewrite removelast_last, Hdir, Hch;
    cbn [negb]; cbn iota;
    (destruct (disk_fault E _) as [[e|e partial]|]; rewrite ?Hs; mstep;
     [destruct (is_OSError e)..|];
     (eexists _, _; split; [reflexivity|]; cbn [fs uuids_drawn trace];
      split; [rewrite <- ?app_assoc;
              first [reflexivity|symmetry; apply app_nil_r]|];
      split; [reflexivity|];
      split; [first [exact Htidy | by apply tidy_insert_file]|];
      split; [reflexivity|]; split; reflexivity)).
Qed.

(** The loop on well-formed records, whatever the disk does: every
    record is visited, and the count is the number of writes that went
    through. *)
Lemma save_pages_faulty pages i c σ :
  Forall page_record pages → Forall valid_or_empty pages →
  tidy (fs σ) output_dir →
  ∃ σ' evs,
    save_pages E output_dir pages i c σ
    = (Ok (c + length (List.filter (accepted E)
                         (new_files E output_dir (uuids_drawn σ)
                            (omap text_of pages)))), σ')
    ∧ trace σ' = trace σ ++ evs
    ∧ uuids_drawn σ' = uuids_drawn σ + length (omap text_of pages)
    ∧ written evs
      = List.filter (accepted E)
          (new_files E output_dir (uuids_drawn σ) (omap text_of pages))
    ∧ length (logged ERROR evs)
      = length (List.filter (λ ps, negb (accepted E ps))
                  (new_files E output_dir (uuids_drawn σ)
                     (omap text_of pages)))
    ∧ length (logged WARNING evs) = length (List.filter lacks_content pages).
Proof.
  intros Hrec Hve. revert i c σ.
  induction pages as [|r pages IH]; intros i c σ Htidy.
  - exists σ, []. simpl. by rewrite app_nil_r, !Nat.add_0_r.
  - apply Forall_cons in Hrec as [Hr Hrec].
    apply Forall_cons in Hve as [[Hl | [s Hs]] Hve].
    + cbn [save_pages]. mstep. rewrite (save_page_skip _ _ _ _ _ _ Hr Hl).
      fold (save_pages E output_dir).
      destruct (IH Hrec Hve (S i) c
                  (add_events σ [Log WARNING
                     (NoHtmlContent (i + 1) (source_url_of r i))]) Htidy)
        as (σ' & evs & Hrun & Ht & Hu & Hw & He & Hn).
      cbn [omap list_omap List.filter].
      rewrite (lacks_content_no_text _ Hl), Hl.
      change (list_omap pyval string text_of pages)
        with (omap text_of pages).
      exists σ', (Log WARNING (NoHtmlContent (i + 1) (source_url_of r i))
                  :: evs).
      rewrite Hrun. split; [done|]. split.
      { rewrite Ht. cbn [trace add_events]. by rewrite <- app_assoc. }
      split; [done|]. split; [done|]. split; [done|].
      cbn [logged omap list_omap level_eqb length]. by f_equal.
    + destruct (save_page_text i r c σ s Hr Hs Htidy)
        as (σ1 & ev1 & Hrun1 & Ht1 & Hu1 & Htidy1 & Hw1 & He1 & Hn1).
      cbn [save_pages]. mstep. rewrite Hrun1. fold (save_pages E output_dir).
      destruct (IH Hrec Hve (S i)
                  (if accepted E
                        (output_dir
                         ++ [page_filename (uuid4 E (uuids_drawn σ))], s)
                   then c + 1 else c) σ1 Htidy1)
        as (σ' & evs & Hrun & Ht & Hu & Hw & He & Hn).
      destruct (text_of_truthy _ _ Hs) as [_ Htr].
      cbn [omap list_omap List.filter]. rewrite Hs.
      unfold lacks_content at 1. rewrite Htr. cbn [negb].
      change (list_omap pyval string text_of pages)
        with (omap text_of pages).
      rewrite new_files_cons. cbn [List.filter]. rewrite Hu1 in *.
      exists σ', (ev1 ++ evs). rewrite Hrun. split.
      { f_equal. f_equal.
        destruct (accepted E _); cbn [negb length]; lia. }
      split; [rewrite Ht, Ht1; by rewrite <- app_assoc|].
      split; [cbn [length]; lia|].
      split.
      { rewrite written_app, Hw1, Hw. by destruct (accepted E _). }
      split.
      { rewrite logged_app, length_app, He1, He.
        by destruct (accepted E _). }
      rewrite logged_app, Hn1. done.
Qed.
End persister_faults.

(** X1. Write failures are isolated: on well-formed records, each of
    which lacks content or carries a text, saved into a directory that
    [mkdir] can create and that holds no sub-directory, the call returns
    without raising whatever the disk refuses.  Every text is attempted
    under its own UUID; the returned count and the files written are
    exactly the attempts the disk accepted, every refused attempt costs
    one error line, every record without content one warning, and the
    summary reports the count out of all records. *)
Theorem persist_write_failures_isolated (E : env) (output_dir : path)
    (records : list pyval) (σ : state) :
  Forall page_record records →
  Forall valid_or_empty records →
  (mkdir_parents E output_dir σ).1 = Ok tt →
  (∀ file : string, is_dir (fs σ) (output_dir ++ [file]) = false) →
  ∃ σ' evs,
    save_crawl_results E (PList records) output_dir σ
    = (Ok (length (List.filter (accepted E)
                     (new_files E output_dir (uuids_drawn σ)
                        (omap text_of records)))), σ')
    ∧ trace σ' = trace σ ++ evs
    ∧ uuids_drawn σ' = uuids_drawn σ + length (omap text_of records)
    ∧ written evs
      = List.filter (accepted E)
          (new_files E output_dir (uuids_drawn σ) (omap text_of records))
    ∧ length (logged ERROR evs)
      = length (List.filter (λ ps, negb (accepted E ps))
                  (new_files E output_dir (uuids_drawn σ)
                     (omap text_of records)))
    ∧ length (logged WARNING evs)
      = length (List.filter lacks_content records)
    ∧ last evs
      = Some (Log INFO
                (SuccessfullySaved
                   (length (List.filter (accepted E)
                              (new_files E output_dir (uuids_drawn σ)
                                 (omap text_of records))))
                   (length records))).
Proof.
  intros Hrec Hve Hmk Hch.
  unfold save_crawl_results, py_iter. mstep.
  rewrite (mkdir_parents_ok _ _ _ Hmk). cbn [fs uuids_drawn trace].
  match goal with |- context [save_pages _ _ _ _ _ ?σ0] =>
    destruct (save_pages_faulty E output_dir records 0 0 σ0 Hrec Hve)
      as (σ' & evs & Hrun & Ht & Hu & Hw & He & Hn)
  end.
  { by apply tidy_make_dirs. }
  cbn [fs uuids_drawn trace] in *. rewrite Hrun. rewrite Nat.add_0_l.
  eexists _, ([Log INFO (SavingCrawlResults output_dir)] ++ evs ++ [_]).
  split; [reflexivity|]. cbn [fs uuids_drawn trace].
  split; [rewrite Ht; by rewrite <- !app_assoc|].
  split; [done|].
  split; [rewrite !written_app, Hw; cbn; by rewrite app_nil_r|].
  split; [rewrite !logged_app, !length_app, He; cbn; lia|].
  split; [rewrite !logged_app, !length_app, Hn; cbn; lia|].
  by rewrite app_assoc, last_snoc.
Qed.

Lemma tidy_empty_children dir (file : string) : is_dir ∅ (dir ++ [file]) = false.
Proof. rewrite is_dir_child_nonempty. by rewrite lookup_empty. Qed.

(** Three texts, the second refused by the disk: two files, count two. *)
Lemma persist_write_failures_isolated_witness :
  ∃ σ' evs,
    save_crawl_results full_disk_env (PList three_text_records)
      ["crawled_html"] empty_state = (Ok 2, σ')
    ∧ trace σ' = evs
    ∧ written evs
      = [(["crawled_html"; "page_0000-0.html"], "<p>one</p>");
         (["crawled_html"; "page_0000-2.html"], "<p>three</p>")]
    ∧ length (logged ERROR evs) = 1.
Proof.
  destruct (persist_write_failures_isolated full_disk_env ["crawled_html"]
              three_text_records empty_state)
    as (σ' & evs & Hrun & Ht & _ & Hw & He & _).
  - constructor; [|constructor; [|constructor; [|constructor]]];
      apply page_record_page.
  - constructor; [|constructor; [|constructor; [|constructor]]];
      right; rewrite text_of_page by done; by eexists.
  - reflexivity.
  - apply tidy_empty_children.
  - exists σ', evs. split; [exact Hrun|]. split; [exact Ht|].
    split; [rewrite Hw; by vm_compute|]. rewrite He. by vm_compute.
Defined.

(** ** The persister on arbitrary input *)

Section persister_any.
Context (E : env) (output_dir : path).

(** One pass of the loop body adds to the count exactly the files it
    wrote, at most one. *)
Lemma save_page_count i r c σ c' σ' :
  save_page E output_dir i r c σ = (Ok c', σ') →
  ∃ evs, trace σ' = trace σ ++ evs
         ∧ c' = c + length (written evs)
         ∧ length (written evs) ≤ 1.
Proof.
  unfold save_page, write_text. mstep. intros H.
  repeat (case_match; mstep_in H; simplify_eq);
    (eexists; split;
     [cbn [trace]; rewrite <- ?app_assoc;
      first [reflexivity | symmetry; apply app_nil_r]
     |cbn; split; lia]).
Qed.

Lemma save_pages_count pages i c σ n σ' :
  save_pages E output_dir pages i c σ = (Ok n, σ') →
  ∃ evs, trace σ' = trace σ ++ evs
         ∧ n = c + length (written evs)
         ∧ length (written evs) ≤ length pages.
Proof.
  revert i c σ. induction pages as [|r pages IH]; intros i c σ.
  - intros [= <- <-]. exists []. rewrite app_nil_r. simpl. split; [done|lia].
  - cbn [save_pages]. mstep.
    destruct (save_page E output_dir i r c σ) as [[c1|e] σ1] eqn:Hp; [|done].
    intros Hrest. apply save_page_count in Hp as (ev1 & Ht1 & Hc1 & Hl1).
    apply IH in Hrest as (evs & Ht & Hc & Hl).
    exists (ev1 ++ evs). rewrite Ht, Ht1, written_app, length_app.
    split; [by rewrite <- app_assoc|]. cbn [length]. lia.
Qed.
End persister_any.

(** X2. Whatever the records are and whatever the disk does, when the
    call returns, the count it returns is the number of files it wrote,
    never more than the number of records, and it is the count the
    closing summary reports. *)
Theorem saved_count_is_files_written (E : env) (output_dir : path)
    (records : list pyval) (σ σ' : state) (n : nat) :
  save_crawl_results E (PList records) output_dir σ = (Ok n, σ') →
  ∃ evs,
    trace σ' = trace σ ++ evs
    ∧ n = length (written evs)
    ∧ n ≤ length records
    ∧ last evs = Some (Log INFO (SuccessfullySaved n (length records))).
Proof.
  unfold save_crawl_results, py_iter. mstep.
  destruct (mkdir_parents E output_dir σ) as [[[]|e] σ1] eqn:Hmk; [|done].
  assert (Hok : (mkdir_parents E output_dir σ).1 = Ok tt) by by rewrite Hmk.
  rewrite (mkdir_parents_ok _ _ _ Hok) in Hmk. injection Hmk as <-.
  cbn [fs uuids_drawn trace].
  match goal with |- context [save_pages _ _ _ _ _ ?σ0] =>
    destruct (save_pages E output_dir records 0 0 σ0) as [[c|e] σ2] eqn:Hsp
  end; [|done].
  intros [= <- <-]. apply save_pages_count in Hsp as (evs & Ht & Hc & Hl).
  cbn [trace] in *.
  exists ([Log INFO (SavingCrawlResults output_dir)] ++ evs
          ++ [Log INFO (SuccessfullySaved c (length records))]).
  split; [rewrite Ht; by rewrite <- !app_assoc|].
  split; [rewrite !written_app, length_app, length_app; cbn; lia|].
  split; [lia|]. by rewrite app_assoc, last_snoc.
Qed.

Lemma saved_count_is_files_written_witness :
  ∃ evs, length (written evs) = 2
         ∧ last evs = Some (Log INFO (SuccessfullySaved 2 3)).
Proof.
  destruct (saved_count_is_files_written full_disk_env ["crawled_html"]
              three_text_records empty_state
              (save_crawl_results full_disk_env (PList three_text_records)
                 ["crawled_html"] empty_state).2 2)
    as (evs & _ & Hn & _ & Hlast).
  - by vm_compute.
  - exists evs. by rewrite <- Hn.
Defined.

(** X3. A record whose content is truthy but not a text (a number, a
    list): the file is opened, and so created empty, before [write]
    raises [TypeError]; the error is logged as unexpected, the record is
    not counted and the loop body returns normally. *)
Theorem non_text_content_leaves_empty_file (E : env) (output_dir : path)
    (i : nat) (r : pyval) (c : nat) (σ : state) :
  page_record r →
  truthy (html_of r) = true →
  (∀ s, html_of r ≠ PStr s) →
  tidy (fs σ) output_dir →
  (∀ e, disk_fault E
          (output_dir ++ [page_filename (uuid4 E (uuids_drawn σ))])
        ≠ Some (OpenFault e)) →
  save_page E output_dir i r c σ
  = (Ok c,
     {| fs := <[output_dir ++ [page_filename (uuid4 E (uuids_drawn σ))]
               := File ""]> (fs σ);
        uuids_drawn := S (uuids_drawn σ);
        trace := trace σ
                 ++ [Log ERROR
                       (UnexpectedErrorSaving
                          (output_dir
                           ++ [page_filename (uuid4 E (uuids_drawn σ))])
                          TypeError)] |}).
Proof.
  intros (d & -> & Hm) Ht Hns [Hdir Hch] Hopen.
  specialize (Hch (page_filename (uuid4 E (uuids_drawn σ)))).
  unfold save_page. mstep. simpl in Ht, Hns.
  destruct Hm as [-> | (m & ->)]; cbn [from_option id]; mstep;
    rewrite Ht; cbn [negb]; cbn iota beta;
    unfold write_text; mstep; rewrite removelast_last, Hdir, Hch;
    cbn [negb]; cbn iota;
    (destruct (disk_fault E _) as [[e|e partial]|];
     [by destruct (Hopen e)|..];
     destruct (default PNone (d !! "rawHtml")) eqn:Hh;
     try done; try (by destruct (Hns s)); mstep; reflexivity).
Qed.

Lemma non_text_content_leaves_empty_file_witness :
  (save_page sample_env ["crawled_html"] 0 number_record 0
     {| fs := {[ ["crawled_html"] := Dir ]}; uuids_drawn := 0;
        trace := [] |}).1 = Ok 0.
Proof.
  rewrite (non_text_content_leaves_empty_file sample_env ["crawled_html"] 0
             number_record 0
             {| fs := {[ ["crawled_html"] := Dir ]}; uuids_drawn := 0;
                trace := [] |}).
  - reflexivity.
  - apply page_record_page.
  - unfold number_record. by rewrite html_of_page.
  - intros s. unfold number_record. by rewrite html_of_page.
  - split; [by vm_compute|]. intros file.
    rewrite is_dir_child_nonempty. cbn [fs].
    rewrite lookup_singleton_ne; [done|].
    apply not_eq_sym, (child_neq ["crawled_html"]).
  - done.
Defined.

(** X4. The loop body raises exactly on records that are not page
    records (not a mapping, or with a [metadata] that is not one): then
    [AttributeError] leaves it before anything is logged, drawn or
    written, and ends the whole loop, records after it included.  On a
    page record it never raises, whatever the disk does. *)
Theorem save_page_raises_iff_malformed (E : env) (output_dir : path)
    (i : nat) (r : pyval) (c : nat) (σ : state) :
  (page_record r →
   ∃ c' σ', save_page E output_dir i r c σ = (Ok c', σ'))
  ∧ (¬ page_record r →
     save_page E output_dir i r c σ = (Raise AttributeError, σ)
     ∧ ∀ rest,
         save_pages E output_dir (r :: rest) i c σ
         = (Raise AttributeError, σ)).
Proof.
  split.
  - intros (d & -> & Hm). unfold save_page, write_text. mstep.
    destruct Hm as [-> | (m & ->)]; cbn [from_option id]; mstep;
      repeat (case_match; mstep; simplify_eq); eauto.
  - intros Hnot.
    assert (Hraise : save_page E output_dir i r c σ
                     = (Raise AttributeError, σ)).
    { unfold save_page. destruct r as [| | | | |d]; try done.
      mstep. destruct (d !! "metadata") as [[| | | | |m]|] eqn:Hmeta;
        try done.
      - destruct Hnot. exists d. split; [done|]. right. by exists m.
      - destruct Hnot. exists d. split; [done|]. by left. }
    split; [done|]. intros rest. cbn [save_pages]. mstep. by rewrite Hraise.
Qed.

Lemma not_page_record_null_metadata :
  ¬ page_record (PDict (<["rawHtml" := PStr "<p>x</p>"]>
                          {["metadata" := PNone]})).
Proof.
  intros (d & [= <-] & [H | (m & H)]); by vm_compute in H.
Qed.

Lemma save_page_raises_iff_malformed_witness :
  (∃ c' σ',
     save_page sample_env ["crawled_html"] 0
       (page (PStr "<p>hi</p>") "https://example.com/docs/a") 0 empty_state
     = (Ok c', σ'))
  ∧ save_pages sample_env ["crawled_html"] null_metadata_records 0 0
      empty_state
    = (Raise AttributeError, empty_state).
Proof.
  split.
  - apply (save_page_raises_iff_malformed sample_env ["crawled_html"] 0
             (page (PStr "<p>hi</p>") "https://example.com/docs/a") 0
             empty_state), page_record_page.
  - apply (save_page_raises_iff_malformed sample_env ["crawled_html"] 0
             (PDict (<["rawHtml" := PStr "<p>x</p>"]>
                       {["metadata" := PNone]})) 0 empty_state).
    apply not_page_record_null_metadata.
Defined.

(** ** The Firecrawl client *)

(** X5. [start_crawl] never raises.  It returns the identifier exactly
    when the service answered with a mapping whose [id] is truthy, and
    [None] in every other case (the request raised, the answer is not a
    mapping, the [id] is missing or falsy), each of which costs one
    error line. *)
Theorem start_crawl_never_raises (start_url : string) (params : pyval)
    (r : response) (σ : state) :
  ∃ evs,
    start_crawl start_url params r σ
    = (Ok (if truthy (job_id_of r) then job_id_of r else PNone),
       add_events σ evs)
    ∧ length (logged ERROR evs) = (if truthy (job_id_of r) then 0 else 1)
    ∧ fetches evs = 0
    ∧ written evs = []
    ∧ sleeps evs = [].
Proof.
  unfold start_crawl, job_id_of. mstep.
  destruct r as [[| | | | |d]|e]; cbn [truthy]; mstep;
    try (eexists; split;
         [unfold add_events; cbn [fs uuids_drawn trace];
          rewrite <- ?app_assoc; reflexivity|done]).
  destruct (truthy (default PNone (d !! "id"))); mstep;
    (eexists; split;
     [unfold add_events; cbn [fs uuids_drawn trace];
      rewrite <- ?app_assoc; reflexivity|done]).
Qed.

(** X6. [check_crawl_status] never raises and sends exactly one status
    request.  It hands back the service's answer untouched when that is
    a mapping, and [None] otherwise (the request raised, or the answer
    has no [get]), with one error line. *)
Theorem check_crawl_status_never_raises (job_id : pyval) (r : response)
    (σ : state) :
  ∃ v evs,
    check_crawl_status job_id r σ = (Ok v, add_events σ evs)
    ∧ fetches evs = 1
    ∧ ((∃ d, r = Returns (PDict d) ∧ v = PDict d ∧ logged ERROR evs = [])
       ∨ ((∀ d, r ≠ Returns (PDict d))
          ∧ v = PNone ∧ length (logged ERROR evs) = 1)).
Proof.
  unfold check_crawl_status. mstep.
  destruct r as [[| | | | |d]|e]; mstep;
    (eexists _, _; split;
     [unfold add_events; cbn [fs uuids_drawn trace];
      rewrite <- ?app_assoc; reflexivity|]; split; [done|]);
    first [left; by eexists | right; done].
Qed.

(** ** [main] *)

Lemma sleeps_app t1 t2 : sleeps (t1 ++ t2) = sleeps t1 ++ sleeps t2.
Proof. apply omap_app. Qed.

Lemma sleeps_waiting_run job_id (pre : list (gmap string pyval)) :
  sleeps (concat (waiting_events job_id <$> pre))
  = replicate (length pre) 10%Z.
Proof.
  induction pre as [|d pre IH]; [done|].
  rewrite fmap_cons. cbn [concat length replicate].
  rewrite sleeps_app, IH. unfold waiting_events, fetched_events.
  by destruct (py_eq_str (status_of d) "scraping").
Qed.

Lemma mkdir_parents_fs E dir σ1 σ2 :
  fs σ1 = fs σ2 → (mkdir_parents E dir σ1).1 = (mkdir_parents E dir σ2).1.
Proof.
  intros Hfs. unfold mkdir_parents. mstep. rewrite Hfs.
  destruct (mkdir_fault E dir); [done|].
  destruct (is_file (fs σ2) dir); [done|].
  by destruct (existsb (is_file (fs σ2)) (ancestors dir)).
Qed.

(** X7. When the job cannot be started, [main] gives up at once: it
    logs the failure and returns without sending a single status
    request and without writing anything, whatever the service would
    have answered. *)
Theorem failed_start_never_polls (E : env) (start_url : string)
    (output_dir : path) (limit : Z) (started : response)
    (responses : list response) (σ : state) :
  truthy (job_id_of started) = false →
  ∃ evs,
    main E start_url output_dir limit started responses σ
    = (None, add_events σ evs)
    ∧ fetches evs = 0
    ∧ written evs = []
    ∧ last evs = Some (Log ERROR FailedToStartExiting).
Proof.
  intros Hid. unfold main. mstep.
  destruct (start_crawl_never_raises start_url (FirecrawlCrawlParams limit)
              started
              {| fs := fs σ; uuids_drawn := uuids_drawn σ;
                 trace := trace σ ++ [Log INFO FirecrawlAppInitialized] |})
    as (evs & Hrun & _ & Hf & Hw & _).
  rewrite Hid in Hrun. rewrite Hrun. cbn [truthy negb snd].
  exists ([Log INFO FirecrawlAppInitialized] ++ evs
          ++ [Log ERROR FailedToStartExiting]).
  split.
  { unfold add_events. cbn [fs uuids_drawn trace].
    by rewrite <- !app_assoc. }
  split; [rewrite !fetches_app, Hf; done|].
  split; [rewrite !written_app, Hw; done|].
  by rewrite app_assoc, last_snoc.
Qed.

Lemma failed_start_never_polls_witness :
  (main sample_env "https://example.com/docs" ["crawled_html"] 2
     (Throws ClientError) [Returns (PDict (snapshot "completed"))]
     empty_state).1 = None.
Proof.
  destruct (failed_start_never_polls sample_env "https://example.com/docs"
              ["crawled_html"] 2 (Throws ClientError)
              [Returns (PDict (snapshot "completed"))] empty_state)
    as (evs & Hrun & _); [reflexivity|].
  by rewrite Hrun.
Defined.

(** ** The monitor loop on other answers *)

(** X8. A [completed] snapshot without page records ([data] missing,
    empty or otherwise falsy) stops the loop with a warning and without
    calling the persister: not even the output directory is created. *)
Theorem completed_without_data_skips_persistence (E : env) (job_id : pyval)
    (output_dir : path) (d : gmap string pyval) (rest : list response)
    (done : nat) (σ : state) :
  has_status d "completed" →
  truthy (default (PList []) (d !! "data")) = false →
  monitor E job_id output_dir (Returns (PDict d) :: rest) done σ
  = ({| iterations := S done; exit := Stopped JobCompleted; unread := rest |},
     add_events σ
       (fetched_events job_id d
        ++ [Log INFO (CrawlJobCompleted job_id);
            Log WARNING (CompletedButNoData job_id)])).
Proof.
  intros Hs Hdata. cbn [monitor].
  unfold poll_once, check_crawl_status. mstep.
  unfold truthy at 1.
  rewrite bool_decide_eq_false_2 by by eapply has_status_nonempty.
  mstep. fold (status_of d). rewrite (has_status_status_of _ _ Hs).
  cbn [py_eq_str String.eqb Ascii.eqb Bool.eqb negb]. cbn iota.
  rewrite Hdata. mstep. unfold add_events, fetched_events.
  rewrite (has_status_status_of _ _ Hs). cbn [fs uuids_drawn trace].
  by rewrite <- !app_assoc.
Qed.

Lemma completed_without_data_skips_persistence_witness :
  fs (monitor sample_env sample_job ["crawled_html"]
        [Returns (PDict (snapshot "completed"))] 0 empty_state).2 = ∅.
Proof.
  rewrite (completed_without_data_skips_persistence sample_env sample_job
             ["crawled_html"] (snapshot "completed") [] 0 empty_state).
  - reflexivity.
  - apply has_status_snapshot.
  - reflexivity.
Defined.

(** X9. The loop sets no bound of its own: over a script of
    non-terminal snapshots only, however long, it breaks nowhere; it has
    run one iteration per snapshot, slept 10 seconds after each, and is
    waiting for the next answer. *)
Theorem non_terminal_script_never_stops (E : env) (job_id : pyval)
    (output_dir : path) (pre : list (gmap string pyval)) (σ : state) :
  Forall non_terminal pre →
  monitor E job_id output_dir (Returns ∘ PDict <$> pre) 0 σ
  = ({| iterations := length pre; exit := AwaitingStatus; unread := [] |},
     add_events σ (concat (waiting_events job_id <$> pre)))
  ∧ sleeps (concat (waiting_events job_id <$> pre))
    = replicate (length pre) 10%Z
  ∧ fetches (concat (waiting_events job_id <$> pre)) = length pre
  ∧ written (concat (waiting_events job_id <$> pre)) = [].
Proof.
  intros Hpre. split; [|split; [|split]].
  - pose proof (monitor_waiting E job_id output_dir pre [] 0 σ Hpre) as H.
    rewrite app_nil_r in H. by rewrite H.
  - apply sleeps_waiting_run.
  - apply fetches_waiting_run.
  - clear. induction pre as [|d pre IH]; [done|].
    rewrite fmap_cons. cbn [concat]. rewrite written_app, IH.
    unfold waiting_events, fetched_events.
    by destruct (py_eq_str (status_of d) "scraping").
Qed.

Lemma non_terminal_script_never_stops_witness :
  exit (monitor sample_env sample_job ["crawled_html"]
          [Returns (PDict (snapshot "scraping"));
           Returns (PDict (snapshot "scraping"))] 0 empty_state).1
  = AwaitingStatus.
Proof.
  destruct (non_terminal_script_never_stops sample_env sample_job
              ["crawled_html"] [snapshot "scraping"; snapshot "scraping"]
              empty_state) as [Hrun _].
  - constructor; [|constructor; [|constructor]];
      by apply non_terminal_snapshot.
  - exact (f_equal (λ r, exit r.1) Hrun).
Defined.

(** X10. A snapshot that is not empty but whose status is missing or is
    not a string is handled as an unknown status: a warning, the
    10-second sleep, and one more round. *)
Theorem missing_status_keeps_polling (E : env) (job_id : pyval)
    (output_dir : path) (d : gmap string pyval) (rest : list response)
    (done : nat) (σ : state) :
  d ≠ ∅ →
  (∀ s, d !! "status" ≠ Some (PStr s)) →
  monitor E job_id output_dir (Returns (PDict d) :: rest) done σ
  = monitor E job_id output_dir rest (S done)
      (add_events σ
         (fetched_events job_id d
          ++ [Log WARNING (UnknownStatus (status_of d) job_id (PDict d));
              Sleep 10])).
Proof.
  intros Hne Hns.
  assert (Hstr : ∀ lit, py_eq_str (status_of d) lit = false).
  { intros lit. unfold status_of.
    destruct (d !! "status") as [[| | |s| |]|] eqn:Hst; try done.
    by destruct (Hns s). }
  cbn [monitor]. rewrite poll_once_waiting by done.
  unfold waiting_events. by rewrite Hstr.
Qed.

Lemma missing_status_keeps_polling_witness :
  exit (monitor sample_env sample_job ["crawled_html"]
          [Returns (PDict {["total" := PInt 2]})] 0 empty_state).1
  = AwaitingStatus.
Proof.
  rewrite (missing_status_keeps_polling sample_env sample_job
             ["crawled_html"] {["total" := PInt 2]} [] 0 empty_state).
  - reflexivity.
  - apply insert_non_empty.
  - intros s. by rewrite lookup_singleton_ne.
Defined.

(** X11. The only exceptions that leave an iteration of the loop come
    out of the persister: if an iteration raises, the answer was a
    [completed] snapshot carrying truthy [data].  Failed requests,
    malformed answers and every other status are dealt with inside the
    loop. *)
Theorem iteration_raises_only_while_persisting (E : env) (job_id : pyval)
    (output_dir : path) (r : response) (σ σ' : state) (e : exn) :
  poll_once E job_id output_dir r σ = (Raise e, σ') →
  ∃ d, r = Returns (PDict d)
       ∧ has_status d "completed"
       ∧ truthy (default (PList []) (d !! "data")) = true.
Proof.
  destruct (check_crawl_status_never_raises job_id r σ)
    as (v & evs & Hcheck & _ & [(d & -> & -> & _) | (_ & -> & _)]).
  - unfold poll_once. mstep. rewrite Hcheck.
    destruct (truthy (PDict d)); cbn [negb]; cbn iota; mstep; [|done].
    destruct (py_eq_str (default PNone (d !! "status")) "completed") eqn:Hc.
    + destruct (truthy (default (PList []) (d !! "data"))) eqn:Hdata;
        mstep; [|done].
      intros _. exists d. split; [done|]. split; [|done].
      unfold has_status. destruct (d !! "status") as [[| | |s| |]|];
        try done. cbn in Hc. by apply String.eqb_eq in Hc as ->.
    + destruct (py_eq_str _ "failed"); [done|].
      by destruct (py_eq_str _ "scraping").
  - unfold poll_once. mstep. by rewrite Hcheck.
Qed.

Lemma iteration_raises_only_while_persisting_witness :
  ∃ d, Returns (PDict bad_data_snapshot) = Returns (PDict d)
       ∧ has_status d "completed"
       ∧ truthy (default (PList []) (d !! "data")) = true.
Proof.
  apply (iteration_raises_only_while_persisting sample_env sample_job
           ["crawled_html"] (Returns (PDict bad_data_snapshot)) empty_state
           (poll_once sample_env sample_job ["crawled_html"]
              (Returns (PDict bad_data_snapshot)) empty_state).2
           AttributeError).
  by vm_compute.
Defined.

(** ** [main] from start to finish *)

Section persister_sleeps.
Context (E : env) (output_dir : path).

Lemma save_page_no_sleep i r c σ o σ' :
  save_page E output_dir i r c σ = (o, σ') →
  ∃ evs, trace σ' = trace σ ++ evs ∧ sleeps evs = [].
Proof.
  unfold save_page, write_text. mstep. intros H.
  repeat (case_match; mstep_in H; simplify_eq);
    (eexists; split;
     [cbn [trace]; rewrite <- ?app_assoc;
      first [reflexivity | symmetry; apply app_nil_r]
     |reflexivity]).
Qed.

Lemma save_pages_no_sleep pages i c σ o σ' :
  save_pages E output_dir pages i c σ = (o, σ') →
  ∃ evs, trace σ' = trace σ ++ evs ∧ sleeps evs = [].
Proof.
  revert i c σ. induction pages as [|r pages IH]; intros i c σ.
  - intros [= <- <-]. exists []. by rewrite app_nil_r.
  - cbn [save_pages]. mstep.
    destruct (save_page E output_dir i r c σ) as [[c1|e] σ1] eqn:Hp.
    + intros Hrest. apply save_page_no_sleep in Hp as (ev1 & Ht1 & Hs1).
      apply IH in Hrest as (evs & Ht & Hs).
      exists (ev1 ++ evs). rewrite Ht, Ht1, sleeps_app, Hs1, Hs.
      split; [by rewrite <- app_assoc|done].
    + intros [= <- <-]. by apply save_page_no_sleep in Hp.
Qed.

(** The persister never sleeps. *)
Lemma save_crawl_results_no_sleep crawl_data σ o σ' :
  save_crawl_results E crawl_data output_dir σ = (o, σ') →
  ∃ evs, trace σ' = trace σ ++ evs ∧ sleeps evs = [].
Proof.
  unfold save_crawl_results. mstep.
  destruct (mkdir_parents E output_dir σ) as [[[]|e] σ1] eqn:Hmk.
  - assert (Hok : (mkdir_parents E output_dir σ).1 = Ok tt) by by rewrite Hmk.
    rewrite (mkdir_parents_ok _ _ _ Hok) in Hmk. injection Hmk as <-.
    cbn [fs uuids_drawn trace].
    destruct crawl_data as [| | |s|l|d]; unfold py_iter; mstep;
      try (intros [= <- <-]; by exists [Log INFO (SavingCrawlResults output_dir)]).
    all: match goal with |- context [save_pages _ _ ?l _ _ ?σ0] =>
           destruct (save_pages E output_dir l 0 0 σ0) as [[c|e] σ3] eqn:Hsp
         end; intros [= <- <-];
         apply save_pages_no_sleep in Hsp as (evs & Ht & Hs);
         cbn [trace] in Ht.
    all: first
      [ eexists ([_] ++ evs ++ [_]); cbn [trace]; rewrite Ht;
        split; [by rewrite <- !app_assoc|];
        by rewrite !sleeps_app, Hs
      | eexists ([_] ++ evs); cbn [trace]; rewrite Ht;
        split; [by rewrite <- !app_assoc|];
        by rewrite !sleeps_app, Hs ].
  - intros [= <- <-]. apply mkdir_parents_raise in Hmk as ->.
    exists []. by rewrite app_nil_r.
Qed.
End persister_sleeps.

Section main_run.
Context (E : env) (job_id : pyval) (output_dir : path).

(** The iteration on a [completed] snapshot whose records the persister
    can save. *)
Lemma poll_once_completed_saved (d : gmap string pyval) records σ :
  has_status d "completed" →
  d !! "data" = Some (PList records) → records ≠ [] →
  Forall page_record records → Forall valid_or_empty records →
  (mkdir_parents E output_dir σ).1 = Ok tt →
  disk_ok E (fs σ) output_dir →
  ∃ evs,
    poll_once E job_id output_dir (Returns (PDict d)) σ
    = (Ok (Break JobCompleted),
       {| fs := write_all (make_dirs (fs σ) output_dir)
                  (new_files E output_dir (uuids_drawn σ)
                     (omap text_of records));
          uuids_drawn := uuids_drawn σ + length (omap text_of records);
          trace := trace σ ++ evs |})
    ∧ fetches evs = 1
    ∧ sleeps evs = []
    ∧ written evs
      = new_files E output_dir (uuids_drawn σ) (omap text_of records).
Proof.
  intros Hs Hdata Hne Hrec Hve Hmk Hok.
  unfold poll_once, check_crawl_status. mstep.
  unfold truthy at 1.
  rewrite bool_decide_eq_false_2 by by eapply has_status_nonempty.
  mstep. fold (status_of d). rewrite (has_status_status_of _ _ Hs).
  cbn [py_eq_str String.eqb Ascii.eqb Bool.eqb negb]. cbn iota.
  rewrite Hdata. cbn [from_option id truthy].
  destruct records as [|r records]; [done|]. cbn iota.
  match goal with |- context [save_crawl_results E _ _ ?σ0] =>
    destruct (save_crawl_results_good E output_dir (r :: records) σ0
                Hrec Hve) as (evs & Hrun & Hw & _ & _ & _);
    [by rewrite (mkdir_parents_fs E output_dir σ0 σ)|done|];
    pose proof Hrun as Hrun1; pose proof Hrun as Hrun2;
    apply save_crawl_results_frame in Hrun1 as [(evs1 & Ht1 & Hf) _];
    apply save_crawl_results_no_sleep in Hrun2 as (evs2 & Ht2 & Hsl)
  end.
  cbn [fs uuids_drawn trace] in *.
  apply app_inv_head in Ht1 as <-. apply app_inv_head in Ht2 as <-.
  rewrite Hrun. mstep.
  exists (fetched_events job_id d
          ++ [Log INFO (CrawlJobCompleted job_id)] ++ evs).
  split.
  { unfold fetched_events. rewrite (has_status_status_of _ _ Hs).
    by rewrite <- !app_assoc. }
  split; [rewrite !fetches_app, Hf; done|].
  split; [rewrite !sleeps_app, Hsl; done|].
  rewrite !written_app, Hw. done.
Qed.
End main_run.

(** X12. A whole run.  The job starts, the service answers [n]
    non-terminal snapshots and then a [completed] one carrying
    well-formed records, and the disk accepts [mkdir] and every write:
    [main] sends [n + 1] status requests, sleeps 10 seconds [n] times,
    stops on the [completed] snapshot without reading further, and has
    written one file per record with a text, and nothing else. *)
Theorem main_runs_to_completion (E : env) (start_url : string)
    (output_dir : path) (limit : Z) (started : response)
    (pre : list (gmap string pyval)) (last : gmap string pyval)
    (records : list pyval) (rest : list response) (σ : state) :
  truthy (job_id_of started) = true →
  Forall non_terminal pre →
  has_status last "completed" →
  last !! "data" = Some (PList records) → records ≠ [] →
  Forall page_record records → Forall valid_or_empty records →
  (mkdir_parents E output_dir σ).1 = Ok tt →
  disk_ok E (fs σ) output_dir →
  ∃ evs,
    main E start_url output_dir limit started
      ((Returns ∘ PDict <$> pre) ++ Returns (PDict last) :: rest) σ
    = (Some {| iterations := length pre + 1;
               exit := Stopped JobCompleted;
               unread := rest |},
       {| fs := write_all (make_dirs (fs σ) output_dir)
                  (new_files E output_dir (uuids_drawn σ)
                     (omap text_of records));
          uuids_drawn := uuids_drawn σ + length (omap text_of records);
          trace := trace σ ++ evs |})
    ∧ fetches evs = length pre + 1
    ∧ sleeps evs = replicate (length pre) 10%Z
    ∧ written evs
      = new_files E output_dir (uuids_drawn σ) (omap text_of records).
Proof.
  intros Hid Hpre Hs Hdata Hne Hrec Hve Hmk Hok.
  unfold main. mstep.
  destruct (start_crawl_never_raises start_url (FirecrawlCrawlParams limit)
              started
              {| fs := fs σ; uuids_drawn := uuids_drawn σ;
                 trace := trace σ ++ [Log INFO FirecrawlAppInitialized] |})
    as (ev0 & Hstart & _ & Hf0 & Hw0 & Hs0).
  rewrite Hid in Hstart. rewrite Hstart, Hid. cbn [negb snd]. cbn iota.
  rewrite (monitor_waiting E (job_id_of started) output_dir pre _ 0 _ Hpre).
  cbn [monitor]. rewrite Nat.add_0_l.
  match goal with |- context [poll_once E ?j _ _ ?σ0] =>
    destruct (poll_once_completed_saved E j output_dir last records σ0
                Hs Hdata Hne Hrec Hve)
      as (evs & Hrun & Hf & Hsl & Hw);
    [by rewrite (mkdir_parents_fs E output_dir σ0 σ)|done|]
  end.
  rewrite Hrun. cbn [fs uuids_drawn trace add_events] in *.
  exists ([Log INFO FirecrawlAppInitialized] ++ ev0
          ++ [Log INFO (MonitoringCrawlJob (job_id_of started))]
          ++ concat (waiting_events (job_id_of started) <$> pre) ++ evs).
  split.
  { f_equal; [f_equal; f_equal; lia|]. f_equal. by rewrite <- !app_assoc. }
  split.
  { rewrite !fetches_app, Hf0, fetches_waiting_run, Hf. cbn. lia. }
  split.
  { rewrite !sleeps_app, Hs0, sleeps_waiting_run, Hsl, app_nil_r. done. }
  rewrite !written_app, Hw0, Hw. cbn.
  assert (written (concat (waiting_events (job_id_of started) <$> pre)) = [])
    as ->; [|done].
  clear. induction pre as [|d pre IH]; [done|].
  rewrite fmap_cons. cbn [concat]. rewrite written_app, IH.
  unfold waiting_events, fetched_events.
  by destruct (py_eq_str (status_of d) "scraping").
Qed.

Lemma sample_records_well_formed :
  Forall page_record sample_records ∧ Forall valid_or_empty sample_records.
Proof.
  split.
  - constructor; [|constructor; [|constructor; [|constructor]]];
      first [apply page_record_page | apply page_record_bare].
  - constructor; [|constructor; [|constructor; [|constructor]]].
    + right. unfold text_of. rewrite html_of_page. by eexists.
    + left. unfold lacks_content. by rewrite html_of_page.
    + left. reflexivity.
Qed.

(** One [scraping] snapshot, then [completed] with three records of
    which one has a text. *)
Lemma main_runs_to_completion_witness :
  (main sample_env "https://example.com/docs" ["crawled_html"] 2
     started_abc123
     [Returns (PDict (snapshot "scraping"));
      Returns (PDict completed_snapshot)] empty_state).1
  = Some {| iterations := 2; exit := Stopped JobCompleted; unread := [] |}.
Proof.
  destruct (main_runs_to_completion sample_env "https://example.com/docs"
              ["crawled_html"] 2 started_abc123 [snapshot "scraping"]
              completed_snapshot sample_records [] empty_state)
    as (evs & Hrun & _).
  - by vm_compute.
  - constructor; [|constructor]. by apply non_terminal_snapshot.
  - unfold has_status, completed_snapshot.
    rewrite lookup_insert_ne by done. apply has_status_snapshot.
  - apply lookup_insert_eq.
  - done.
  - apply sample_records_well_formed.
  - apply sample_records_well_formed.
  - reflexivity.
  - apply disk_ok_sample.
  - exact (f_equal fst Hrun).
Defined.

(** ** The uploader, path by path *)

Lemma setting_missing_dec settings :
  setting_missing settings
  ∨ (r2_bucket_name settings ≠ ""
     ∧ r2_access_key_id settings ≠ ""
     ∧ r2_secret_access_key settings ≠ "").
Proof.
  unfold setting_missing.
  destruct (decide (r2_bucket_name settings = "")); [by left; left|].
  destruct (decide (r2_access_key_id settings = "")); [by left; right; left|].
  destruct (decide (r2_secret_access_key settings = ""));
    [by left; right; right|by right].
Qed.

Lemma not_setting_missing settings :
  r2_bucket_name settings ≠ "" →
  r2_access_key_id settings ≠ "" →
  r2_secret_access_key settings ≠ "" →
  ¬ setting_missing settings.
Proof. intros Hb Ha Hs [?|[?|?]]; done. Qed.

Section uploader_paths.
Context (E : env) (settings : Settings).

(** One iteration, event by event. *)
Lemma upload_one_trace p s f σ :
  upload_one E settings p s f σ
  = (Ok (if upload_fails E p then (s, f + 1) else (s + 1, f)),
     add_events σ (upload_events E settings p)).
Proof.
  unfold upload_one, upload_file, upload_fails, upload_events, upload_report,
    upload_of.
  mstep.
  destruct (upload_fault E p) as [e|]; [destruct e|];
    unfold add_events; cbn [fs uuids_drawn trace];
    by rewrite <- !app_assoc.
Qed.

(** The loop, event by event: the iterations follow one another, none
    is cut short by a failure. *)
Lemma upload_each_trace files s f σ :
  upload_each E settings files s f σ
  = (Ok (s + (length files - length (List.filter (upload_fails E) files)),
         f + length (List.filter (upload_fails E) files)),
     add_events σ (files ≫= upload_events E settings)).
Proof.
  revert s f σ. induction files as [|p files IH]; intros s f σ.
  - rewrite add_events_nil. simpl. by rewrite !Nat.add_0_r.
  - pose proof (List.filter_length_le (upload_fails E) files) as Hle.
    cbn [upload_each List.filter]. mstep.
    rewrite upload_one_trace, bind_cons.
    destruct (upload_fails E p); cbn [fst snd];
      rewrite IH, add_events_app;
      apply (f_equal (λ c, (Ok c, _)));
      cbn [length]; apply pair_equal_spec; split; lia.
Qed.

Lemma loop_uploads files :
  uploads (files ≫= upload_events E settings) = upload_of settings <$> files.
Proof.
  induction files as [|p files IH]; [done|].
  rewrite bind_cons, uploads_app, IH, fmap_cons.
  unfold upload_events, upload_report.
  by destruct (upload_fault E p) as [[]|].
Qed.

Lemma loop_errors files :
  length (logged ERROR (files ≫= upload_events E settings))
  = length (List.filter (upload_fails E) files).
Proof.
  induction files as [|p files IH]; [done|].
  rewrite bind_cons, logged_app, length_app, IH. cbn [List.filter].
  unfold upload_events, upload_report, upload_fails.
  by destruct (upload_fault E p) as [[]|].
Qed.

Lemma loop_debugs files :
  length (logged DEBUG (files ≫= upload_events E settings)) = length files.
Proof.
  induction files as [|p files IH]; [done|].
  rewrite bind_cons, logged_app, length_app, IH.
  unfold upload_events, upload_report.
  by destruct (upload_fault E p) as [[]|].
Qed.

Lemma loop_warnings files :
  logged WARNING (files ≫= upload_events E settings) = [].
Proof.
  induction files as [|p files IH]; [done|].
  rewrite bind_cons, logged_app, IH.
  unfold upload_events, upload_report.
  by destruct (upload_fault E p) as [[]|].
Qed.

Lemma loop_quiet files :
  written (files ≫= upload_events E settings) = []
  ∧ sleeps (files ≫= upload_events E settings) = []
  ∧ fetches (files ≫= upload_events E settings) = 0.
Proof.
  induction files as [|p files (IHw & IHs & IHf)]; [done|].
  rewrite bind_cons, written_app, sleeps_app, fetches_app, IHw, IHs, IHf.
  unfold upload_events, upload_report.
  by destruct (upload_fault E p) as [[]|].
Qed.

Lemma loop_no_configuration_error files :
  Log ERROR MissingR2Configuration ∉ files ≫= upload_events E settings.
Proof.
  intros (p & Hev & _)%list_elem_of_bind. revert Hev.
  unfold upload_events, upload_report.
  destruct (upload_fault E p) as [[]|]; not_in_events.
Qed.

Lemma loop_no_summary files :
  Log INFO UploadSummaryHeader ∉ files ≫= upload_events E settings.
Proof.
  intros (p & Hev & _)%list_elem_of_bind. revert Hev.
  unfold upload_events, upload_report.
  destruct (upload_fault E p) as [[]|]; not_in_events.
Qed.

Lemma listed_uploads files :
  uploads (listed_events E settings files) = upload_of settings <$> files.
Proof.
  destruct files as [|p files]; [done|]. unfold listed_events.
  rewrite !uploads_app, loop_uploads. cbn [uploads List.filter app upload_summary].
  by rewrite app_nil_r.
Qed.

Lemma listed_quiet files :
  written (listed_events E settings files) = []
  ∧ sleeps (listed_events E settings files) = []
  ∧ fetches (listed_events E settings files) = 0.
Proof.
  destruct files as [|p files]; [done|]. unfold listed_events.
  destruct (loop_quiet (p :: files)) as (Hw & Hs & Hf).
  by rewrite !written_app, !sleeps_app, !fetches_app, Hw, Hs, Hf.
Qed.

Lemma listed_errors files :
  length (logged ERROR (listed_events E settings files))
  = length (List.filter (upload_fails E) files).
Proof.
  destruct files as [|p files]; [done|]. unfold listed_events.
  rewrite !logged_app, !length_app, loop_errors.
  cbn [logged omap list_omap level_eqb upload_summary length]. lia.
Qed.

Lemma listed_debugs files :
  length (logged DEBUG (listed_events E settings files)) = length files.
Proof.
  destruct files as [|p files]; [done|]. unfold listed_events.
  rewrite !logged_app, !length_app, loop_debugs.
  cbn [logged omap list_omap level_eqb upload_summary length]. lia.
Qed.

Lemma listed_warnings files :
  logged WARNING (listed_events E settings files) = [] ↔ files ≠ [].
Proof.
  destruct files as [|p files]; [done|]. unfold listed_events.
  by rewrite !logged_app, loop_warnings.
Qed.

Lemma listed_no_configuration_error files :
  Log ERROR MissingR2Configuration ∉ listed_events E settings files.
Proof.
  destruct files as [|p files]; [not_in_events|]. unfold listed_events.
  intros Hin.
  apply elem_of_app in Hin as [Hin|Hin]; [revert Hin; not_in_events|].
  apply elem_of_app in Hin as [Hin|Hin].
  - by apply loop_no_configuration_error in Hin.
  - revert Hin. not_in_events.
Qed.

Lemma listed_failed_reported files :
  files ≠ [] →
  Log INFO (FailedUploads (length (List.filter (upload_fails E) files)))
  ∈ listed_events E settings files.
Proof.
  destruct files as [|p files]; [done|]. intros _. unfold listed_events.
  rewrite !elem_of_app. right. right.
  apply elem_of_cons. right. apply elem_of_cons. right. by left.
Qed.

(** A run that passes every check, event by event. *)
Lemma upload_files_to_r2_ready_trace σ :
  ready E settings σ →
  upload_files_to_r2 E settings σ
  = (Ok tt,
     add_events σ
       (upload_preamble E settings
        ++ listed_events E settings (glob_html (fs σ) (CRAWL_OUTPUT_DIR E)))).
Proof.
  intros Hready. rewrite (upload_files_to_r2_ready E settings σ Hready).
  destruct (glob_html (fs σ) (CRAWL_OUTPUT_DIR E)) as [|p files]; [done|].
  cbn iota beta zeta. rewrite upload_each_trace. cbn [fst snd].
  rewrite !add_events_app, !Nat.add_0_l. unfold listed_events.
  by rewrite <- !app_assoc.
Qed.

(** The client cannot be created: the exception is swallowed and the
    directory is not even listed. *)
Lemma upload_files_to_r2_no_client σ e :
  ¬ setting_missing settings →
  stat_fault E (CRAWL_OUTPUT_DIR E) = None →
  is_dir (fs σ) (CRAWL_OUTPUT_DIR E) = true →
  client_fault E ("https://" +:+ r2_account_id settings
                  +:+ ".r2.cloudflarestorage.com") = Some e →
  upload_files_to_r2 E settings σ
  = (Ok tt,
     add_events σ
       [Log INFO (ConnectingToR2 (r2_bucket_name settings)
                    ("https://" +:+ r2_account_id settings
                     +:+ ".r2.cloudflarestorage.com"));
        Log ERROR (FailedToCreateR2Client e)]).
Proof.
  intros Hm Hst Hdir Hc.
  destruct (setting_missing_dec settings) as [?|(Hb & Ha & Hs)]; [done|].
  unfold upload_files_to_r2, path_is_dir.
  rewrite endpoint_url_truthy, !str_falsy_nonempty by done.
  cbn [orb]. mstep. rewrite Hst. mstep. rewrite Hdir. cbn [negb]. mstep.
  rewrite Hc. mstep.
  unfold add_events. cbn [fs uuids_drawn trace]. by rewrite <- !app_assoc.
Qed.

(** The directory cannot be listed: an [OSError] is swallowed, anything
    else leaves the function. *)
Lemma upload_files_to_r2_no_listing σ e :
  ¬ setting_missing settings →
  stat_fault E (CRAWL_OUTPUT_DIR E) = None →
  is_dir (fs σ) (CRAWL_OUTPUT_DIR E) = true →
  client_fault E ("https://" +:+ r2_account_id settings
                  +:+ ".r2.cloudflarestorage.com") = None →
  glob_fault E (CRAWL_OUTPUT_DIR E) = Some e →
  upload_files_to_r2 E settings σ
  = if is_OSError e
    then (Ok tt,
          add_events σ
            (upload_preamble E settings
             ++ [Log ERROR (ErrorAccessingDirectory (CRAWL_OUTPUT_DIR E) e)]))
    else (Raise e, add_events σ (upload_preamble E settings)).
Proof.
  intros Hm Hst Hdir Hc Hg.
  destruct (setting_missing_dec settings) as [?|(Hb & Ha & Hs)]; [done|].
  unfold upload_files_to_r2, path_is_dir.
  rewrite endpoint_url_truthy, !str_falsy_nonempty by done.
  cbn [orb]. mstep. rewrite Hst. mstep. rewrite Hdir. cbn [negb]. mstep.
  rewrite Hc. mstep. rewrite Hg. mstep.
  destruct (is_OSError e); mstep;
    unfold add_events, upload_preamble; cbn [fs uuids_drawn trace];
    by rewrite <- !app_assoc.
Qed.

(** Every run takes exactly one of seven paths. *)
Lemma upload_files_to_r2_cases σ :
  (setting_missing settings
   ∧ upload_files_to_r2 E settings σ
     = (Ok tt, add_events σ [Log ERROR MissingR2Configuration]))
  ∨ (¬ setting_missing settings
     ∧ ∃ e, stat_fault E (CRAWL_OUTPUT_DIR E) = Some e
            ∧ upload_files_to_r2 E settings σ = (Raise e, add_events σ []))
  ∨ (¬ setting_missing settings
     ∧ stat_fault E (CRAWL_OUTPUT_DIR E) = None
     ∧ is_dir (fs σ) (CRAWL_OUTPUT_DIR E) = false
     ∧ upload_files_to_r2 E settings σ
       = (Ok tt,
          add_events σ [Log ERROR (DirectoryNotFound (CRAWL_OUTPUT_DIR E))]))
  ∨ (¬ setting_missing settings
     ∧ stat_fault E (CRAWL_OUTPUT_DIR E) = None
     ∧ is_dir (fs σ) (CRAWL_OUTPUT_DIR E) = true
     ∧ ∃ e, client_fault E ("https://" +:+ r2_account_id settings
                            +:+ ".r2.cloudflarestorage.com") = Some e
            ∧ upload_files_to_r2 E settings σ
              = (Ok tt,
                 add_events σ
                   [Log INFO (ConnectingToR2 (r2_bucket_name settings)
                                ("https://" +:+ r2_account_id settings
                                 +:+ ".r2.cloudflarestorage.com"));
                    Log ERROR (FailedToCreateR2Client e)]))
  ∨ (¬ setting_missing settings
     ∧ stat_fault E (CRAWL_OUTPUT_DIR E) = None
     ∧ is_dir (fs σ) (CRAWL_OUTPUT_DIR E) = true
     ∧ client_fault E ("https://" +:+ r2_account_id settings
                       +:+ ".r2.cloudflarestorage.com") = None
     ∧ ∃ e, glob_fault E (CRAWL_OUTPUT_DIR E) = Some e
            ∧ is_OSError e = true
            ∧ upload_files_to_r2 E settings σ
              = (Ok tt,
                 add_events σ
                   (upload_preamble E settings
                    ++ [Log ERROR
                          (ErrorAccessingDirectory (CRAWL_OUTPUT_DIR E) e)])))
  ∨ (¬ setting_missing settings
     ∧ stat_fault E (CRAWL_OUTPUT_DIR E) = None
     ∧ is_dir (fs σ) (CRAWL_OUTPUT_DIR E) = true
     ∧ client_fault E ("https://" +:+ r2_account_id settings
                       +:+ ".r2.cloudflarestorage.com") = None
     ∧ ∃ e, glob_fault E (CRAWL_OUTPUT_DIR E) = Some e
            ∧ is_OSError e = false
            ∧ upload_files_to_r2 E settings σ
              = (Raise e, add_events σ (upload_preamble E settings)))
  ∨ ready E settings σ.
Proof.
  destruct (setting_missing_dec settings) as [Hm|(Hb & Ha & Hs)].
  { left. split; [done|]. by apply upload_files_to_r2_missing_setting. }
  pose proof (not_setting_missing settings Hb Ha Hs) as Hm.
  right.
  destruct (stat_fault E (CRAWL_OUTPUT_DIR E)) as [e|] eqn:Hst.
  { left. split; [done|]. exists e. split; [done|].
    rewrite add_events_nil. by apply upload_files_to_r2_stat_fault. }
  right.
  destruct (is_dir (fs σ) (CRAWL_OUTPUT_DIR E)) eqn:Hdir; cycle 1.
  { left. split; [done|]. split; [done|]. split; [done|].
    by apply upload_files_to_r2_missing_directory. }
  right.
  destruct (client_fault E ("https://" +:+ r2_account_id settings
                            +:+ ".r2.cloudflarestorage.com"))
    as [e|] eqn:Hc.
  { left. split; [done|]. split; [done|]. split; [done|].
    exists e. split; [done|]. by apply upload_files_to_r2_no_client. }
  right.
  destruct (glob_fault E (CRAWL_OUTPUT_DIR E)) as [e|] eqn:Hg.
  { pose proof (upload_files_to_r2_no_listing σ e Hm Hst Hdir Hc Hg) as Hrun.
    destruct (is_OSError e) eqn:Hos.
    - left. repeat (split; [done|]). exists e. by repeat split.
    - right. left. repeat (split; [done|]). exists e. by repeat split. }
  right. right. by repeat split.
Qed.
End uploader_paths.

(** Which entries the listing returns. *)
Lemma elem_of_glob_html f dir p :
  p ∈ glob_html f dir ↔ html_entry f dir p.
Proof.
  unfold glob_html, html_entry, name. rewrite list_elem_of_filter.
  split.
  - intros ((Hne & Hdir & Hsuffix) & Hin).
    apply list_elem_of_fmap in Hin as ([q x] & -> & Hin).
    apply elem_of_map_to_list in Hin. cbn [fst] in *.
    exists (List.last q ""). rewrite <- Hdir.
    split; [by apply app_removelast_last|]. split; [by eexists|done].
  - intros (file & -> & [x Hx] & Hsuffix).
    rewrite removelast_last, last_last.
    split; [split; [by destruct dir|done]|].
    apply list_elem_of_fmap. exists (dir ++ [file], x). split; [done|].
    by apply elem_of_map_to_list.
Qed.

Lemma upload_of_inj settings : Inj (=) (=) (upload_of settings).
Proof. by intros p q [= ->]. Qed.

(** C2, where the code departs from it.  The guard never sees an
    empty account id, because the endpoint URL built around it is not
    an empty string.  With [R2_ACCOUNT_ID] empty and the three other
    settings present, the configuration error is therefore never
    reported, whatever the disk, the storage library and the store do.
    A missing directory is reported as not found, and that is all; when
    the directory is there, the run announces the connection to
    [https://.r2.cloudflarestorage.com] and hands that endpoint to the
    storage client's constructor.  When the constructor refuses it, as
    botocore does with a host name that starts with an empty label,
    nothing is uploaded, and what is reported is that the client could
    not be created. *)
Theorem empty_account_id_escapes_the_configuration_check (E : env)
    (settings : Settings) (σ : state) :
  r2_account_id settings = "" →
  ¬ setting_missing settings →
  ∃ evs,
    (upload_files_to_r2 E settings σ).2 = add_events σ evs
    ∧ (Log ERROR MissingR2Configuration ∉ evs)
    ∧ (stat_fault E (CRAWL_OUTPUT_DIR E) = None →
       is_dir (fs σ) (CRAWL_OUTPUT_DIR E) = false →
       (upload_files_to_r2 E settings σ).1 = Ok tt
       ∧ evs = [Log ERROR (DirectoryNotFound (CRAWL_OUTPUT_DIR E))])
    ∧ (stat_fault E (CRAWL_OUTPUT_DIR E) = None →
       is_dir (fs σ) (CRAWL_OUTPUT_DIR E) = true →
       head evs
       = Some (Log INFO (ConnectingToR2 (r2_bucket_name settings)
                           "https://.r2.cloudflarestorage.com"))
       ∧ ∀ e, client_fault E "https://.r2.cloudflarestorage.com" = Some e →
              (upload_files_to_r2 E settings σ).1 = Ok tt
              ∧ evs = [Log INFO (ConnectingToR2 (r2_bucket_name settings)
                                   "https://.r2.cloudflarestorage.com");
                       Log ERROR (FailedToCreateR2Client e)]
              ∧ uploads evs = []).
Proof.
  intros Hacc Hm.
  assert (Hurl : "https://" +:+ r2_account_id settings
                 +:+ ".r2.cloudflarestorage.com"
                 = "https://.r2.cloudflarestorage.com") by by rewrite Hacc.
  destruct (upload_files_to_r2_cases E settings σ)
    as [(? & _)|[(_ & e & Hst & ->)|[(_ & Hst & Hdir & ->)
       |[(_ & Hst & Hdir & e & Hc & ->)
       |[(_ & Hst & Hdir & Hc & e & _ & _ & ->)
       |[(_ & Hst & Hdir & Hc & e & _ & _ & ->)|Hready]]]]]]; [done|..].
  - eexists. split; [reflexivity|]. split; [not_in_events|].
    split; intros Hst'; by rewrite Hst in Hst'.
  - eexists. split; [reflexivity|]. split; [not_in_events|].
    split; [done|]. intros _ Hdir'. by rewrite Hdir in Hdir'.
  - rewrite Hurl in *. eexists. split; [reflexivity|].
    split; [not_in_events|]. split.
    + intros _ Hdir'. by rewrite Hdir in Hdir'.
    + intros _ _. split; [done|]. intros e' He'.
      rewrite Hc in He'. by injection He' as ->.
  - rewrite Hurl in *. eexists. split; [reflexivity|].
    split; [unfold upload_preamble; rewrite Hurl; not_in_events|]. split.
    + intros _ Hdir'. by rewrite Hdir in Hdir'.
    + intros _ _. split; [by unfold upload_preamble; rewrite Hurl|].
      intros e' He'. by rewrite Hc in He'.
  - rewrite Hurl in *. eexists. split; [reflexivity|].
    split; [unfold upload_preamble; rewrite Hurl; not_in_events|]. split.
    + intros _ Hdir'. by rewrite Hdir in Hdir'.
    + intros _ _. split; [by unfold upload_preamble; rewrite Hurl|].
      intros e' He'. by rewrite Hc in He'.
  - rewrite (upload_files_to_r2_ready_trace E settings σ Hready).
    destruct Hready as (_ & _ & _ & Hst & Hdir & Hc & _).
    rewrite Hurl in Hc.
    eexists. split; [reflexivity|]. split; [|split].
    + intros Hin.
      apply elem_of_app in Hin as [Hin|Hin]; [revert Hin; not_in_events|].
      by apply listed_no_configuration_error in Hin.
    + intros _ Hdir'. by rewrite Hdir in Hdir'.
    + intros _ _. split; [by unfold upload_preamble; rewrite Hurl|].
      intros e' He'. by rewrite Hc in He'.
Qed.

(** Two pages wait in the directory, the account id is empty, and the
    storage library refuses the endpoint: no configuration error, no
    upload, and the failure to create the client as the only error. *)
Lemma empty_account_id_escapes_the_configuration_check_witness :
  upload_files_to_r2 strict_client_env no_account_settings two_pages_state
  = (Ok tt,
     add_events two_pages_state
       [Log INFO (ConnectingToR2 "test-bucket"
                    "https://.r2.cloudflarestorage.com");
        Log ERROR (FailedToCreateR2Client ValueError)])
  ∧ (Log ERROR MissingR2Configuration
     ∉ trace (upload_files_to_r2 strict_client_env no_account_settings
                two_pages_state).2).
Proof.
  destruct (empty_account_id_escapes_the_configuration_check
              strict_client_env no_account_settings two_pages_state)
    as (evs & Hstate & Hno & _ & Hthere); [done|by intros [?|[?|?]]|].
  destruct Hthere as (_ & Hrefused); [done|done|].
  destruct (Hrefused ValueError) as (Hok & Hevs & _); [done|].
  destruct (upload_files_to_r2 strict_client_env no_account_settings
              two_pages_state) as [o σ'].
  cbn [fst snd] in *. subst o σ' evs. split; [done|].
  cbn [add_events trace two_pages_state app]. not_in_events.
Defined.

(** X13. The uploader only reads the local machine: whatever the
    settings, the disk and the store do, and whether the run returns or
    raises, the file system and the UUID generator are as they were, no
    file has been written, nothing has been slept and the crawl service
    has not been contacted. *)
Theorem uploader_leaves_local_state_alone (E : env) (settings : Settings)
    (σ : state) :
  fs (upload_files_to_r2 E settings σ).2 = fs σ
  ∧ uuids_drawn (upload_files_to_r2 E settings σ).2 = uuids_drawn σ
  ∧ ∃ evs,
      trace (upload_files_to_r2 E settings σ).2 = trace σ ++ evs
      ∧ written evs = [] ∧ sleeps evs = [] ∧ fetches evs = 0.
Proof.
  destruct (upload_files_to_r2_cases E settings σ)
    as [(_ & ->)|[(_ & e & _ & ->)|[(_ & _ & _ & ->)
       |[(_ & _ & _ & e & _ & ->)|[(_ & _ & _ & _ & e & _ & _ & ->)
       |[(_ & _ & _ & _ & e & _ & _ & ->)|Hready]]]]]];
    try (split; [done|]; split; [done|]; eexists; split; [reflexivity|done]).
  rewrite (upload_files_to_r2_ready_trace E settings σ Hready).
  split; [done|]. split; [done|].
  match goal with |- context [add_events σ ?l] => exists l end.
  split; [done|].
  destruct (listed_quiet E settings (glob_html (fs σ) (CRAWL_OUTPUT_DIR E)))
    as (Hw & Hs & Hf).
  by rewrite written_app, sleeps_app, fetches_app, Hw, Hs, Hf.
Qed.

(** X14. An exception leaves [upload_files_to_r2] in two cases only,
    both with the three checked settings present: the directory could
    not be examined, the call to [is_dir] standing outside any [try];
    or the directory exists, the client was created, and listing the
    directory raised something that is not an [OSError].  A failure to
    create the client, an [OSError] from the listing and every failure
    of an upload are swallowed. *)
Theorem uploader_raises_only_from_the_directory (E : env)
    (settings : Settings) (σ : state) (e : exn) :
  (upload_files_to_r2 E settings σ).1 = Raise e
  ↔ ¬ setting_missing settings
    ∧ (stat_fault E (CRAWL_OUTPUT_DIR E) = Some e
       ∨ (stat_fault E (CRAWL_OUTPUT_DIR E) = None
          ∧ is_dir (fs σ) (CRAWL_OUTPUT_DIR E) = true
          ∧ client_fault E ("https://" +:+ r2_account_id settings
                            +:+ ".r2.cloudflarestorage.com") = None
          ∧ glob_fault E (CRAWL_OUTPUT_DIR E) = Some e
          ∧ is_OSError e = false)).
Proof.
  split.
  - destruct (upload_files_to_r2_cases E settings σ)
      as [(_ & ->)|[(Hm & e' & Hst & ->)|[(_ & _ & _ & ->)
         |[(_ & _ & _ & e' & _ & ->)|[(_ & _ & _ & _ & e' & _ & _ & ->)
         |[(Hm & Hst & Hdir & Hc & e' & Hg & Hos & ->)|Hready]]]]]];
      try done.
    + intros [= <-]. split; [done|]. by left.
    + intros [= <-]. split; [done|]. right. by repeat split.
    + by rewrite (upload_files_to_r2_ready_trace E settings σ Hready).
  - intros (Hm & [Hst|(Hst & Hdir & Hc & Hg & Hos)]).
    + destruct (setting_missing_dec settings) as [?|(Hb & Ha & Hs)]; [done|].
      by rewrite (upload_files_to_r2_stat_fault E settings σ e Hb Ha Hs Hst).
    + by rewrite (upload_files_to_r2_no_listing E settings σ e Hm Hst Hdir
                    Hc Hg), Hos.
Qed.

(** The directory may not be searched; the listing breaks with a
    [RuntimeError]. *)
Lemma uploader_raises_only_from_the_directory_witness :
  (upload_files_to_r2 locked_dir_env sample_settings empty_dir_state).1
  = Raise PermissionError
  ∧ (upload_files_to_r2 broken_listing_env sample_settings empty_dir_state).1
    = Raise RuntimeError.
Proof.
  split.
  - apply uploader_raises_only_from_the_directory.
    split; [by intros [?|[?|?]]|]. by left.
  - apply uploader_raises_only_from_the_directory.
    split; [by intros [?|[?|?]]|]. right. by repeat split.
Defined.

(** X15. Nothing is sent unless every check passes.  When a checked
    setting is empty, the directory is missing or cannot be examined,
    the client cannot be created or the directory cannot be listed, no
    upload is attempted,
    no summary and no warning is logged; the run either returns having
    logged exactly one error, or raises having logged none. *)
Theorem no_upload_unless_ready (E : env) (settings : Settings) (σ : state) :
  ¬ ready E settings σ →
  ∃ evs,
    (upload_files_to_r2 E settings σ).2 = add_events σ evs
    ∧ uploads evs = []
    ∧ logged WARNING evs = []
    ∧ (Log INFO UploadSummaryHeader ∉ evs)
    ∧ match (upload_files_to_r2 E settings σ).1 with
      | Ok _ => length (logged ERROR evs) = 1
      | Raise _ => logged ERROR evs = []
      end.
Proof.
  intros Hnot.
  destruct (upload_files_to_r2_cases E settings σ)
    as [(_ & ->)|[(_ & e & _ & ->)|[(_ & _ & _ & ->)
       |[(_ & _ & _ & e & _ & ->)|[(_ & _ & _ & _ & e & _ & _ & ->)
       |[(_ & _ & _ & _ & e & _ & _ & ->)|Hready]]]]]];
    [..|done];
    (eexists; split; [reflexivity|]; repeat split; try done; not_in_events).
Qed.

(** No [crawled_html] next to the script. *)
Lemma no_upload_unless_ready_witness :
  ∃ evs,
    upload_files_to_r2 sample_env sample_settings empty_state
    = (Ok tt, add_events empty_state evs)
    ∧ uploads evs = [] ∧ length (logged ERROR evs) = 1.
Proof.
  destruct (no_upload_unless_ready sample_env sample_settings empty_state)
    as (evs & Hrun & Hu & _ & _ & Herr).
  - by intros (_ & _ & _ & _ & Hdir & _).
  - exists evs.
    destruct (upload_files_to_r2 sample_env sample_settings empty_state)
      as [[[]|e] σ'] eqn:Hrun'; [|by vm_compute in Hrun'].
    cbn [fst snd] in *. by rewrite Hrun.
Defined.

(** X16. What is sent.  In a run that passes every check, the attempts
    are made with the configured bucket, the file's own name as key and
    the content type [text/html], and a path is attempted exactly when
    it is an entry directly under [crawled_html] whose name ends in
    [.html]: entries further down are not looked at, other names are
    left out, and a directory with such a name is attempted like a
    file. *)
Theorem attempted_files_are_the_html_entries (E : env) (settings : Settings)
    (σ : state) :
  ready E settings σ →
  ∃ evs,
    upload_files_to_r2 E settings σ = (Ok tt, add_events σ evs)
    ∧ (∀ ev, ev ∈ uploads evs →
         ∃ p, ev = UploadFile p (r2_bucket_name settings) (name p) "text/html")
    ∧ (∀ p, upload_of settings p ∈ uploads evs
            ↔ html_entry (fs σ) (CRAWL_OUTPUT_DIR E) p).
Proof.
  intros Hready.
  rewrite (upload_files_to_r2_ready_trace E settings σ Hready).
  eexists. split; [reflexivity|].
  rewrite uploads_app, listed_uploads. cbn [uploads upload_preamble List.filter app].
  split.
  - intros ev (p & -> & _)%list_elem_of_fmap. by exists p.
  - intros p. rewrite <- elem_of_glob_html. split.
    + intros (q & Heq & Hq)%list_elem_of_fmap.
      by apply upload_of_inj in Heq as ->.
    + intros Hp. apply list_elem_of_fmap. by exists p.
Qed.

(** A page, a directory named like a page, and a page one level down. *)
Lemma attempted_files_are_the_html_entries_witness :
  ∃ evs,
    upload_files_to_r2 sample_env sample_settings nested_state
    = (Ok tt, add_events nested_state evs)
    ∧ (upload_of sample_settings ["srv"; "crawled_html"; "old.html"]
       ∈ uploads evs)
    ∧ (upload_of sample_settings ["srv"; "crawled_html"; "old.html"; "c.html"]
       ∉ uploads evs).
Proof.
  destruct (attempted_files_are_the_html_entries sample_env sample_settings
              nested_state) as (evs & Hrun & _ & Hiff).
  - by repeat split.
  - exists evs. split; [exact Hrun|]. split.
    + apply Hiff. exists "old.html". split; [done|]. split; [|done].
      by eexists.
    + intros (file & Heq & _)%Hiff.
      change (CRAWL_OUTPUT_DIR sample_env) with ["srv"; "crawled_html"] in Heq.
      discriminate Heq.
Defined.

(** X17. The log agrees with the counters.  In a run that passes every
    check there is one debug line per listed file and one error line
    per failed upload, the number the summary reports as failed; a
    warning is logged exactly when nothing was listed. *)
Theorem error_lines_count_failed_uploads (E : env) (settings : Settings)
    (σ : state) :
  ready E settings σ →
  ∃ evs,
    upload_files_to_r2 E settings σ = (Ok tt, add_events σ evs)
    ∧ length (logged DEBUG evs)
      = length (glob_html (fs σ) (CRAWL_OUTPUT_DIR E))
    ∧ length (logged ERROR evs)
      = length (List.filter (upload_fails E)
                  (glob_html (fs σ) (CRAWL_OUTPUT_DIR E)))
    ∧ (logged WARNING evs = []
       ↔ glob_html (fs σ) (CRAWL_OUTPUT_DIR E) ≠ [])
    ∧ (glob_html (fs σ) (CRAWL_OUTPUT_DIR E) ≠ [] →
       Log INFO (FailedUploads (length (logged ERROR evs))) ∈ evs).
Proof.
  intros Hready.
  rewrite (upload_files_to_r2_ready_trace E settings σ Hready).
  eexists. split; [reflexivity|].
  rewrite !logged_app, !length_app, listed_debugs, listed_errors.
  cbn [logged omap list_omap level_eqb upload_preamble app length Nat.add].
  split; [done|]. split; [done|]. split; [apply listed_warnings|].
  intros Hne. do 3 (apply elem_of_cons; right).
  by apply listed_failed_reported.
Qed.

(** Two pages, of which the store refuses one. *)
Lemma error_lines_count_failed_uploads_witness :
  ∃ evs,
    upload_files_to_r2 flaky_store_env sample_settings two_pages_state
    = (Ok tt, add_events two_pages_state evs)
    ∧ length (logged DEBUG evs) = 2
    ∧ length (logged ERROR evs) = 1.
Proof.
  destruct (error_lines_count_failed_uploads flaky_store_env sample_settings
              two_pages_state) as (evs & Hrun & Hd & He & _).
  - by repeat split.
  - exists evs. split; [exact Hrun|]. rewrite Hd, He. clear.
    vm_compute. split; reflexivity.
Defined.

(** X18. The configuration error is logged exactly when the bucket
    name, the access key or the secret key is empty, and then it is all
    the run does.  The account id plays no part: whatever it is, empty
    included, it neither causes the error nor prevents it. *)
Theorem configuration_error_iff_setting_missing (E : env)
    (settings : Settings) (σ : state) :
  ∃ evs,
    (upload_files_to_r2 E settings σ).2 = add_events σ evs
    ∧ (Log ERROR MissingR2Configuration ∈ evs ↔ setting_missing settings)
    ∧ (setting_missing settings →
       (upload_files_to_r2 E settings σ).1 = Ok tt
       ∧ evs = [Log ERROR MissingR2Configuration]).
Proof.
  destruct (upload_files_to_r2_cases E settings σ)
    as [(Hm & ->)|[(Hm & e & _ & ->)|[(Hm & _ & _ & ->)
       |[(Hm & _ & _ & e & _ & ->)|[(Hm & _ & _ & _ & e & _ & _ & ->)
       |[(Hm & _ & _ & _ & e & _ & _ & ->)|Hready]]]]]].
  - eexists. split; [reflexivity|]. split; [|done].
    split; [done|]. intros _. by left.
  - eexists. split; [reflexivity|]. split; [|done].
    split; [not_in_events|done].
  - eexists. split; [reflexivity|]. split; [|done].
    split; [not_in_events|done].
  - eexists. split; [reflexivity|]. split; [|done].
    split; [not_in_events|done].
  - eexists. split; [reflexivity|]. split; [|done].
    split; [not_in_events|done].
  - eexists. split; [reflexivity|]. split; [|done].
    split; [not_in_events|done].
  - rewrite (upload_files_to_r2_ready_trace E settings σ Hready).
    destruct Hready as (Hb & Ha & Hs & _).
    pose proof (not_setting_missing settings Hb Ha Hs) as Hm.
    eexists. split; [reflexivity|]. split; [|done].
    split; [|done]. intros Hin. exfalso.
    apply elem_of_app in Hin as [Hin|Hin]; [revert Hin; not_in_events|].
    by apply listed_no_configuration_error in Hin.
Qed.

(** ** Settings and logging *)

Lemma canonical_nonempty n : canonical n ≠ "".
Proof. unfold canonical. by destruct (String.eqb_spec n ""). Qed.

Lemma canonical_idemp n : canonical (canonical n) = canonical n.
Proof.
  unfold canonical at 1. destruct (String.eqb_spec (canonical n) ""); [|done].
  by destruct (canonical_nonempty n).
Qed.

Lemma canonical_root : canonical "root" = "root".
Proof. done. Qed.

Lemma canonical_id n : n ≠ "" → canonical n = n.
Proof. intros Hn. unfold canonical. by destruct (String.eqb_spec n ""). Qed.

(** The logger's content after an update of one logger. *)
Lemma getLogger_update_logger L a f n :
  getLogger (update_logger L a f) n
  = if decide (canonical n = canonical a) then f (getLogger L a)
    else getLogger L n.
Proof.
  unfold getLogger, update_logger. cbn [loggers].
  destruct (decide (canonical n = canonical a)) as [->|Hne].
  - by rewrite lookup_insert_eq.
  - by rewrite lookup_insert_ne.
Qed.

Lemma handlers_created_update_logger L a f :
  handlers_created (update_logger L a f) = handlers_created L.
Proof. done. Qed.

Lemma handlers_setLevel L a lvl n :
  handlers (getLogger (setLevel L a lvl) n) = handlers (getLogger L n).
Proof.
  unfold setLevel. rewrite getLogger_update_logger.
  destruct (decide (canonical n = canonical a)) as [Heq|]; [|done].
  cbn [handlers]. unfold getLogger. by rewrite Heq.
Qed.

Lemma level_setLevel L a lvl n :
  logger_level (getLogger (setLevel L a lvl) n)
  = if decide (canonical n = canonical a) then Some lvl
    else logger_level (getLogger L n).
Proof.
  unfold setLevel. rewrite getLogger_update_logger.
  by destruct (decide (canonical n = canonical a)).
Qed.

Lemma getLogger_canonical_eq L n a :
  canonical n = canonical a → getLogger L n = getLogger L a.
Proof. intros Heq. unfold getLogger. by rewrite Heq. Qed.

(** Removing every handler of a copy of the list, one after the other,
    empties the list, repeated handlers included. *)
Lemma remove_each_empties hs :
  foldl (λ acc h, remove_first (handler_id h) acc) hs hs = [].
Proof.
  induction hs as [|h hs IH]; [done|].
  cbn [foldl remove_first]. by rewrite Nat.eqb_refl.
Qed.

(** The removal loop, seen from any logger. *)
Lemma getLogger_remove_loop L a hs n :
  getLogger (foldl (λ L h, removeHandler L a h) L hs) n
  = if decide (canonical n = canonical a)
    then {| logger_level := logger_level (getLogger L a);
            handlers := foldl (λ acc h, remove_first (handler_id h) acc)
                          (handlers (getLogger L a)) hs |}
    else getLogger L n.
Proof.
  revert L. induction hs as [|h hs IH]; intros L.
  - cbn [foldl]. destruct (decide (canonical n = canonical a)) as [Heq|];
      [|done].
    rewrite (getLogger_canonical_eq L n a Heq). by destruct (getLogger L a).
  - cbn [foldl]. rewrite IH. unfold removeHandler.
    rewrite !getLogger_update_logger.
    destruct (decide (canonical n = canonical a)); [|done].
    by rewrite decide_True by done.
Qed.

Lemma handlers_created_remove_loop L a hs :
  handlers_created (foldl (λ L h, removeHandler L a h) L hs)
  = handlers_created L.
Proof. revert L. induction hs as [|h hs IH]; intros L; [done|]. cbn [foldl]. by rewrite IH. Qed.

Lemma getLogger_new_handler L k lvl f n :
  getLogger (new_handler L k lvl f).2 n = getLogger L n.
Proof. done. Qed.

Lemma getLogger_with_console settings L n :
  getLogger (with_console settings L) n
  = if decide (canonical n = canonical (app_name settings))
    then {| logger_level := Some (log_level settings);
            handlers := [console_handler settings (handlers_created L)] |}
    else getLogger L n.
Proof.
  unfold with_console, addHandler.
  rewrite getLogger_update_logger, !getLogger_new_handler.
  destruct (decide (canonical n = canonical (app_name settings))) as [Heq|Hne].
  - rewrite getLogger_remove_loop, decide_True by done.
    cbn [handlers logger_level]. rewrite remove_each_empties.
    cbn [existsb app]. rewrite level_setLevel. by rewrite decide_True.
  - rewrite getLogger_remove_loop, decide_False by done.
    unfold setLevel. rewrite getLogger_update_logger.
    by rewrite decide_False.
Qed.

Lemma configure_logging_unfold settings L :
  configure_logging settings L
  = setLevel
      (setLevel
         (setLevel
            (setLevel
               (setLevel
                  (setLevel (with_console settings L)
                     "urllib3.connectionpool" WARNING)
                  "uvicorn.access" WARNING)
               "httpx" ERROR)
            "httpx._client" ERROR)
         "httpx._trace" ERROR)
      "logfire" ERROR.
Proof.
  unfold configure_logging, with_console, new_handler, console_handler.
  cbn beta iota zeta. cbn [snd].
  by rewrite handlers_created_remove_loop.
Qed.

Lemma configure_logging_handlers settings L n :
  handlers (getLogger (configure_logging settings L) n)
  = if decide (canonical n = canonical (app_name settings))
    then [console_handler settings (handlers_created L)]
    else handlers (getLogger L n).
Proof.
  rewrite configure_logging_unfold, !handlers_setLevel.
  rewrite getLogger_with_console.
  by destruct (decide (canonical n = canonical (app_name settings))).
Qed.

Lemma configure_logging_level settings L n :
  logger_level (getLogger (configure_logging settings L) n)
  = match silenced (canonical n) with
    | Some lvl => Some lvl
    | None =>
        if decide (canonical n = canonical (app_name settings))
        then Some (log_level settings)
        else logger_level (getLogger L n)
    end.
Proof.
  rewrite configure_logging_unfold, !level_setLevel.
  rewrite getLogger_with_console.
  unfold silenced.
  change (canonical "logfire") with "logfire".
  change (canonical "httpx._trace") with "httpx._trace".
  change (canonical "httpx._client") with "httpx._client".
  change (canonical "httpx") with "httpx".
  change (canonical "uvicorn.access") with "uvicorn.access".
  change (canonical "urllib3.connectionpool") with "urllib3.connectionpool".
  destruct (String.eqb_spec (canonical n) "urllib3.connectionpool") as [->|?];
    [done|].
  destruct (String.eqb_spec (canonical n) "uvicorn.access") as [->|?];
    [done|].
  destruct (String.eqb_spec (canonical n) "httpx") as [->|?]; [done|].
  destruct (String.eqb_spec (canonical n) "httpx._client") as [->|?]; [done|].
  destruct (String.eqb_spec (canonical n) "httpx._trace") as [->|?]; [done|].
  destruct (String.eqb_spec (canonical n) "logfire") as [->|?]; [done|].
  rewrite !decide_False by done.
  by destruct (decide (canonical n = canonical (app_name settings))).
Qed.

Lemma handlers_created_setLevel L a lvl :
  handlers_created (setLevel L a lvl) = handlers_created L.
Proof. done. Qed.

Lemma configure_logging_handlers_created settings L :
  handlers_created (configure_logging settings L) = S (handlers_created L).
Proof.
  rewrite configure_logging_unfold, !handlers_created_setLevel.
  unfold with_console, addHandler, new_handler.
  rewrite handlers_created_update_logger. cbn [snd handlers_created].
  by rewrite handlers_created_remove_loop.
Qed.

(** The names [get_logger] builds are never the root logger's, and
    never the application logger's own. *)
Lemma child_name_nonempty (a b : string) : a +:+ "." +:+ b ≠ "".
Proof. by destruct a. Qed.

Lemma child_name_not_root (a b : string) : a +:+ "." +:+ b ≠ "root".
Proof.
  destruct a as [|c1 [|c2 [|c3 [|c4 [|c5 a]]]]]; cbn; intros [=].
Qed.

Lemma child_name_not_parent (a b : string) : a +:+ "." +:+ b ≠ a.
Proof.
  induction a as [|c a IH]; cbn; [done|]. by intros [= ?].
Qed.

Lemma child_name_canonical (a b : string) :
  canonical (a +:+ "." +:+ b) = a +:+ "." +:+ b.
Proof. apply canonical_id, child_name_nonempty. Qed.

Lemma child_name_not_app (a b : string) :
  a ≠ "root" → canonical (a +:+ "." +:+ b) ≠ canonical a.
Proof.
  intros Hroot. rewrite child_name_canonical. unfold canonical.
  destruct (String.eqb_spec a "") as [->|?].
  - apply child_name_not_root.
  - apply child_name_not_parent.
Qed.

Lemma debug_set_debug settings :
  debug (set_debug settings) = Some (debug_mode settings).
Proof.
  unfold set_debug, debug_mode. by destruct (debug settings) eqn:Hd.
Qed.

Lemma app_name_set_debug settings :
  app_name (set_debug settings) = app_name settings.
Proof. unfold set_debug. by destruct (debug settings). Qed.

Lemma Environment_eqb_eq a b : Environment_eqb a b = true ↔ a = b.
Proof. by destruct a, b. Qed.

Lemma getLogger_handlers_created L k n :
  getLogger {| loggers := loggers L; handlers_created := k |} n
  = getLogger L n.
Proof. done. Qed.

(** What one call of [get_logger] does to the logger it names. *)
Lemma get_logger_run settings name L :
  get_logger settings name L
  = (app_name settings +:+ "." +:+ name,
     match handlers (getLogger L (app_name settings +:+ "." +:+ name)),
           handlers (getLogger L "root") with
     | [], [] =>
         update_logger
           {| loggers := loggers L;
              handlers_created := S (handlers_created L) |}
           (app_name settings +:+ "." +:+ name)
           (λ l, {| logger_level := logger_level l;
                    handlers :=
                      [{| handler_id := handlers_created L;
                          kind := NullHandler;
                          handler_level := None;
                          handler_formatter := None |}] |})
     | _, _ => L
     end).
Proof.
  unfold get_logger, new_handler, addHandler, update_logger.
  cbn beta iota zeta. cbn [loggers handlers_created].
  change (getLogger {| loggers := loggers L;
                       handlers_created := S (handlers_created L) |})
    with (getLogger L).
  destruct (handlers (getLogger L (app_name settings +:+ "." +:+ name)))
    as [|h hs] eqn:Hown; [|done].
  destruct (handlers (getLogger L "root")) as [|r rs]; [|done].
  cbn [andb existsb app]. done.
Qed.

(** X19. However many handlers the application logger carries when
    [configure_logging] is called, a handler repeated in the list
    included, it carries exactly one afterwards: a new stream handler
    on standard output, at the application's log level, with the
    console format.  The handlers of every other logger are left alone,
    and a second call replaces the handler instead of adding one. *)
Theorem configure_logging_leaves_one_console_handler (settings : AppSettings)
    (L : logging) :
  handlers (getLogger (configure_logging settings L) (app_name settings))
  = [{| handler_id := handlers_created L;
        kind := StreamHandler Stdout;
        handler_level := Some (log_level settings);
        handler_formatter := Some ConsoleFormatter |}]
  ∧ (∀ n, canonical n ≠ canonical (app_name settings) →
          handlers (getLogger (configure_logging settings L) n)
          = handlers (getLogger L n))
  ∧ handlers
      (getLogger (configure_logging settings (configure_logging settings L))
         (app_name settings))
    = [{| handler_id := S (handlers_created L);
          kind := StreamHandler Stdout;
          handler_level := Some (log_level settings);
          handler_formatter := Some ConsoleFormatter |}].
Proof.
  split; [|split].
  - rewrite configure_logging_handlers. by rewrite decide_True.
  - intros n Hn. rewrite configure_logging_handlers. by rewrite decide_False.
  - rewrite configure_logging_handlers, decide_True by done.
    by rewrite configure_logging_handlers_created.
Qed.

(** Three handlers before, one of them twice; one handler after. *)
Lemma configure_logging_leaves_one_console_handler_witness :
  length (handlers (getLogger crowded_logging "autorag-test")) = 3
  ∧ handler_id
    <$> handlers
          (getLogger (configure_logging default_settings crowded_logging)
             "autorag-test")
    = [2].
Proof.
  split; [reflexivity|].
  destruct (configure_logging_leaves_one_console_handler default_settings
              crowded_logging) as (Hone & _).
  change (app_name default_settings) with "autorag-test" in Hone.
  by rewrite Hone.
Defined.

(** X20. The levels [configure_logging] leaves behind.  The six
    third-party loggers are at the level the function lists for them,
    the application logger is at the application's log level, and no
    other logger's level moves.  The third-party calls come last: an
    application named like one of the six ends at that logger's level,
    while its console handler is at the application's log level. *)
Theorem configure_logging_sets_levels (settings : AppSettings) (L : logging) :
  (∀ n lvl, silenced (canonical n) = Some lvl →
            logger_level (getLogger (configure_logging settings L) n)
            = Some lvl)
  ∧ (silenced (canonical (app_name settings)) = None →
     logger_level (getLogger (configure_logging settings L)
                     (app_name settings))
     = Some (log_level settings))
  ∧ (∀ n, silenced (canonical n) = None →
          canonical n ≠ canonical (app_name settings) →
          logger_level (getLogger (configure_logging settings L) n)
          = logger_level (getLogger L n))
  ∧ handler_level
    <$> handlers (getLogger (configure_logging settings L)
                    (app_name settings))
    = [Some (log_level settings)].
Proof.
  split; [|split; [|split]].
  - intros n lvl Hs. by rewrite configure_logging_level, Hs.
  - intros Hs. by rewrite configure_logging_level, Hs, decide_True.
  - intros n Hs Hn. by rewrite configure_logging_level, Hs, decide_False.
  - by rewrite configure_logging_handlers, decide_True.
Qed.

(** X21. From the environment to the log level.  Validation always
    decides [debug]: a value that was given is kept, a missing one
    becomes true in the local environment and false in the other two,
    and validating again changes nothing.  With an application name
    that is not one of the six third-party names, the application
    logger then stands at [DEBUG] when debug mode is on and at [INFO]
    when it is off. *)
Theorem log_level_follows_environment (settings : AppSettings)
    (L : logging) :
  silenced (canonical (app_name settings)) = None →
  debug (set_debug settings) = Some (debug_mode settings)
  ∧ (∀ b, debug settings = Some b → debug_mode settings = b)
  ∧ (debug settings = None →
     (debug_mode settings = true ↔ environment settings = LOCAL))
  ∧ set_debug (set_debug settings) = set_debug settings
  ∧ logger_level
      (getLogger (configure_logging (set_debug settings) L)
         (app_name settings))
    = Some (if debug_mode settings then DEBUG else INFO).
Proof.
  intros Hs. split; [|split; [|split; [|split]]].
  - apply debug_set_debug.
  - intros b Hb. unfold debug_mode. by rewrite Hb.
  - intros Hd. unfold debug_mode. rewrite Hd. apply Environment_eqb_eq.
  - unfold set_debug. destruct (debug settings) eqn:Hd; [by rewrite Hd|done].
  - rewrite <- (app_name_set_debug settings).
    rewrite configure_logging_level, app_name_set_debug, Hs.
    rewrite decide_True by done.
    unfold log_level. rewrite debug_set_debug.
    by destruct (debug_mode settings).
Qed.

(** Nothing set: the local environment, hence [DEBUG]; staging, hence
    [INFO]. *)
Lemma log_level_follows_environment_witness :
  logger_level
    (getLogger (configure_logging (set_debug default_settings) fresh_logging)
       "autorag-test")
  = Some DEBUG
  ∧ logger_level
      (getLogger (configure_logging (set_debug staging_settings) fresh_logging)
         "autorag-test")
    = Some INFO.
Proof.
  split.
  - destruct (log_level_follows_environment default_settings fresh_logging)
      as (_ & _ & _ & _ & Hlevel); [reflexivity|exact Hlevel].
  - destruct (log_level_follows_environment staging_settings fresh_logging)
      as (_ & _ & _ & _ & Hlevel); [reflexivity|exact Hlevel].
Defined.

(** X22. [get_logger] hands back the logger named
    [<app_name>.<name>], which is never the root logger.  It gives that
    logger a new null handler exactly when neither it nor the root
    logger has a handler; it never changes a level, never touches
    another logger, and asked again for the same name it changes
    nothing: a logger gets at most one null handler this way. *)
Theorem get_logger_adds_at_most_one_null_handler (settings : AppSettings)
    (name : string) (L : logging) :
  (get_logger settings name L).1 = app_name settings +:+ "." +:+ name
  ∧ canonical (get_logger settings name L).1 ≠ "root"
  ∧ handlers (getLogger (get_logger settings name L).2
                (app_name settings +:+ "." +:+ name))
    = (if bool_decide
            (handlers (getLogger L (app_name settings +:+ "." +:+ name)) = []
             ∧ handlers (getLogger L "root") = [])
       then [{| handler_id := handlers_created L;
                kind := NullHandler;
                handler_level := None;
                handler_formatter := None |}]
       else handlers (getLogger L (app_name settings +:+ "." +:+ name)))
  ∧ (∀ n, logger_level (getLogger (get_logger settings name L).2 n)
          = logger_level (getLogger L n))
  ∧ (∀ n, canonical n ≠ app_name settings +:+ "." +:+ name →
          getLogger (get_logger settings name L).2 n = getLogger L n)
  ∧ get_logger settings name (get_logger settings name L).2
    = get_logger settings name L.
Proof.
  set (full := app_name settings +:+ "." +:+ name).
  assert (Hfull : canonical full = full) by apply child_name_canonical.
  assert (Hroot : canonical "root" ≠ canonical full).
  { rewrite Hfull. intros Heq. symmetry in Heq.
    by apply child_name_not_root in Heq. }
  rewrite (get_logger_run settings name L). fold full. cbn [fst snd].
  split; [done|]. split; [rewrite Hfull; apply child_name_not_root|].
  destruct (handlers (getLogger L full)) as [|h hs] eqn:Hown;
    [destruct (handlers (getLogger L "root")) as [|r rs] eqn:Hr|].
  - rewrite bool_decide_eq_true_2 by done.
    split; [|split; [|split]].
    + rewrite getLogger_update_logger. by rewrite decide_True.
    + intros n. rewrite getLogger_update_logger.
      destruct (decide (canonical n = canonical full)) as [Heq|]; [|done].
      cbn [logger_level]. unfold getLogger. cbn [loggers]. by rewrite Heq.
    + intros n Hn. rewrite getLogger_update_logger.
      rewrite decide_False; [done|]. by rewrite Hfull.
    + rewrite (get_logger_run settings name). fold full.
      rewrite !getLogger_update_logger.
      by rewrite decide_True.
  - rewrite bool_decide_eq_false_2 by (by intros [_ ?]).
    split; [done|]. split; [done|]. split; [done|].
    rewrite (get_logger_run settings name). fold full. by rewrite Hown, Hr.
  - rewrite bool_decide_eq_false_2 by (by intros [? _]).
    split; [done|]. split; [done|]. split; [done|].
    rewrite (get_logger_run settings name). fold full. by rewrite Hown.
Qed.

(** X23. Configuring the application logger does not keep
    [get_logger] from adding a null handler.  The check looks at the
    named logger and at the root logger, not at the application logger
    in between: called after [configure_logging], as both scripts do,
    on a logger without handlers and with a root logger without
    handlers, [get_logger] still gives the logger a null handler, next
    to the console handler one level up. *)
Theorem null_handler_added_despite_configuration (settings : AppSettings)
    (name : string) (L : logging) :
  app_name settings ≠ "" →
  app_name settings ≠ "root" →
  handlers (getLogger L "root") = [] →
  handlers (getLogger L (app_name settings +:+ "." +:+ name)) = [] →
  handlers
    (getLogger (get_logger settings name (configure_logging settings L)).2
       (app_name settings +:+ "." +:+ name))
  = [{| handler_id := S (handlers_created L);
        kind := NullHandler;
        handler_level := None;
        handler_formatter := None |}]
  ∧ handlers
      (getLogger (get_logger settings name (configure_logging settings L)).2
         (app_name settings))
    = [{| handler_id := handlers_created L;
          kind := StreamHandler Stdout;
          handler_level := Some (log_level settings);
          handler_formatter := Some ConsoleFormatter |}].
Proof.
  intros Hne Hnr Hroot Hown.
  set (full := app_name settings +:+ "." +:+ name).
  assert (Hfull : canonical full = full) by apply child_name_canonical.
  assert (Hchild : canonical full ≠ canonical (app_name settings))
    by by apply child_name_not_app.
  assert (Happ : canonical "root" ≠ canonical (app_name settings)).
  { rewrite (canonical_id _ Hne). intros Heq. apply Hnr. by rewrite <- Heq. }
  rewrite (get_logger_run settings name). fold full.
  rewrite !configure_logging_handlers, !decide_False by done.
  fold full in Hown. rewrite Hown, Hroot.
  cbn [snd]. rewrite !getLogger_update_logger.
  rewrite decide_True by done.
  rewrite decide_False by (by intros Heq; symmetry in Heq).
  cbn [handlers]. rewrite getLogger_handlers_created.
  rewrite configure_logging_handlers, decide_True by done.
  by rewrite configure_logging_handlers_created.
Qed.

(** The crawler's two first lines in a fresh interpreter. *)
Lemma null_handler_added_despite_configuration_witness :
  kind
  <$> handlers
        (getLogger
           (get_logger default_settings "crawler"
              (configure_logging default_settings fresh_logging)).2
           "autorag-test.crawler")
  = [NullHandler].
Proof.
  destruct (null_handler_added_despite_configuration default_settings
              "crawler" fresh_logging) as (Hnull & _); [done..|].
  change (app_name default_settings +:+ "." +:+ "crawler")
    with "autorag-test.crawler" in Hnull.
  by rewrite Hnull.
Defined.

(** ** From the crawler to the uploader *)

Lemma keeps_entries_refl f : keeps_entries f f.
Proof. by intros q. Qed.

Lemma keeps_entries_trans f1 f2 f3 :
  keeps_entries f1 f2 → keeps_entries f2 f3 → keeps_entries f1 f3.
Proof. intros H1 H2 q Hq. by apply H2, H1. Qed.

Lemma keeps_entries_insert f p v : keeps_entries f (<[p := v]> f).
Proof.
  intros q Hq. destruct (decide (p = q)) as [->|Hne].
  - by rewrite lookup_insert_eq.
  - by rewrite lookup_insert_ne.
Qed.

Lemma keeps_entries_make_dirs f p : keeps_entries f (make_dirs f p).
Proof.
  unfold make_dirs. induction (ancestors p) as [|a l IH]; simpl.
  - apply keeps_entries_refl.
  - eapply keeps_entries_trans; [exact IH|apply keeps_entries_insert].
Qed.



Lemma mkdir_parents_keeps E dir σ o σ' :
  mkdir_parents E dir σ = (o, σ') → keeps_entries (fs σ) (fs σ').
Proof.
  unfold mkdir_parents. mstep.
  destruct (mkdir_fault E dir);
    [intros [= _ <-]; apply keeps_entries_refl|].
  destruct (is_file (fs σ) dir);
    [intros [= _ <-]; apply keeps_entries_refl|].
  destruct (existsb (is_file (fs σ)) (ancestors dir));
    intros [= _ <-]; [apply keeps_entries_refl|apply keeps_entries_make_dirs].
Qed.

Lemma mkdir_parents_elsewhere E dir σ o σ' q :
  mkdir_parents E dir σ = (o, σ') →
  q ∉ ancestors dir → fs σ' !! q = fs σ !! q.
Proof.
  unfold mkdir_parents. mstep.
  destruct (mkdir_fault E dir); [by intros [= _ <-]|].
  destruct (is_file (fs σ) dir); [by intros [= _ <-]|].
  destruct (existsb (is_file (fs σ)) (ancestors dir));
    intros [= _ <-]; [done|].
  intros Hq. cbn [fs]. by apply lookup_make_dirs_out.
Qed.

Lemma mkdir_parents_uuids E dir σ o σ' :
  mkdir_parents E dir σ = (o, σ') → uuids_drawn σ' = uuids_drawn σ.
Proof.
  unfold mkdir_parents. mstep.
  destruct (mkdir_fault E dir); [by intros [= _ <-]|].
  destruct (is_file (fs σ) dir); [by intros [= _ <-]|].
  destruct (existsb (is_file (fs σ)) (ancestors dir)); by intros [= _ <-].
Qed.

Section persister_keeps.
Context (E : env) (output_dir : path).

Ltac keeps_goal :=
  split;
  [ cbn [fs];
    first [ apply keeps_entries_refl | apply keeps_entries_insert ]
  | cbn [uuids_drawn]; lia ].

(** One record: entries are added or rewritten, none goes away. *)
Lemma save_page_keeps i r c σ o σ' :
  save_page E output_dir i r c σ = (o, σ') →
  keeps_entries (fs σ) (fs σ') ∧ uuids_drawn σ ≤ uuids_drawn σ'.
Proof.
  unfold save_page, write_text. mstep. intros H.
  repeat (case_match; mstep_in H; simplify_eq); try keeps_goal.
Qed.

Lemma save_pages_keeps pages i c σ o σ' :
  save_pages E output_dir pages i c σ = (o, σ') →
  keeps_entries (fs σ) (fs σ') ∧ uuids_drawn σ ≤ uuids_drawn σ'.
Proof.
  revert i c σ. induction pages as [|r pages IH]; intros i c σ; simpl.
  - intros [= <- <-]. split; [apply keeps_entries_refl|done].
  - mstep. destruct (save_page E output_dir i r c σ) as [[c'|e] σ1] eqn:Hp.
    + intros H. apply save_page_keeps in Hp as [Hk1 Hu1].
      apply IH in H as [Hk2 Hu2].
      split; [by eapply keeps_entries_trans|lia].
    + intros [= <- <-]. by eapply save_page_keeps.
Qed.

(** The whole call, whatever it is given and however it ends. *)
Lemma save_crawl_results_keeps crawl_data σ o σ' :
  save_crawl_results E crawl_data output_dir σ = (o, σ') →
  keeps_entries (fs σ) (fs σ')
  ∧ uuids_drawn σ ≤ uuids_drawn σ'
  ∧ ∀ q, q ∉ ancestors output_dir →
         (∀ file : string, q ≠ output_dir ++ [file]) →
         fs σ' !! q = fs σ !! q.
Proof.
  unfold save_crawl_results. mstep.
  destruct (mkdir_parents E output_dir σ) as [[[]|e] σ1] eqn:Hmk; cycle 1.
  { intros [= <- <-].
    split; [by eapply mkdir_parents_keeps|].
    split; [by rewrite (mkdir_parents_uuids _ _ _ _ _ Hmk)|].
    intros q Hq _. by eapply mkdir_parents_elsewhere. }
  pose proof (mkdir_parents_keeps _ _ _ _ _ Hmk) as Hk1.
  pose proof (mkdir_parents_uuids _ _ _ _ _ Hmk) as Hu1.
  pose proof (λ q, mkdir_parents_elsewhere _ _ _ _ _ q Hmk) as Hf1.
  cbn [fs uuids_drawn trace].
  destruct (py_iter crawl_data _) as [[pages|e] σ2] eqn:Hit.
  - assert (Hσ2 : fs σ2 = fs σ1 ∧ uuids_drawn σ2 = uuids_drawn σ1).
    { revert Hit. unfold py_iter. destruct crawl_data; mstep;
        by intros [= _ <-]. }
    destruct Hσ2 as [Hfs2 Hu2].
    destruct (save_pages E output_dir pages 0 0 σ2) as [[n|e] σ3] eqn:Hrun.
    + mstep. intros [= <- <-]. cbn [fs uuids_drawn].
      pose proof (save_pages_frame _ _ _ _ _ _ _ _ Hrun) as [_ Hf3].
      apply save_pages_keeps in Hrun as [Hk3 Hu3].
      rewrite Hfs2 in Hk3, Hf3.
      split; [by eapply keeps_entries_trans|]. split; [lia|].
      intros q Hq Hchild. rewrite Hf3 by done. by apply Hf1.
    + intros [= <- <-].
      pose proof (save_pages_frame _ _ _ _ _ _ _ _ Hrun) as [_ Hf3].
      apply save_pages_keeps in Hrun as [Hk3 Hu3].
      rewrite Hfs2 in Hk3, Hf3.
      split; [by eapply keeps_entries_trans|]. split; [lia|].
      intros q Hq Hchild. rewrite Hf3 by done. by apply Hf1.
  - intros [= <- <-].
    assert (Hσ2 : fs σ2 = fs σ1 ∧ uuids_drawn σ2 = uuids_drawn σ1).
    { revert Hit. unfold py_iter. destruct crawl_data; mstep;
        by intros [= _ <-]. }
    destruct Hσ2 as [Hfs2 Hu2]. rewrite Hfs2, Hu2.
    split; [done|]. split; [lia|]. intros q Hq _. by apply Hf1.
Qed.
End persister_keeps.








(** X24. The persister only ever adds.  Whatever it is given, whatever
    the disk does and whether it returns or raises, every entry of the
    file system is still there afterwards, pages of earlier crawls
    included; nothing changes outside the output directory, its
    parents and the entries directly under it; and the UUID generator
    never goes back. *)
Theorem persister_only_adds (E : env) (output_dir : path)
    (crawl_data : pyval) (σ : state) :
  (∀ q, is_Some (fs σ !! q) →
        is_Some (fs (save_crawl_results E crawl_data output_dir σ).2 !! q))
  ∧ (∀ q, q ∉ ancestors output_dir →
          (∀ file : string, q ≠ output_dir ++ [file]) →
          fs (save_crawl_results E crawl_data output_dir σ).2 !! q
          = fs σ !! q)
  ∧ uuids_drawn σ
    ≤ uuids_drawn (save_crawl_results E crawl_data output_dir σ).2.
Proof.
  destruct (save_crawl_results E crawl_data output_dir σ) as [o σ'] eqn:Hrun.
  apply save_crawl_results_keeps in Hrun as (Hk & Hu & Hf).
  cbn [snd]. split; [exact Hk|]. split; [exact Hf|exact Hu].
Qed.


